(** * Dicenic script interpreter: a shallow embedding and its verified properties

    The development follows the TypeScript sources of the interpreter:
    - [TypeConverter]        (src/utils/TypeConverter.ts)
    - [ExecutionContext]     (src/interpreter/ExecutionContext.ts)
    - [StringInterpolator]   (src/utils/StringInterpolator.ts)
    - [DiceCalculator]       (src/utils/DiceCalculator.ts)
    - [ErrorHandler]         (src/errors/ErrorHandler.ts, DicenicError.ts)
    - [DicenicInterpreter]   (src/interpreter/DicenicInterpreter.ts)
    - [executeScript]        (src/index.ts)

    JavaScript numbers are IEEE 754 binary64 values and are modelled by the
    kernel's primitive floats; JavaScript strings are sequences of UTF-16
    code units and are modelled by [list N].  The payload of a value is a
    number or a string whatever its tag, as its TypeScript type says.
    Maps are stdpp's [gmap].  Stateful code is written in a
    state-and-exception monad. *)

From Stdlib Require Import ZArith List String Ascii Floats Lia Bool DecimalString.
From stdpp Require Import base gmap list.
Import ListNotations.

Set Default Proof Using "Type".
Set Warnings "-register-all".
Local Open Scope Z_scope.

(* ================================================================== *)
(** ** JavaScript strings *)
(* ================================================================== *)

(** A JavaScript string: its UTF-16 code units. *)
Abbreviation jsstring := (list N).

(** ASCII literals, for readable statements. *)
Definition str (s : string) : jsstring :=
  map N_of_ascii (list_ascii_of_string s).
Arguments str : simpl never.

(** Decimal rendering of an integer, as a template literal renders an
    integral number. *)
Definition Z_to_jsstring (z : Z) : jsstring :=
  str (NilZero.string_of_int (Z.to_int z)).

Definition jsstring_eqb (a b : jsstring) : bool := bool_decide (a = b).

(** [s.charAt(i)]: a one-unit string, or the empty string out of range. *)
Definition charAt (s : jsstring) (i : nat) : jsstring :=
  match nth_error s i with
  | Some c => [c]
  | None => []
  end.

(** [s.substring(i)] *)
Definition substring_from (s : jsstring) (i : nat) : jsstring := skipn i s.

(** [s.substring(a, b)] for [a <= b]. *)
Definition substring (s : jsstring) (a b : nat) : jsstring :=
  firstn (b - a) (skipn a s).

(** [s.startsWith(p)] *)
Fixpoint startsWith (s p : jsstring) : bool :=
  match p, s with
  | [], _ => true
  | c :: p', d :: s' => N.eqb c d && startsWith s' p'
  | _ :: _, [] => false
  end.

Definition endsWith (s p : jsstring) : bool := startsWith (rev s) (rev p).

(** White space and line terminators, the code units removed by
    [String.prototype.trim]. *)
Definition isWhiteSpace (c : N) : bool :=
  existsb (N.eqb c)
    [0x09; 0x0A; 0x0B; 0x0C; 0x0D; 0x20; 0xA0; 0x1680; 0x2028; 0x2029;
     0x202F; 0x205F; 0x3000; 0xFEFF]%N
  || (N.leb 0x2000 c && N.leb c 0x200A).

Fixpoint trimStart (s : jsstring) : jsstring :=
  match s with
  | c :: s' => if isWhiteSpace c then trimStart s' else s
  | [] => []
  end.

Definition trim (s : jsstring) : jsstring :=
  rev (trimStart (rev (trimStart s))).

Definition isAsciiLetter (c : N) : bool :=
  (N.leb 0x61 c && N.leb c 0x7A) || (N.leb 0x41 c && N.leb c 0x5A).

Definition isDigit (c : N) : bool := N.leb 0x30 c && N.leb c 0x39.

(** The character class U+4E00..U+9FA5. *)
Definition isCJK (c : N) : bool := N.leb 0x4E00 c && N.leb c 0x9FA5.

(** Global [replace] of a two-unit literal pattern [a b] by [r]: leftmost,
    non-overlapping matches. *)
Fixpoint replaceAll2 (a b : N) (r : jsstring) (s : jsstring) : jsstring :=
  match s with
  | c :: s' =>
      match s' with
      | d :: s'' =>
          if N.eqb c a && N.eqb d b
          then r ++ replaceAll2 a b r s''
          else c :: replaceAll2 a b r s'
      | [] => [c]
      end
  | [] => []
  end.

(** Global [replace] of a one-unit literal pattern [a] by [r]. *)
Fixpoint replaceAll1 (a : N) (r : jsstring) (s : jsstring) : jsstring :=
  match s with
  | c :: s' =>
      if N.eqb c a then r ++ replaceAll1 a r s' else c :: replaceAll1 a r s'
  | [] => []
  end.

(** Global [replace] of a three-unit literal pattern [a b c] by [r]:
    leftmost, non-overlapping matches. *)
Fixpoint replaceAll3 (a b c : N) (r : jsstring) (s : jsstring) : jsstring :=
  match s with
  | x :: s' =>
      match s' with
      | y :: z :: s'' =>
          if N.eqb x a && N.eqb y b && N.eqb z c
          then r ++ replaceAll3 a b c r s''
          else x :: replaceAll3 a b c r s'
      | _ => s
      end
  | [] => []
  end.

Fixpoint dropDigits (s : jsstring) : jsstring :=
  match s with
  | c :: s' => if isDigit c then dropDigits s' else s
  | [] => []
  end.

(** The test of the anchored expression "digits, the letter d in either
    case, digits" used by the converter; no trimming, no lower-casing. *)
Definition matchesDiceText (s : jsstring) : bool :=
  match s with
  | c :: _ =>
      isDigit c &&
      match dropDigits s with
      | sep :: r =>
          (N.eqb sep 0x64 || N.eqb sep 0x44) &&
          match r with
          | d :: _ =>
              isDigit d &&
              match dropDigits r with
              | [] => true
              | _ :: _ => false
              end
          | [] => false
          end
      | [] => false
      end
  | [] => false
  end.

(* ================================================================== *)
(** ** The host: ECMAScript built-ins used by the sources *)
(* ================================================================== *)

(** The built-ins of the JavaScript engine are not part of the repository;
    the model is parametric in them.  [mathRandom i] is the value returned
    by the [i]-th call of [Math.random] in a run. *)
Class Host := {
  parseFloat : jsstring -> float;
  parseInt10 : jsstring -> float;
  numberToString : float -> jsstring;
  numberRemainder : float -> float -> float;
  numberIsInteger : float -> bool;
  mathFloor : float -> float;
  mathRandom : nat -> float
}.

(** [isNaN] on a number. *)
Definition isNaN (x : float) : bool := PrimFloat.is_nan x.

(** Strict equality [===] on numbers. *)
Definition num_eq (x y : float) : bool := PrimFloat.eqb x y.

(* ================================================================== *)
(** ** Values (src/interpreter/types.ts) *)
(* ================================================================== *)

Inductive VariableType := TNUMBER | TSTRING | TDICE_EXPRESSION.

(** The payload of a value, [number | string]. *)
Inductive Payload :=
| JSNumber (n : float)
| JSString (s : jsstring).

(** [DicenicValue = { type, value }].  The tag does not constrain the
    payload: the repository itself builds a [DICE_EXPRESSION] on a text
    ([createDiceValue] of index.ts, [TypeConverter.getDefaultValue]), and
    a caller can hand any pair to the context. *)
Record DicenicValue := {
  type : VariableType;
  value : Payload
}.

(** The three shapes the interpreter builds itself. *)
Abbreviation NUMBER n := {| type := TNUMBER; value := JSNumber n |}.
Abbreviation STRING s := {| type := TSTRING; value := JSString s |}.
Abbreviation DICE_EXPRESSION n :=
  {| type := TDICE_EXPRESSION; value := JSNumber n |}.

Definition VariableType_eqb (a b : VariableType) : bool :=
  match a, b with
  | TNUMBER, TNUMBER | TSTRING, TSTRING
  | TDICE_EXPRESSION, TDICE_EXPRESSION => true
  | _, _ => false
  end.

(** The helpers exported by src/index.ts. *)
Definition createNumberValue (n : float) : DicenicValue :=
  {| type := TNUMBER; value := JSNumber n |}.

Definition createStringValue (s : jsstring) : DicenicValue :=
  {| type := TSTRING; value := JSString s |}.

Definition createDiceValue (expression : jsstring) : DicenicValue :=
  {| type := TDICE_EXPRESSION; value := JSString expression |}.

(** *** The operators of the language applied to payloads

    The sources cast a payload to [string] or [number] without a check
    ([value.value as string]); what runs is the ECMAScript operator on
    whatever the payload is. *)
Section Coercions.
Context {host : Host}.

(** ToString: what [parseFloat], [x.toString()] and [+] with a string
    operand make of a payload. *)
Definition toText (p : Payload) : jsstring :=
  match p with
  | JSString s => s
  | JSNumber n => numberToString n
  end.

(** [a === b] *)
Definition strictEquals (a b : Payload) : bool :=
  match a, b with
  | JSNumber x, JSNumber y => num_eq x y
  | JSString s, JSString t => jsstring_eqb s t
  | _, _ => false
  end.

(** [a + b]: the sum of two numbers, the concatenation of the texts
    otherwise. *)
Definition jsAdd (a b : Payload) : Payload :=
  match a, b with
  | JSNumber x, JSNumber y => JSNumber (PrimFloat.add x y)
  | _, _ => JSString (toText a ++ toText b)
  end.

End Coercions.

(** [TokenType] (src/types.ts), the operator argument of
    [TypeConverter.convertForOperation]. *)
Module TokenType.
Inductive t :=
| NUMBER | STRING | DICE_EXPRESSION | IDENTIFIER | SPECIAL_VAR
| PLUS | MINUS | MULTIPLY | DIVIDE | MODULO
| ASSIGN | PLUS_ASSIGN | MINUS_ASSIGN | MULTIPLY_ASSIGN | DIVIDE_ASSIGN
| MODULO_ASSIGN
| EQUAL | NOT_EQUAL | GREATER | LESS | GREATER_EQUAL | LESS_EQUAL
| AND | OR | NOT
| LEFT_PAREN | RIGHT_PAREN | LEFT_BRACE | RIGHT_BRACE
| SEMICOLON | QUESTION | COLON
| IF | ELSE | WHILE
| EOF | NEWLINE.
End TokenType.

(* ================================================================== *)
(** ** Errors (src/errors/DicenicError.ts) *)
(* ================================================================== *)

Inductive AccessType := ReadAccess | WriteAccess.

(** The subclasses of [DicenicError] with their own fields. *)
Inductive ErrorDetail :=
| SyntaxError
| RuntimeError (context : option jsstring)
| TypeConversionError (sourceType targetType sourceValue : jsstring)
| VariableAccessError (variableName : jsstring) (accessType : AccessType)
| DiceError (diceExpression : jsstring)
| LoopError (loopType : jsstring) (maxIterations : option Z).

Record DicenicError := {
  message : jsstring;
  line : Z;
  column : Z;
  detail : ErrorDetail
}.

Definition errorType (e : DicenicError) : jsstring :=
  match detail e with
  | SyntaxError => str "SyntaxError"
  | RuntimeError _ => str "RuntimeError"
  | TypeConversionError _ _ _ => str "TypeConversionError"
  | VariableAccessError _ _ => str "VariableAccessError"
  | DiceError _ => str "DiceError"
  | LoopError _ _ => str "LoopError"
  end.

Definition isVariableAccessError (e : DicenicError) : bool :=
  match detail e with VariableAccessError _ _ => true | _ => false end.

Definition isRuntimeError (e : DicenicError) : bool :=
  match detail e with RuntimeError _ => true | _ => false end.

Definition AccessType_text (a : AccessType) : jsstring :=
  match a with ReadAccess => str "read" | WriteAccess => str "write" end.

(** [DicenicError.getFormattedMessage] of the base class. *)
Definition baseFormattedMessage (e : DicenicError) : jsstring :=
  if (0 <=? line e) && (0 <=? column e) then
    errorType e ++ str " at line " ++ Z_to_jsstring (line e) ++
    str ", column " ++ Z_to_jsstring (column e) ++ str ": " ++ message e
  else if 0 <=? line e then
    errorType e ++ str " at line " ++ Z_to_jsstring (line e) ++
    str ": " ++ message e
  else
    errorType e ++ str ": " ++ message e.

(** [getFormattedMessage], with the overrides of the subclasses. *)
Definition getFormattedMessage (e : DicenicError) : jsstring :=
  let baseMessage := baseFormattedMessage e in
  match detail e with
  | SyntaxError => baseMessage
  | RuntimeError (Some c) =>
      if jsstring_eqb c [] then baseMessage
      else baseMessage ++ [10%N] ++ str "Context: " ++ c
  | RuntimeError None => baseMessage
  | TypeConversionError srcT tgtT srcV =>
      baseMessage ++ [10%N] ++ str "Failed to convert " ++ srcT ++ str "(" ++
      srcV ++ str ") to " ++ tgtT
  | VariableAccessError v a =>
      baseMessage ++ [10%N] ++ str "Variable: " ++ v ++ str ", Access: " ++
      AccessType_text a
  | DiceError d => baseMessage ++ [10%N] ++ str "Dice Expression: " ++ d
  | LoopError lt mi =>
      baseMessage ++ [10%N] ++ str "Loop Type: " ++ lt ++
      match mi with
      | Some n => [10%N] ++ str "Max Iterations: " ++ Z_to_jsstring n
      | None => []
      end
  end.

(** What a [throw] statement can raise: a plain [Error] or a
    [DicenicError]. *)
Inductive Thrown :=
| ThrownError (msg : jsstring)
| ThrownDicenic (e : DicenicError).

(** [error.message] *)
Definition thrown_message (t : Thrown) : jsstring :=
  match t with
  | ThrownError m => m
  | ThrownDicenic e => message e
  end.

(* ================================================================== *)
(** ** The state-and-exception monad *)
(* ================================================================== *)

(** Outcome of a call on a mutable object of type [S]: it returns or it
    throws, and in both cases the mutations made so far stay. *)
Inductive Result (S A : Type) :=
| Ok (a : A) (s : S)
| Throw (e : Thrown) (s : S).
Arguments Ok {S A} a s.
Arguments Throw {S A} e s.

Definition M (S A : Type) : Type := S -> Result S A.

Definition ret {S A} (a : A) : M S A := fun s => Ok a s.

Definition bind {S A B} (m : M S A) (f : A -> M S B) : M S B :=
  fun s => match m s with
           | Ok a s' => f a s'
           | Throw e s' => Throw e s'
           end.

Definition throw {S A} (e : Thrown) : M S A := fun s => Throw e s.

Definition get {S} : M S S := fun s => Ok s s.

Definition modify {S} (f : S -> S) : M S unit := fun s => Ok tt (f s).

(** [try { m } catch (e) { h e }] *)
Definition tryCatch {S A} (m : M S A) (h : Thrown -> M S A) : M S A :=
  fun s => match m s with
           | Ok a s' => Ok a s'
           | Throw e s' => h e s'
           end.

(** Running a computation on a component [T] of the state [S]. *)
Definition zoom {S T A} (proj : S -> T) (upd : T -> S -> S) (m : M T A)
  : M S A :=
  fun s => match m (proj s) with
           | Ok a t => Ok a (upd t s)
           | Throw e t => Throw e (upd t s)
           end.

Notation "'let*' x ':=' m 'in' k" := (bind m (fun x => k))
  (at level 10, x name, m at level 200, k at level 200).
Notation "m ;; k" := (bind m (fun _ => k))
  (at level 100, k at level 200, right associativity).

Definition final_state {S A} (r : Result S A) : S :=
  match r with Ok _ s => s | Throw _ s => s end.

Definition returns {S A} (r : Result S A) : bool :=
  match r with Ok _ _ => true | Throw _ _ => false end.

(** A pure call that may throw. *)
Inductive Completion (A : Type) :=
| Normal (a : A)
| Abrupt (e : Thrown).
Arguments Normal {A} a.
Arguments Abrupt {A} e.

(* ================================================================== *)
(** ** TypeConverter (src/utils/TypeConverter.ts) *)
(* ================================================================== *)

Module TypeConverter.
Section WithHost.
Context {host : Host}.

(** Under the tags [NUMBER] and [DICE_EXPRESSION] the payload is returned
    when [typeof] says it is a number, and 0 otherwise; under [STRING] it
    is parsed, whatever it is. *)
Definition toNumber (v : DicenicValue) : float :=
  match type v with
  | TNUMBER =>
      match value v with JSNumber n => n | JSString _ => 0%float end
  | TSTRING =>
      let parsed := parseFloat (toText (value v)) in
      if isNaN parsed then 0%float else parsed
  | TDICE_EXPRESSION =>
      match value v with JSNumber n => n | JSString _ => 0%float end
  end.

(** The [STRING] case returns the payload as it is; the other two call
    its [toString] method. *)
Definition toString (v : DicenicValue) : Payload :=
  match type v with
  | TSTRING => value v
  | TNUMBER => JSString (toText (value v))
  | TDICE_EXPRESSION => JSString (toText (value v))
  end.

Definition toBoolean (v : DicenicValue) : bool :=
  match type v with
  | TNUMBER => negb (strictEquals (value v) (JSNumber 0%float))
  | TSTRING => negb (strictEquals (value v) (JSString []))
  | TDICE_EXPRESSION => negb (strictEquals (value v) (JSNumber 0%float))
  end.

(** [v.type === STRING && isNaN(parseFloat(v.value))] *)
Definition nonNumericString (v : DicenicValue) : bool :=
  match type v with
  | TSTRING => isNaN (parseFloat (toText (value v)))
  | _ => false
  end.

(** [stringValue.match] on a payload that is a number. *)
Definition matchIsNotAFunction : Thrown :=
  ThrownError (str "stringValue.match is not a function").

Definition implicitConvert (v : DicenicValue) (targetType : VariableType)
  : Completion DicenicValue :=
  if VariableType_eqb (type v) targetType then Normal v
  else
    match targetType with
    | TNUMBER => Normal {| type := TNUMBER; value := JSNumber (toNumber v) |}
    | TSTRING => Normal {| type := TSTRING; value := toString v |}
    | TDICE_EXPRESSION =>
        let fallback := Normal {| type := TSTRING; value := toString v |} in
        match type v with
        | TSTRING =>
            match value v with
            | JSString stringValue =>
                if matchesDiceText stringValue
                then Normal {| type := TDICE_EXPRESSION;
                               value := JSString stringValue |}
                else fallback
            | JSNumber _ => Abrupt matchIsNotAFunction
            end
        | _ => fallback
        end
    end.

Definition isComparisonOperator (operator : TokenType.t) : bool :=
  match operator with
  | TokenType.EQUAL | TokenType.NOT_EQUAL | TokenType.GREATER
  | TokenType.LESS | TokenType.GREATER_EQUAL | TokenType.LESS_EQUAL => true
  | _ => false
  end.

Definition isLogicalOperator (operator : TokenType.t) : bool :=
  match operator with
  | TokenType.AND | TokenType.OR => true
  | _ => false
  end.

Definition isArithmeticOperator (operator : TokenType.t) : bool :=
  match operator with
  | TokenType.PLUS | TokenType.MINUS | TokenType.MULTIPLY
  | TokenType.DIVIDE | TokenType.MODULO => true
  | _ => false
  end.

(** The array literal [[a, b]]: [a] is evaluated first, and [b] only when
    [a] returned. *)
Definition pairOf (a b : Completion DicenicValue)
  : Completion (DicenicValue * DicenicValue) :=
  match a with
  | Abrupt e => Abrupt e
  | Normal x =>
      match b with
      | Abrupt e => Abrupt e
      | Normal y => Normal (x, y)
      end
  end.

Definition convertForComparison (left right : DicenicValue)
  : Completion (DicenicValue * DicenicValue) :=
  if VariableType_eqb (type left) (type right)
  then Normal (left, right)
  else if nonNumericString left || nonNumericString right
  then pairOf (implicitConvert left TSTRING) (implicitConvert right TSTRING)
  else pairOf (implicitConvert left TNUMBER) (implicitConvert right TNUMBER).

Definition convertForLogical (left right : DicenicValue)
  : Completion (DicenicValue * DicenicValue) :=
  Normal (left, right).

Definition convertForArithmetic (left right : DicenicValue)
  : Completion (DicenicValue * DicenicValue) :=
  pairOf (implicitConvert left TNUMBER) (implicitConvert right TNUMBER).

Definition convertForOperation (left right : DicenicValue)
  (operator : TokenType.t) : Completion (DicenicValue * DicenicValue) :=
  if isComparisonOperator operator then convertForComparison left right
  else if isLogicalOperator operator then convertForLogical left right
  else if isArithmeticOperator operator then
    if match operator with TokenType.PLUS => true | _ => false end
       && (nonNumericString left || nonNumericString right)
    then pairOf (implicitConvert left TSTRING) (implicitConvert right TSTRING)
    else convertForArithmetic left right
  else pairOf (implicitConvert left TNUMBER) (implicitConvert right TNUMBER).

Definition getDefaultValue (targetType : VariableType) : DicenicValue :=
  match targetType with
  | TNUMBER => {| type := TNUMBER; value := JSNumber 0%float |}
  | TSTRING => {| type := TSTRING; value := JSString [] |}
  | TDICE_EXPRESSION =>
      {| type := TDICE_EXPRESSION; value := JSString (str "1d1") |}
  end.

Definition validateType (v : DicenicValue) (expected : VariableType) : bool :=
  if negb (VariableType_eqb (type v) expected) then false
  else
    match expected with
    | TNUMBER =>
        match value v with
        | JSNumber n => negb (isNaN n)
        | JSString _ => false
        end
    | TSTRING =>
        match value v with
        | JSString _ => true
        | JSNumber _ => false
        end
    | TDICE_EXPRESSION =>
        match value v with
        | JSString text => matchesDiceText text
        | JSNumber _ => true
        end
    end.

End WithHost.
End TypeConverter.

(* ================================================================== *)
(** ** ExecutionContext (src/interpreter/ExecutionContext.ts) *)
(* ================================================================== *)

Record ExecutionContextData := {
  attributes : gmap jsstring DicenicValue;
  roleInfo : gmap jsstring DicenicValue;
  systemInfo : gmap jsstring DicenicValue;
  diceInfo : gmap jsstring DicenicValue;
  variables : gmap jsstring DicenicValue
}.

Module SpecialVariablePrefix.
Definition ATTRIBUTE : jsstring := str "a".
Definition ROLE : jsstring := str "r".
Definition SYSTEM : jsstring := str "s".
Definition DICE : jsstring := str "d".
End SpecialVariablePrefix.

Module ExecutionContext.
Import SpecialVariablePrefix.

Definition getVariable (name : jsstring) (c : ExecutionContextData)
  : DicenicValue :=
  match variables c !! name with
  | Some value => value
  | None => NUMBER 0%float
  end.

Definition setVariable (name : jsstring) (value : DicenicValue)
  (c : ExecutionContextData) : ExecutionContextData :=
  {| attributes := attributes c; roleInfo := roleInfo c;
     systemInfo := systemInfo c; diceInfo := diceInfo c;
     variables := <[name := value]> (variables c) |}.

Definition getStorageByPrefix (prefix : jsstring) (c : ExecutionContextData)
  : Completion (gmap jsstring DicenicValue) :=
  if jsstring_eqb prefix ATTRIBUTE then Normal (attributes c)
  else if jsstring_eqb prefix ROLE then Normal (roleInfo c)
  else if jsstring_eqb prefix SYSTEM then Normal (systemInfo c)
  else if jsstring_eqb prefix DICE then Normal (diceInfo c)
  else Abrupt (ThrownError (str "Unknown special variable prefix: " ++ prefix)).

(** [getStorageByPrefix(prefix).set(name, value)]: the map selected by the
    prefix is updated in place. *)
Definition storageSet (prefix name : jsstring) (value : DicenicValue)
  (c : ExecutionContextData) : Completion ExecutionContextData :=
  if jsstring_eqb prefix ATTRIBUTE then
    Normal {| attributes := <[name := value]> (attributes c);
              roleInfo := roleInfo c; systemInfo := systemInfo c;
              diceInfo := diceInfo c; variables := variables c |}
  else if jsstring_eqb prefix ROLE then
    Normal {| attributes := attributes c;
              roleInfo := <[name := value]> (roleInfo c);
              systemInfo := systemInfo c;
              diceInfo := diceInfo c; variables := variables c |}
  else if jsstring_eqb prefix SYSTEM then
    Normal {| attributes := attributes c; roleInfo := roleInfo c;
              systemInfo := <[name := value]> (systemInfo c);
              diceInfo := diceInfo c; variables := variables c |}
  else if jsstring_eqb prefix DICE then
    Normal {| attributes := attributes c; roleInfo := roleInfo c;
              systemInfo := systemInfo c;
              diceInfo := <[name := value]> (diceInfo c);
              variables := variables c |}
  else Abrupt (ThrownError (str "Unknown special variable prefix: " ++ prefix)).

Definition getSpecialVariable (prefix name : jsstring)
  (c : ExecutionContextData) : Completion DicenicValue :=
  match getStorageByPrefix prefix c with
  | Abrupt e => Abrupt e
  | Normal storage =>
      match storage !! name with
      | Some value => Normal value
      | None =>
          if jsstring_eqb prefix ROLE || jsstring_eqb prefix SYSTEM
          then Normal (STRING [])
          else Normal (NUMBER 0%float)
      end
  end.

Definition canWriteSpecialVariable (prefix : jsstring) : bool :=
  if jsstring_eqb prefix ATTRIBUTE || jsstring_eqb prefix DICE then true
  else if jsstring_eqb prefix ROLE || jsstring_eqb prefix SYSTEM then false
  else false.

Definition setSpecialVariable (prefix name : jsstring) (value : DicenicValue)
  (c : ExecutionContextData) : Completion ExecutionContextData :=
  if negb (canWriteSpecialVariable prefix) then
    Abrupt (ThrownError
              (str "Cannot write to read-only variable: $" ++ prefix ++ name))
  else storageSet prefix name value c.

(** [this.variables.clear()]: the special pools stay. *)
Definition clearVariables (c : ExecutionContextData) : ExecutionContextData :=
  {| attributes := attributes c; roleInfo := roleInfo c;
     systemInfo := systemInfo c; diceInfo := diceInfo c;
     variables := ∅ |}.

Definition hasVariable (name : jsstring) (c : ExecutionContextData) : bool :=
  bool_decide (is_Some (variables c !! name)).

Definition hasSpecialVariable (prefix name : jsstring)
  (c : ExecutionContextData) : Completion bool :=
  match getStorageByPrefix prefix c with
  | Abrupt e => Abrupt e
  | Normal storage => Normal (bool_decide (is_Some (storage !! name)))
  end.

End ExecutionContext.

(* ================================================================== *)
(** ** ErrorHandler (src/errors/ErrorHandler.ts) *)
(* ================================================================== *)

Record ErrorHandlerConfig := {
  enableRecovery : bool;
  logWarnings : bool;
  maxErrors : Z;
  useDefaultOnTypeError : bool
}.

Definition DEFAULT_ERROR_CONFIG : ErrorHandlerConfig :=
  {| enableRecovery := true; logWarnings := true; maxErrors := 10;
     useDefaultOnTypeError := true |}.

(** The fields of the class.  Console output is not part of the state. *)
Record ErrorHandler := {
  config : ErrorHandlerConfig;
  errors : list DicenicError;
  warnings : list jsstring
}.

Definition newErrorHandler (c : ErrorHandlerConfig) : ErrorHandler :=
  {| config := c; errors := []; warnings := [] |}.

Definition tooManyErrors (n : nat) : DicenicError :=
  {| message := str "Too many errors (" ++ Z_to_jsstring (Z.of_nat n) ++
                str "), stopping execution";
     line := -1; column := -1;
     detail := RuntimeError (Some (str "Error limit exceeded")) |}.

(** [addError]: push first, then compare the new length with [maxErrors]. *)
Definition addError (error : DicenicError) : M ErrorHandler unit :=
  fun h =>
    let h' := {| config := config h; errors := errors h ++ [error];
                 warnings := warnings h |} in
    if Z.of_nat (length (errors h')) >? maxErrors (config h')
    then Throw (ThrownDicenic (tooManyErrors (length (errors h')))) h'
    else Ok tt h'.

Definition addWarning (warning : jsstring) : M ErrorHandler unit :=
  modify (fun h => {| config := config h; errors := errors h;
                      warnings := warnings h ++ [warning] |}).

(** The tail shared by the handlers that record an error: rethrow it when
    recovery is disabled. *)
Definition throwUnlessRecovery (error : DicenicError) : M ErrorHandler unit :=
  let* h := get in
  if negb (enableRecovery (config h)) then throw (ThrownDicenic error)
  else ret tt.

Definition handleSyntaxError (msg : jsstring) (ln col : Z)
  : M ErrorHandler unit :=
  let error := {| message := msg; line := ln; column := col;
                  detail := SyntaxError |} in
  addError error ;;
  throwUnlessRecovery error.

Definition handleRuntimeError (msg : jsstring) (ln col : Z)
  (context : option jsstring) : M ErrorHandler unit :=
  let error := {| message := msg; line := ln; column := col;
                  detail := RuntimeError context |} in
  addError error ;;
  throwUnlessRecovery error.

(** ASCII lower-casing; on the literals compared below it decides the same
    equalities as [toLowerCase]. *)
Definition toLowerAscii (s : jsstring) : jsstring :=
  map (fun c => if N.leb 0x41 c && N.leb c 0x5A then (c + 32)%N else c) s.

Definition getDefaultValueForType (targetType : jsstring) : DicenicValue :=
  let t := toLowerAscii targetType in
  if jsstring_eqb t (str "number") then NUMBER 0%float
  else if jsstring_eqb t (str "string") then STRING []
  else if jsstring_eqb t (str "dice_expression") then DICE_EXPRESSION 0%float
  else NUMBER 0%float.

Definition handleTypeConversionError (msg sourceType targetType
  sourceValue : jsstring) (ln col : Z) : M ErrorHandler (option DicenicValue) :=
  let error := {| message := msg; line := ln; column := col;
                  detail := TypeConversionError sourceType targetType
                              sourceValue |} in
  let* h := get in
  if useDefaultOnTypeError (config h) then
    addWarning (getFormattedMessage error) ;;
    ret (Some (getDefaultValueForType targetType))
  else
    addError error ;;
    throwUnlessRecovery error ;;
    ret None.

Definition handleVariableAccessError (msg variableName : jsstring)
  (accessType : AccessType) (ln col : Z) : M ErrorHandler unit :=
  let error := {| message := msg; line := ln; column := col;
                  detail := VariableAccessError variableName accessType |} in
  addError error ;;
  throwUnlessRecovery error.

Definition handleDiceError (msg diceExpression : jsstring) (ln col : Z)
  : M ErrorHandler (option DicenicValue) :=
  let error := {| message := msg; line := ln; column := col;
                  detail := DiceError diceExpression |} in
  let* h := get in
  if enableRecovery (config h) then
    addWarning (getFormattedMessage error) ;;
    ret (Some (NUMBER 0%float))
  else
    addError error ;;
    throw (ThrownDicenic error).

Definition handleLoopError (msg loopType : jsstring)
  (maxIterations : option Z) (ln col : Z) : M ErrorHandler unit :=
  let error := {| message := msg; line := ln; column := col;
                  detail := LoopError loopType maxIterations |} in
  addWarning (getFormattedMessage error).

(** [getErrors], [getWarnings] return copies of the two lists. *)
Definition getErrors (h : ErrorHandler) : list DicenicError := errors h.
Definition getWarnings (h : ErrorHandler) : list jsstring := warnings h.

(** [clear]: both lists are emptied, the configuration stays. *)
Definition clear (h : ErrorHandler) : ErrorHandler :=
  {| config := config h; errors := []; warnings := [] |}.

(* ================================================================== *)
(** ** StringInterpolator (src/utils/StringInterpolator.ts) *)
(* ================================================================== *)

(** [InterpolationExpression]; [end] is a keyword, hence [end_]. *)
Record InterpolationExpression := {
  start : nat;
  end_ : nat;
  expression : jsstring
}.

Module StringInterpolator.
Import ExecutionContext.
Section WithHost.
Context {host : Host}.

(** Scanner state for the regular expression of
    [parseInterpolationExpressions] (an opening brace and a dollar sign, a
    body without closing brace, a closing brace): outside a span, or inside
    the body of a span opened at [openedAt]. *)
Inductive ScanMode :=
| Outside
| InBody (openedAt : nat) (body : jsstring).

(** The successive matches of that expression with the global flag, left
    to right: a span opens at an opening brace followed by a dollar sign,
    its body runs to the first closing brace; an unclosed span is no
    match. *)
Fixpoint scanInterpolations (s : jsstring) (pos : nat) (mode : ScanMode)
  : list InterpolationExpression :=
  match s with
  | [] => []
  | c :: s' =>
      match mode with
      | InBody o body =>
          if N.eqb c 0x7D
          then {| start := o; end_ := S pos; expression := body |}
                 :: scanInterpolations s' (S pos) Outside
          else scanInterpolations s' (S pos) (InBody o (body ++ [c]))
      | Outside =>
          match s' with
          | d :: s'' =>
              if N.eqb c 0x7B && N.eqb d 0x24
              then scanInterpolations s'' (S (S pos)) (InBody pos [])
              else scanInterpolations s' (S pos) Outside
          | [] => []
          end
      end
  end.

Definition parseInterpolationExpressions (template : jsstring)
  : list InterpolationExpression :=
  scanInterpolations template 0 Outside.

(** The test "only ASCII letters, at least one". *)
Definition allAsciiLetters (s : jsstring) : bool :=
  match s with
  | [] => false
  | _ => forallb isAsciiLetter s
  end.

(** The test "contains a unit in U+4E00..U+9FA5". *)
Definition containsCJK (s : jsstring) : bool := existsb isCJK s.

(** The test "starts with an underscore". *)
Definition startsWithUnderscore (s : jsstring) : bool :=
  match s with
  | c :: _ => N.eqb c 0x5F
  | [] => false
  end.

(** ['arsd'.includes(firstChar)] for a one-unit [firstChar]. *)
Definition isPrefixLetter (firstChar : jsstring) : bool :=
  existsb (jsstring_eqb firstChar) [str "a"; str "r"; str "s"; str "d"].

Definition isSpecialVariableExpression (expression : jsstring) : bool :=
  if (length expression <? 2)%nat then false
  else
    let firstChar := charAt expression 0 in
    if negb (isPrefixLetter firstChar) then false
    else
      let restOfExpression := substring_from expression 1 in
      if allAsciiLetters restOfExpression then false
      else containsCJK restOfExpression
           || startsWithUnderscore restOfExpression.

(** The three evaluators return what [TypeConverter.toString] returned:
    a payload. *)
Definition evaluateSpecialVariable (expression : jsstring)
  (context : ExecutionContextData) : Payload :=
  let prefix := charAt expression 0 in
  let variableName := substring_from expression 1 in
  match variableName with
  | [] => JSString []
  | _ =>
      match getSpecialVariable prefix variableName context with
      | Normal value => TypeConverter.toString value
      | Abrupt _ => JSString []
      end
  end.

Definition evaluateNormalVariable (expression : jsstring)
  (context : ExecutionContextData) : Payload :=
  TypeConverter.toString (getVariable expression context).

Definition evaluateExpression (expression : jsstring)
  (context : ExecutionContextData) : Payload :=
  let trimmedExpr := trim expression in
  match trimmedExpr with
  | [] => JSString []
  | _ =>
      if isSpecialVariableExpression trimmedExpr
      then evaluateSpecialVariable trimmedExpr context
      else evaluateNormalVariable trimmedExpr context
  end.

(** Replacement goes from the last span to the first, cutting the current
    text at the offsets found in the original template; the value sits
    between two strings, so [+] concatenates its text. *)
Definition interpolate (template : jsstring) (context : ExecutionContextData)
  : jsstring :=
  match template with
  | [] => []
  | _ =>
      let expressions := parseInterpolationExpressions template in
      fold_left
        (fun result expr =>
           let value := evaluateExpression (expression expr) context in
           substring result 0 (start expr) ++ toText value ++
           substring_from result (end_ expr))
        (rev expressions) template
  end.

(** The test of [hasInterpolation] uses the expression of
    [parseInterpolationExpressions] without its capture group. *)
Definition hasInterpolation (template : jsstring) : bool :=
  match parseInterpolationExpressions template with
  | [] => false
  | _ :: _ => true
  end.

Definition getInterpolationVariables (template : jsstring)
  : list jsstring :=
  map expression (parseInterpolationExpressions template).

(** [escapeInterpolation]: a backslash before every opening brace followed
    by a dollar sign, then a backslash before every closing brace. *)
Definition escapeInterpolation (template : jsstring) : jsstring :=
  replaceAll1 0x7D [0x5C; 0x7D]%N
    (replaceAll2 0x7B 0x24 [0x5C; 0x7B; 0x24]%N template).

(** [unescapeInterpolation]: the two replacements in the same order. *)
Definition unescapeInterpolation (template : jsstring) : jsstring :=
  replaceAll2 0x5C 0x7D [0x7D%N]
    (replaceAll3 0x5C 0x7B 0x24 [0x7B; 0x24]%N template).

End WithHost.
End StringInterpolator.

(* ================================================================== *)
(** ** DiceCalculator (src/utils/DiceCalculator.ts) *)
(* ================================================================== *)

Module DiceCalculator.
Section WithHost.
Context {host : Host}.

Definition MAX_DICE_COUNT : float := 1000%float.
Definition MAX_DICE_SIDES : float := 10000%float.

Definition float_of_nat (n : nat) : float :=
  PrimFloat.of_uint63 (Uint63.of_Z (Z.of_nat n)).

Definition validateDiceExpression (count sides : float) : bool :=
  if negb (numberIsInteger count) || negb (numberIsInteger sides) then false
  else if PrimFloat.leb count 0%float || PrimFloat.leb sides 0%float
  then false
  else if PrimFloat.ltb MAX_DICE_COUNT count
          || PrimFloat.ltb MAX_DICE_SIDES sides
  then false
  else true.

(** The loop [for (i = 0; i < count; i++) total += floor(random() * sides) + 1]
    on the stream of random draws; [fuel] bounds the iterations, and the
    validated [count] never exceeds [MAX_DICE_COUNT]. *)
Fixpoint rollLoop (fuel i : nat) (count sides total : float)
  : M nat float :=
  match fuel with
  | O => ret total
  | S fuel' =>
      if PrimFloat.ltb (float_of_nat i) count then
        let* draws := get in
        modify S ;;
        rollLoop fuel' (S i) count sides
          (PrimFloat.add total
             (PrimFloat.add
                (mathFloor (PrimFloat.mul (mathRandom draws) sides))
                1%float))
      else ret total
  end.

Definition calculate (count sides : float) : M nat float :=
  if negb (validateDiceExpression count sides) then
    throw (ThrownError (str "Invalid dice expression: " ++
                        numberToString count ++ str "d" ++
                        numberToString sides))
  else rollLoop 1000 0 count sides 0%float.

Fixpoint spanDigits (s : jsstring) : jsstring * jsstring :=
  match s with
  | c :: s' =>
      if isDigit c
      then let (ds, r) := spanDigits s' in (c :: ds, r)
      else ([], s)
  | [] => ([], [])
  end.

(** The match of [parseDiceExpression] on the trimmed, lower-cased text:
    digits, the letter d, digits.  Lower-casing only matters for the
    separator, the one unit besides digits. *)
Definition matchDice (expression : jsstring)
  : option (jsstring * jsstring) :=
  let (countText, r) := spanDigits (trim expression) in
  match countText, r with
  | _ :: _, c :: r' =>
      if N.eqb c 0x64 || N.eqb c 0x44 then
        let (sidesText, r'') := spanDigits r' in
        match sidesText, r'' with
        | _ :: _, [] => Some (countText, sidesText)
        | _, _ => None
        end
      else None
  | _, _ => None
  end.

Definition parseDiceExpression (expression : jsstring)
  : Completion (float * float) :=
  match matchDice expression with
  | None =>
      Abrupt (ThrownError (str "Invalid dice expression format: " ++
                           expression))
  | Some (c, sd) => Normal (parseInt10 c, parseInt10 sd)
  end.

Definition evaluateDiceExpression (expression : jsstring)
  : M nat DicenicValue :=
  match parseDiceExpression expression with
  | Abrupt e => throw e
  | Normal (count, sides) =>
      let* result := calculate count sides in
      ret (DICE_EXPRESSION result)
  end.

Definition isDiceExpression (expression : jsstring) : bool :=
  match parseDiceExpression expression with
  | Normal (count, sides) => validateDiceExpression count sides
  | Abrupt _ => false
  end.

(** [createDiceValue]: a roll from numbers rather than from text. *)
Definition createDiceValue (count sides : float) : M nat DicenicValue :=
  let* result := calculate count sides in
  ret (DICE_EXPRESSION result).

End WithHost.
End DiceCalculator.

(* ================================================================== *)
(** ** The parse tree consumed by the interpreter (Dicenic.g4) *)
(* ================================================================== *)

Inductive Operator :=
| PLUS | MINUS | MULTIPLY | DIVIDE | MODULO
| GREATER | LESS | GREATER_EQUAL | LESS_EQUAL
| EQUAL | NOT_EQUAL.

Inductive AssignmentOperator :=
| ASSIGN | PLUS_ASSIGN | MINUS_ASSIGN | MULT_ASSIGN | DIV_ASSIGN | MOD_ASSIGN.

Inductive UnaryOperator := LOGICAL_NOT | UNARY_MINUS | UNARY_PLUS.

(** Expressions.  The pass-through levels of the grammar (a level with a
    single operand, [expression], [postfixExpression], [primaryExpression])
    are not nodes of their own.  Literal and variable nodes carry the text
    of their token; nodes whose position the interpreter reports carry
    their line and column. *)
Inductive Expression :=
| NumberLiteral (text : jsstring)
| StringLiteral (text : jsstring)
| DiceExpression (text : jsstring) (ln col : Z)
| SpecialVariable (text : jsstring)
| Identifier (text : jsstring)
| Parenthesized (e : Expression)
| AssignmentExpression (target : Expression) (op : AssignmentOperator)
    (value : Expression)
| UnaryExpression (op : UnaryOperator) (operand : Expression)
| MultiplicativeExpression (first : Expression)
    (rest : list (Operator * Expression))
| AdditiveExpression (first : Expression)
    (rest : list (Operator * Expression))
| RelationalExpression (first : Expression)
    (rest : list (Operator * Expression))
| EqualityExpression (first : Expression)
    (rest : list (Operator * Expression))
| LogicalAndExpression (first : Expression) (rest : list Expression)
| LogicalOrExpression (first : Expression) (rest : list Expression)
| TernaryExpression (condition thenE elseE : Expression).

Inductive Statement :=
| ExpressionStatement (e : Expression)
| IfStatement (condition : Expression) (thenS : Statement)
    (elseS : option Statement)
| WhileStatement (condition : Expression) (body : Statement) (ln col : Z)
| Block (statements : list Statement).

(** [program: statement* EOF] *)
Abbreviation Program := (list Statement).

(* ================================================================== *)
(** ** DicenicInterpreter (src/interpreter/DicenicInterpreter.ts) *)
(* ================================================================== *)

(** The fields of the interpreter, and the number of [Math.random] calls
    made so far. *)
Record Interpreter := {
  context : ExecutionContextData;
  lastValue : DicenicValue;
  errorHandler : ErrorHandler;
  randomDraws : nat
}.

Definition setContext (c : ExecutionContextData) (i : Interpreter)
  : Interpreter :=
  {| context := c; lastValue := lastValue i;
     errorHandler := errorHandler i; randomDraws := randomDraws i |}.

Definition setLastValue (v : DicenicValue) (i : Interpreter) : Interpreter :=
  {| context := context i; lastValue := v;
     errorHandler := errorHandler i; randomDraws := randomDraws i |}.

Definition setErrorHandler (h : ErrorHandler) (i : Interpreter)
  : Interpreter :=
  {| context := context i; lastValue := lastValue i;
     errorHandler := h; randomDraws := randomDraws i |}.

Definition setRandomDraws (n : nat) (i : Interpreter) : Interpreter :=
  {| context := context i; lastValue := lastValue i;
     errorHandler := errorHandler i; randomDraws := n |}.

(** A call on [this.errorHandler]. *)
Definition onErrorHandler {A} (m : M ErrorHandler A) : M Interpreter A :=
  zoom errorHandler setErrorHandler m.

(** A call that consumes random draws. *)
Definition onRandom {A} (m : M nat A) : M Interpreter A :=
  zoom randomDraws setRandomDraws m.

(** A throwing read of [this.context]. *)
Definition readContext {A} (f : ExecutionContextData -> Completion A)
  : M Interpreter A :=
  fun i => match f (context i) with
           | Normal a => Ok a i
           | Abrupt e => Throw e i
           end.

Abbreviation Visit := (M Interpreter DicenicValue).

Module DicenicInterpreter.
Import ExecutionContext.
Section WithHost.
Context {host : Host}.

Definition maxLoopCount : nat := Z.to_nat 10000.

(** [v.type === STRING && isNaN(parseFloat(v.value))] *)
Definition isNonNumericString (v : DicenicValue) : bool :=
  match type v with
  | TSTRING => isNaN (parseFloat (toText (value v)))
  | _ => false
  end.

(** The [TypeError] of a call to a member that does not exist. *)
Definition addPublicWarningIsNotAFunction : Thrown :=
  ThrownError (str "this.errorHandler.addPublicWarning is not a function").

(** The call [this.errorHandler.addPublicWarning(warning)].  The class
    [ErrorHandler] (src/errors/ErrorHandler.ts) has no member of that
    name, only the private [addWarning]: the call throws and records
    nothing. *)
Definition callAddPublicWarning (warning : jsstring) : M Interpreter unit :=
  throw addPublicWarningIsNotAFunction.

Definition performArithmeticOperation (left right : DicenicValue)
  (operator : Operator) : Visit :=
  let concatenates :=
    match operator with
    | PLUS => isNonNumericString left || isNonNumericString right
    | _ => false
    end in
  if concatenates then
    let leftStr := TypeConverter.toString left in
    let rightStr := TypeConverter.toString right in
    ret {| type := TSTRING; value := jsAdd leftStr rightStr |}
  else
    let leftNum := TypeConverter.toNumber left in
    let rightNum := TypeConverter.toNumber right in
    let* result :=
      match operator with
      | PLUS => ret (PrimFloat.add leftNum rightNum)
      | MINUS => ret (PrimFloat.sub leftNum rightNum)
      | MULTIPLY => ret (PrimFloat.mul leftNum rightNum)
      | DIVIDE =>
          if num_eq rightNum 0%float then
            callAddPublicWarning (str "Division by zero, returning 0") ;;
            ret 0%float
          else ret (PrimFloat.div leftNum rightNum)
      | MODULO =>
          if num_eq rightNum 0%float then
            callAddPublicWarning (str "Modulo by zero, returning 0") ;;
            ret 0%float
          else ret (numberRemainder leftNum rightNum)
      | _ => ret 0%float
      end in
    ret (NUMBER result).

Definition boolNumber (b : bool) : DicenicValue :=
  NUMBER (if b then 1%float else 0%float).

Definition performComparisonOperation (left right : DicenicValue)
  (operator : Operator) : DicenicValue :=
  let result :=
    match operator with
    | EQUAL | NOT_EQUAL =>
        let eq :=
          if VariableType_eqb (type left) (type right)
          then strictEquals (value left) (value right)
          else strictEquals (TypeConverter.toString left)
                            (TypeConverter.toString right) in
        match operator with NOT_EQUAL => negb eq | _ => eq end
    | _ =>
        let leftNum := TypeConverter.toNumber left in
        let rightNum := TypeConverter.toNumber right in
        match operator with
        | GREATER => PrimFloat.ltb rightNum leftNum
        | LESS => PrimFloat.ltb leftNum rightNum
        | GREATER_EQUAL => PrimFloat.leb rightNum leftNum
        | LESS_EQUAL => PrimFloat.leb leftNum rightNum
        | _ => false
        end
    end in
  boolNumber result.

Definition visitNumberLiteral (text : jsstring) : Visit :=
  let value := parseFloat text in
  ret (NUMBER (if isNaN value then 0%float else value)).

(** [text.slice(1, -1)] *)
Definition sliceInner (text : jsstring) : jsstring :=
  firstn (length text - 2) (skipn 1 text).

Definition unescape (text : jsstring) : jsstring :=
  replaceAll2 0x5C 0x72 [0x0D%N]
    (replaceAll2 0x5C 0x74 [0x09%N]
       (replaceAll2 0x5C 0x6E [0x0A%N]
          (replaceAll2 0x5C 0x5C [0x5C%N]
             (replaceAll2 0x5C 0x27 [0x27%N]
                (replaceAll2 0x5C 0x22 [0x22%N] text))))).

Definition visitStringLiteral (text : jsstring) : Visit :=
  let text1 :=
    if (startsWith text [0x22%N] && endsWith text [0x22%N])
       || (startsWith text [0x27%N] && endsWith text [0x27%N])
    then sliceInner text else text in
  let text2 := unescape text1 in
  let* i := get in
  let text3 :=
    if StringInterpolator.hasInterpolation text2
    then StringInterpolator.interpolate text2 (context i)
    else text2 in
  ret (STRING text3).

Definition visitIdentifier (text : jsstring) : Visit :=
  let* i := get in
  ret (getVariable text (context i)).

(** The test [text.startsWith('$') && text.length > 2]. *)
Definition wellFormedSpecial (text : jsstring) : bool :=
  startsWith text [0x24%N] && (2 <? length text)%nat.

Definition visitSpecialVariable (text : jsstring) : Visit :=
  if wellFormedSpecial text then
    let prefix := charAt text 1 in
    let name := substring_from text 2 in
    readContext (getSpecialVariable prefix name)
  else ret (NUMBER 0%float).

Definition visitDiceExpression (text : jsstring) (ln col : Z) : Visit :=
  tryCatch
    (onRandom (DiceCalculator.evaluateDiceExpression text))
    (fun error =>
       let errorMessage := thrown_message error in
       let* result :=
         onErrorHandler
           (handleDiceError
              (str "Failed to evaluate dice expression: " ++ errorMessage)
              text ln col) in
       ret (match result with
            | Some v => v
            | None => NUMBER 0%float
            end)).

(** The fold of [visitAdditiveExpression] over the operands after the
    first: the operand is visited, then the operator is compared with the
    two the level knows. *)
Fixpoint additiveLoop (rest : list (Operator * Visit))
  (result : DicenicValue) : Visit :=
  match rest with
  | [] => ret result
  | (operator, operand) :: rest' =>
      let* rightOperand := operand in
      let* result' :=
        match operator with
        | PLUS => performArithmeticOperation result rightOperand PLUS
        | MINUS => performArithmeticOperation result rightOperand MINUS
        | _ => ret result
        end in
      additiveLoop rest' result'
  end.

Fixpoint multiplicativeLoop (rest : list (Operator * Visit))
  (result : DicenicValue) : Visit :=
  match rest with
  | [] => ret result
  | (operator, operand) :: rest' =>
      let* rightOperand := operand in
      let* result' :=
        match operator with
        | MULTIPLY => performArithmeticOperation result rightOperand MULTIPLY
        | DIVIDE => performArithmeticOperation result rightOperand DIVIDE
        | MODULO => performArithmeticOperation result rightOperand MODULO
        | _ => ret result
        end in
      multiplicativeLoop rest' result'
  end.

Fixpoint relationalLoop (rest : list (Operator * Visit))
  (result : DicenicValue) : Visit :=
  match rest with
  | [] => ret result
  | (operator, operand) :: rest' =>
      let* rightOperand := operand in
      relationalLoop rest'
        match operator with
        | GREATER | LESS | GREATER_EQUAL | LESS_EQUAL =>
            performComparisonOperation result rightOperand operator
        | _ => result
        end
  end.

Fixpoint equalityLoop (rest : list (Operator * Visit))
  (result : DicenicValue) : Visit :=
  match rest with
  | [] => ret result
  | (operator, operand) :: rest' =>
      let* rightOperand := operand in
      equalityLoop rest'
        match operator with
        | EQUAL | NOT_EQUAL =>
            performComparisonOperation result rightOperand operator
        | _ => result
        end
  end.

(** The loop of [visitLogicalOrExpression] over the operands after the
    first; [result] is the loop variable of the source. *)
Fixpoint logicalOrLoop (rest : list Visit) (result : DicenicValue) : Visit :=
  match rest with
  | [] => ret result
  | operand :: rest' =>
      if TypeConverter.toBoolean result then ret (NUMBER 1%float)
      else
        let* rightOperand := operand in
        let leftBool := TypeConverter.toBoolean result in
        let rightBool := TypeConverter.toBoolean rightOperand in
        logicalOrLoop rest' (boolNumber (leftBool || rightBool))
  end.

Fixpoint logicalAndLoop (rest : list Visit) (result : DicenicValue) : Visit :=
  match rest with
  | [] => ret result
  | operand :: rest' =>
      if negb (TypeConverter.toBoolean result) then ret (NUMBER 0%float)
      else
        let* rightOperand := operand in
        let leftBool := TypeConverter.toBoolean result in
        let rightBool := TypeConverter.toBoolean rightOperand in
        logicalAndLoop rest' (boolNumber (leftBool && rightBool))
  end.

Definition visitLogicalOrExpression (first : Visit) (rest : list Visit)
  : Visit :=
  let* result := first in logicalOrLoop rest result.

Definition visitLogicalAndExpression (first : Visit) (rest : list Visit)
  : Visit :=
  let* result := first in logicalAndLoop rest result.

Definition visitTernaryExpression (condition thenE elseE : Visit) : Visit :=
  let* c := condition in
  if TypeConverter.toBoolean c then thenE else elseE.

Definition visitUnaryExpression (op : UnaryOperator) (operand : Visit)
  : Visit :=
  let* v := operand in
  match op with
  | LOGICAL_NOT =>
      ret (NUMBER (if TypeConverter.toBoolean v then 0%float else 1%float))
  | UNARY_MINUS => ret (NUMBER (PrimFloat.opp (TypeConverter.toNumber v)))
  | UNARY_PLUS => ret (NUMBER (TypeConverter.toNumber v))
  end.

Definition invalidLeftHandSide : Thrown :=
  ThrownError (str "Invalid left-hand side in assignment").

(** The first half of [performAssignment]: the value to store. *)
Definition assignmentValue (leftExpression : Expression)
  (rightValue : DicenicValue) (operator : AssignmentOperator) : Visit :=
  match operator with
  | ASSIGN => ret rightValue
  | _ =>
      let* currentValue :=
        match leftExpression with
        | Identifier varName =>
            let* i := get in ret (getVariable varName (context i))
        | SpecialVariable text =>
            if wellFormedSpecial text then
              readContext
                (getSpecialVariable (charAt text 1) (substring_from text 2))
            else ret (NUMBER 0%float)
        | _ => throw invalidLeftHandSide
        end in
      match operator with
      | PLUS_ASSIGN => performArithmeticOperation currentValue rightValue PLUS
      | MINUS_ASSIGN =>
          performArithmeticOperation currentValue rightValue MINUS
      | MULT_ASSIGN =>
          performArithmeticOperation currentValue rightValue MULTIPLY
      | DIV_ASSIGN =>
          performArithmeticOperation currentValue rightValue DIVIDE
      | MOD_ASSIGN =>
          performArithmeticOperation currentValue rightValue MODULO
      | ASSIGN => ret rightValue
      end
  end.

(** The second half of [performAssignment]: the store. *)
Definition storeAssignment (leftExpression : Expression)
  (finalValue : DicenicValue) : Visit :=
  match leftExpression with
  | Identifier varName =>
      modify (fun i => setContext (setVariable varName finalValue (context i)) i) ;;
      ret finalValue
  | SpecialVariable text =>
      if wellFormedSpecial text then
        let prefix := charAt text 1 in
        let name := substring_from text 2 in
        if negb (canWriteSpecialVariable prefix) then
          onErrorHandler
            (handleVariableAccessError
               (str "Cannot write to read-only variable: " ++ text)
               text WriteAccess (-1) (-1)) ;;
          ret finalValue
        else
          let* i := get in
          match setSpecialVariable prefix name finalValue (context i) with
          | Normal c => modify (setContext c) ;; ret finalValue
          | Abrupt error =>
              onErrorHandler
                (handleVariableAccessError (thrown_message error)
                   text WriteAccess (-1) (-1)) ;;
              ret finalValue
          end
      else throw (ThrownError (str "Invalid special variable format: " ++ text))
  | _ => throw invalidLeftHandSide
  end.

Definition performAssignment (leftExpression : Expression)
  (rightValue : DicenicValue) (operator : AssignmentOperator) : Visit :=
  let* finalValue := assignmentValue leftExpression rightValue operator in
  storeAssignment leftExpression finalValue.

Definition visitAssignmentExpression (leftExpression : Expression)
  (operator : AssignmentOperator) (rightExpression : Visit) : Visit :=
  let* rightValue := rightExpression in
  performAssignment leftExpression rightValue operator.

(** [visit] on an expression node: dispatch on the node kind. *)
Fixpoint visitExpression (e : Expression) : Visit :=
  match e with
  | NumberLiteral text => visitNumberLiteral text
  | StringLiteral text => visitStringLiteral text
  | DiceExpression text ln col => visitDiceExpression text ln col
  | SpecialVariable text => visitSpecialVariable text
  | Identifier text => visitIdentifier text
  | Parenthesized e' => visitExpression e'
  | AssignmentExpression target op value =>
      visitAssignmentExpression target op (visitExpression value)
  | UnaryExpression op operand =>
      visitUnaryExpression op (visitExpression operand)
  | MultiplicativeExpression first rest =>
      let* result := visitExpression first in
      multiplicativeLoop
        (map (fun p => match p with (o, x) => (o, visitExpression x) end) rest)
        result
  | AdditiveExpression first rest =>
      let* result := visitExpression first in
      additiveLoop
        (map (fun p => match p with (o, x) => (o, visitExpression x) end) rest)
        result
  | RelationalExpression first rest =>
      let* result := visitExpression first in
      relationalLoop
        (map (fun p => match p with (o, x) => (o, visitExpression x) end) rest)
        result
  | EqualityExpression first rest =>
      let* result := visitExpression first in
      equalityLoop
        (map (fun p => match p with (o, x) => (o, visitExpression x) end) rest)
        result
  | LogicalAndExpression first rest =>
      visitLogicalAndExpression (visitExpression first)
        (map visitExpression rest)
  | LogicalOrExpression first rest =>
      visitLogicalOrExpression (visitExpression first)
        (map visitExpression rest)
  | TernaryExpression c t f =>
      visitTernaryExpression (visitExpression c) (visitExpression t)
        (visitExpression f)
  end.

(** The loop shared by [visitProgram] and [visitBlock]: each statement's
    value becomes [lastValue]. *)
Fixpoint statementsLoop (statements : list Visit) (result : DicenicValue)
  : Visit :=
  match statements with
  | [] => ret result
  | statement :: rest =>
      let* r := statement in
      modify (setLastValue r) ;;
      statementsLoop rest r
  end.

Definition visitBlock (statements : list Visit) : Visit :=
  statementsLoop statements (NUMBER 0%float).

Definition visitProgram (children : list Visit) : Visit :=
  statementsLoop children (NUMBER 0%float).

Definition visitIfStatement (conditionExpression thenS : Visit)
  (elseS : option Visit) : Visit :=
  let* conditionValue := conditionExpression in
  if TypeConverter.toBoolean conditionValue then thenS
  else
    match elseS with
    | Some statement => statement
    | None => ret (NUMBER 0%float)
    end.

Definition loopMessage : jsstring :=
  str "While loop exceeded maximum iteration count, terminating to prevent infinite loop".

(** The loop of [visitWhileStatement]; [remaining] is
    [maxLoopCount - loopCount].  Leaving with [remaining = 0] is leaving
    with [loopCount >= maxLoopCount]. *)
Fixpoint whileLoop (remaining : nat) (conditionExpression bodyStatement : Visit)
  (ln col : Z) (result : DicenicValue) : Visit :=
  match remaining with
  | O =>
      onErrorHandler
        (handleLoopError loopMessage (str "while")
           (Some (Z.of_nat maxLoopCount)) ln col) ;;
      ret result
  | S remaining' =>
      let* conditionValue := conditionExpression in
      if negb (TypeConverter.toBoolean conditionValue) then ret result
      else
        let* r := bodyStatement in
        modify (setLastValue r) ;;
        whileLoop remaining' conditionExpression bodyStatement ln col r
  end.

Definition visitWhileStatement (conditionExpression bodyStatement : Visit)
  (ln col : Z) : Visit :=
  whileLoop maxLoopCount conditionExpression bodyStatement ln col
    (NUMBER 0%float).

(** [visit] on a statement node. *)
Fixpoint visitStatement (s : Statement) : Visit :=
  match s with
  | ExpressionStatement e => visitExpression e
  | IfStatement c t f =>
      visitIfStatement (visitExpression c) (visitStatement t)
        match f with
        | Some f' => Some (visitStatement f')
        | None => None
        end
  | WhileStatement c b ln col =>
      visitWhileStatement (visitExpression c) (visitStatement b) ln col
  | Block statements => visitBlock (map visitStatement statements)
  end.

Definition interpret (parseTree : Program)
  : M Interpreter Payload :=
  modify (setLastValue (NUMBER 0%float)) ;;
  visitProgram (map visitStatement parseTree) ;;
  let* i := get in
  ret (TypeConverter.toString (lastValue i)).

Definition newInterpreter (c : ExecutionContextData) (h : ErrorHandler)
  : Interpreter :=
  {| context := c; lastValue := NUMBER 0%float; errorHandler := h;
     randomDraws := 0 |}.

End WithHost.
End DicenicInterpreter.

(* ================================================================== *)
(** ** The entry point (src/index.ts) *)
(* ================================================================== *)

Module Script.

(** [result] is what [interpret] returned, whatever it is. *)
Record ScriptResult := {
  result : Payload;
  errors : list jsstring;
  warnings : list jsstring;
  success : bool
}.

End Script.

(** [Partial<ErrorHandlerConfig>] *)
Record PartialErrorHandlerConfig := {
  enableRecovery_opt : option bool;
  logWarnings_opt : option bool;
  maxErrors_opt : option Z;
  useDefaultOnTypeError_opt : option bool
}.

(** [Partial<ExecutionContextData>] *)
Record PartialExecutionContextData := {
  attributes_opt : option (gmap jsstring DicenicValue);
  roleInfo_opt : option (gmap jsstring DicenicValue);
  systemInfo_opt : option (gmap jsstring DicenicValue);
  diceInfo_opt : option (gmap jsstring DicenicValue);
  variables_opt : option (gmap jsstring DicenicValue)
}.

Record ScriptOptions := {
  context_opt : option PartialExecutionContextData;
  errorConfig_opt : option PartialErrorHandlerConfig;
  enableErrorRecovery_opt : option bool
}.

(** What [parseScript] hands to [executeScript]; the generated parser is
    outside the model. *)
Record ParseOutcome := {
  tree : Program;
  hasErrors : bool
}.

(** [{ ...DEFAULT_ERROR_CONFIG, ...config }] *)
Definition mergeConfig (d : ErrorHandlerConfig)
  (p : option PartialErrorHandlerConfig) : ErrorHandlerConfig :=
  match p with
  | None => d
  | Some p =>
      {| enableRecovery := default (enableRecovery d) (enableRecovery_opt p);
         logWarnings := default (logWarnings d) (logWarnings_opt p);
         maxErrors := default (maxErrors d) (maxErrors_opt p);
         useDefaultOnTypeError :=
           default (useDefaultOnTypeError d) (useDefaultOnTypeError_opt p) |}
  end.

(** The constructor of [ExecutionContext]. *)
Definition createExecutionContext (data : option PartialExecutionContextData)
  : ExecutionContextData :=
  {| attributes := default ∅ (data ≫= attributes_opt);
     roleInfo := default ∅ (data ≫= roleInfo_opt);
     systemInfo := default ∅ (data ≫= systemInfo_opt);
     diceInfo := default ∅ (data ≫= diceInfo_opt);
     variables := default ∅ (data ≫= variables_opt) |}.

Definition createErrorHandler (c : option PartialErrorHandlerConfig)
  : ErrorHandler :=
  newErrorHandler (mergeConfig DEFAULT_ERROR_CONFIG c).

Section WithHost.
Context {host : Host}.

(** The body of the [try] block of [executeScript]. *)
Definition executeScriptBody (parsed : ParseOutcome) (options : ScriptOptions)
  : Completion Script.ScriptResult :=
  let ctx := createExecutionContext (context_opt options) in
  let handler := createErrorHandler (errorConfig_opt options) in
  if hasErrors parsed then
    Normal {| Script.result := JSString [];
              Script.errors := [str "Syntax error in script"];
              Script.warnings := [];
              Script.success := false |}
  else
    let interpreter := DicenicInterpreter.newInterpreter ctx handler in
    match DicenicInterpreter.interpret (tree parsed) interpreter with
    | Throw error _ => Abrupt error
    | Ok result i =>
        let errors := map getFormattedMessage (getErrors (errorHandler i)) in
        Normal {| Script.result := result;
                  Script.errors := errors;
                  Script.warnings := getWarnings (errorHandler i);
                  Script.success := (length errors =? 0)%nat |}
    end.

(** [executeScript]: the [try] block and its [catch]. *)
Definition executeScript (parsed : ParseOutcome) (options : ScriptOptions)
  : Completion Script.ScriptResult :=
  match executeScriptBody parsed options with
  | Normal r => Normal r
  | Abrupt error =>
      Normal {| Script.result := JSString [];
                Script.errors := [thrown_message error];
                Script.warnings := [];
                Script.success := false |}
  end.

End WithHost.

(* ================================================================== *)
(** ** A reference host, for running the model on concrete scripts *)
(* ================================================================== *)

(** The general theorems below hold for every [Host].  Concrete runs use
    this instance.  It computes what ECMAScript computes on the arguments
    met in the examples: decimal literals without exponent whose digits
    form an integer below 2^53, the rendering of integral numbers, of NaN
    and of the infinities, the exact remainder, [Number.isInteger] and
    [Math.floor].  A non-integral number is rendered by its exact decimal
    expansion, and every random draw is one half. *)
Module ReferenceHost.

Definition float_of_Z (z : Z) : float :=
  SF2Prim (binary_normalize prec emax z 0 false).

Definition digitsValue (ds : jsstring) : Z :=
  fold_left (fun acc c => 10 * acc + (Z.of_N c - 48)) ds 0.

Definition parseInt10 (s : jsstring) : float :=
  match fst (DiceCalculator.spanDigits (trimStart s)) with
  | [] => nan
  | ds => float_of_Z (digitsValue ds)
  end.

Definition parseFloat (s : jsstring) : float :=
  let s1 := trimStart s in
  let (negative, s2) :=
    match s1 with
    | 0x2D%N :: r => (true, r)
    | 0x2B%N :: r => (false, r)
    | _ => (false, s1)
    end in
  let magnitude :=
    if startsWith s2 (str "Infinity") then infinity
    else
      let (ip, r) := DiceCalculator.spanDigits s2 in
      let fp :=
        match r with
        | 0x2E%N :: r' => fst (DiceCalculator.spanDigits r')
        | _ => []
        end in
      match ip ++ fp with
      | [] => nan
      | ds =>
          PrimFloat.div (float_of_Z (digitsValue ds))
                        (float_of_Z (10 ^ Z.of_nat (length fp)))
      end in
  if negative then PrimFloat.opp magnitude else magnitude.

Fixpoint dropZeros (s : jsstring) : jsstring :=
  match s with
  | c :: s' => if N.eqb c 0x30 then dropZeros s' else s
  | [] => []
  end.

(** The exact value [m * 2^e] in decimal. *)
Definition decimalExpansion (m : positive) (e : Z) : jsstring :=
  if 0 <=? e then Z_to_jsstring (Z.pos m * 2 ^ e)
  else
    let k := Z.to_nat (- e) in
    let scaled := Z.pos m * 5 ^ (- e) in
    let ip := scaled / 10 ^ (- e) in
    let fp := scaled mod 10 ^ (- e) in
    if fp =? 0 then Z_to_jsstring ip
    else
      let fdigits := Z_to_jsstring fp in
      let padded := repeat 0x30%N (k - length fdigits) ++ fdigits in
      let trimmed := rev (dropZeros (rev padded)) in
      Z_to_jsstring ip ++ [0x2E%N] ++ trimmed.

Definition numberToString (x : float) : jsstring :=
  match Prim2SF x with
  | S754_nan => str "NaN"
  | S754_infinity false => str "Infinity"
  | S754_infinity true => str "-Infinity"
  | S754_zero _ => str "0"
  | S754_finite sign m e =>
      (if sign then [0x2D%N] else []) ++ decimalExpansion m e
  end.

Definition numberIsInteger (x : float) : bool :=
  match Prim2SF x with
  | S754_zero _ => true
  | S754_finite _ m e => (0 <=? e) || (Z.pos m mod 2 ^ (- e) =? 0)
  | _ => false
  end.

Definition mathFloor (x : float) : float :=
  match Prim2SF x with
  | S754_finite sign m e =>
      if 0 <=? e then x
      else
        let z := if sign then Z.neg m else Z.pos m in
        SF2Prim (binary_normalize prec emax (z / 2 ^ (- e)) 0 sign)
  | _ => x
  end.

(** The remainder of the truncating division, which is exact. *)
Definition numberRemainder (x y : float) : float :=
  match Prim2SF x, Prim2SF y with
  | S754_nan, _ | _, S754_nan => nan
  | S754_infinity _, _ => nan
  | _, S754_zero _ => nan
  | _, S754_infinity _ => x
  | S754_zero _, _ => x
  | S754_finite sx mx ex, S754_finite _ my ey =>
      let e0 := Z.min ex ey in
      let a := Z.pos mx * 2 ^ (ex - e0) in
      let b := Z.pos my * 2 ^ (ey - e0) in
      let r := a mod b in
      SF2Prim (binary_normalize prec emax (if sx then - r else r) e0 sx)
  end.

#[export] Instance host : Host :=
  Build_Host parseFloat parseInt10 numberToString numberRemainder
    numberIsInteger mathFloor (fun _ => 0.5%float).

End ReferenceHost.

(* ================================================================== *)
(** * Vocabulary of the statements *)
(* ================================================================== *)

Import ExecutionContext DicenicInterpreter StringInterpolator.

(** ** The error ceiling *)

(** The recorded errors are within the configured ceiling. *)
Definition withinLimit (h : ErrorHandler) : Prop :=
  Z.of_nat (length (errors h)) <= maxErrors (config h).

(** The recorded errors exceed the ceiling by at most the one error whose
    recording raised. *)
Definition overByOne (h : ErrorHandler) : Prop :=
  Z.of_nat (length (errors h)) <= maxErrors (config h) + 1.

(** A handler call keeps the errors within the ceiling when it returns,
    and leaves at most one error too many when it throws. *)
Definition respectsCeiling {A} (m : M ErrorHandler A) : Prop :=
  forall h, withinLimit h ->
    match m h with
    | Ok _ h' => withinLimit h'
    | Throw _ h' => overByOne h'
    end.

(** The same contract for a step of the interpreter. *)
Definition keepsCeiling {A} (m : M Interpreter A) : Prop :=
  forall i, withinLimit (errorHandler i) ->
    match m i with
    | Ok _ i' => withinLimit (errorHandler i')
    | Throw _ i' => overByOne (errorHandler i')
    end.

(** The handler after one more recorded error. *)
Definition recordError (error : DicenicError) (h : ErrorHandler)
  : ErrorHandler :=
  {| config := config h; errors := errors h ++ [error];
     warnings := warnings h |}.

(** The handler after one more recorded warning. *)
Definition recordWarning (w : jsstring) (h : ErrorHandler) : ErrorHandler :=
  {| config := config h; errors := errors h; warnings := warnings h ++ [w] |}.

(** ** Frames *)

(** A step that leaves [lastValue] as it found it, whether it returns or
    throws. *)
Definition keepsLastValue {A} (m : M Interpreter A) : Prop :=
  forall i, lastValue (final_state (m i)) = lastValue i.

(** ** Running a script *)

(** A handler with the default configuration except for the two settings
    given. *)
Definition handlerWith (recovery : bool) (ceiling : Z) : ErrorHandler :=
  newErrorHandler
    {| enableRecovery := recovery; logWarnings := true;
       maxErrors := ceiling; useDefaultOnTypeError := true |}.

Definition emptyContext : ExecutionContextData :=
  createExecutionContext None.

Definition initialInterpreter (options : ScriptOptions) : Interpreter :=
  newInterpreter (createExecutionContext (context_opt options))
    (createErrorHandler (errorConfig_opt options)).

Definition defaultOptions : ScriptOptions :=
  {| context_opt := None; errorConfig_opt := None;
     enableErrorRecovery_opt := None |}.

(** Options that only disable recovery. *)
Definition recoveryDisabled : ScriptOptions :=
  {| context_opt := None;
     errorConfig_opt :=
       Some {| enableRecovery_opt := Some false; logWarnings_opt := None;
               maxErrors_opt := None; useDefaultOnTypeError_opt := None |};
     enableErrorRecovery_opt := None |}.

(** The result record built after a run that returned. *)
Definition resultOf (text : Payload) (h : ErrorHandler)
  : Script.ScriptResult :=
  {| Script.result := text;
     Script.errors := map getFormattedMessage (errors h);
     Script.warnings := warnings h;
     Script.success :=
       (length (map getFormattedMessage (errors h)) =? 0)%nat |}.

(** The result record built by the [catch] of [executeScript]. *)
Definition failureOf (error : Thrown) : Script.ScriptResult :=
  {| Script.result := JSString [];
     Script.errors := [thrown_message error];
     Script.warnings := []; Script.success := false |}.

Definition syntaxFailure : Script.ScriptResult :=
  {| Script.result := JSString [];
     Script.errors := [str "Syntax error in script"];
     Script.warnings := []; Script.success := false |}.

(** ** Denied writes, zero divisors, invalid targets *)

(** The statement [$rname = 1]. *)
Definition deniedWrite : Statement :=
  ExpressionStatement
    (AssignmentExpression (SpecialVariable (str "$rname")) ASSIGN
       (NumberLiteral (str "1"))).

(** The statement [5 = 3]. *)
Definition fiveAssignedThree : Statement :=
  ExpressionStatement
    (AssignmentExpression (NumberLiteral (str "5")) ASSIGN
       (NumberLiteral (str "3"))).

(** The expression [5 = 3], and a script that buries it: a denied write,
    then [if (1) { while (1) { 0 || 1 + (5 = 3) } }]. *)
Definition fiveIsThree : Expression :=
  AssignmentExpression (NumberLiteral (str "5")) ASSIGN
    (NumberLiteral (str "3")).

Definition buriedAssignment : Program :=
  [ deniedWrite;
    IfStatement (NumberLiteral (str "1"))
      (Block
         [WhileStatement (NumberLiteral (str "1"))
            (Block
               [ExpressionStatement
                  (LogicalOrExpression (NumberLiteral (str "0"))
                     [AdditiveExpression (NumberLiteral (str "1"))
                        [(PLUS, Parenthesized fiveIsThree)]])])
            2 9])
      None ].

(** The error recorded by a denied write. *)
Definition writeDenied (text : jsstring) : DicenicError :=
  {| message := str "Cannot write to read-only variable: " ++ text;
     line := -1; column := -1;
     detail := VariableAccessError text WriteAccess |}.

(** A division or a modulo whose right operand reads as the number 0. *)
Definition zeroDivisor {host : Host} (operator : Operator)
  (right : DicenicValue) : bool :=
  match operator with
  | DIVIDE | MODULO => num_eq (TypeConverter.toNumber right) 0%float
  | _ => false
  end.

(** The compound assignments [/=] and [%=] whose right-hand side reads as
    the number 0. *)
Definition dividesByZero {host : Host} (operator : AssignmentOperator)
  (rightValue : DicenicValue) : bool :=
  match operator with
  | DIV_ASSIGN | MOD_ASSIGN =>
      num_eq (TypeConverter.toNumber rightValue) 0%float
  | _ => false
  end.

(** The left-hand sides [performAssignment] accepts. *)
Definition isVariableNode (e : Expression) : bool :=
  match e with
  | Identifier _ | SpecialVariable _ => true
  | _ => false
  end.

(** ** Rounds of a loop *)

(** [n] successive rounds of a loop: the condition is truthy and the body
    returns, [n] times over; the value of the last body and the state
    reached. *)
Fixpoint rounds (n : nat) (c b : Visit) (result : DicenicValue)
  (i : Interpreter) : option (DicenicValue * Interpreter) :=
  match n with
  | O => Some (result, i)
  | S n' =>
      match c i with
      | Ok cv i1 =>
          if TypeConverter.toBoolean cv then
            match b i1 with
            | Ok r i2 => rounds n' c b r (setLastValue r i2)
            | Throw _ _ => None
            end
          else None
      | Throw _ _ => None
      end
  end.

(** The warning recorded when the ceiling is reached. *)
Definition loopWarning (ln col : Z) : jsstring :=
  getFormattedMessage
    {| message := loopMessage; line := ln; column := col;
       detail := LoopError (str "while") (Some (Z.of_nat maxLoopCount)) |}.

Definition warnLoop (ln col : Z) (i : Interpreter) : Interpreter :=
  setErrorHandler (recordWarning (loopWarning ln col) (errorHandler i)) i.

(** ** Operands of a chain *)

(** The operands [es] are evaluated in turn, from state [i] to state [j],
    each to a value that satisfies [p]. *)
Inductive evaluatedAll {host : Host} (p : DicenicValue -> bool)
  : list Expression -> Interpreter -> Interpreter -> Prop :=
| evaluatedAll_nil i : evaluatedAll p [] i i
| evaluatedAll_cons e es i v i1 j :
    visitExpression e i = Ok v i1 -> p v = true ->
    evaluatedAll p es i1 j -> evaluatedAll p (e :: es) i j.

Definition falsy (v : DicenicValue) : bool := negb (TypeConverter.toBoolean v).

Definition truthy (v : DicenicValue) : bool := TypeConverter.toBoolean v.

(** The expression [(1/0)] in parentheses. *)
Definition oneOverZero : Expression :=
  Parenthesized
    (MultiplicativeExpression (NumberLiteral (str "1"))
       [(DIVIDE, NumberLiteral (str "0"))]).

(** ** Where an evaluation comes to *)

(** [reachesE e i e' i']: the evaluation of [e] started in state [i] comes
    to evaluate the expression [e'] inside it, in state [i'].  What the
    code evaluates before [e'] has returned, and the choices made on the
    way are those of the code: the branch of a conditional follows its
    condition, an operand of a logical chain is reached when no operand
    before it has short-circuited the chain. *)
Inductive reachesE {host : Host}
  : Expression -> Interpreter -> Expression -> Interpreter -> Prop :=
| reaches_here e i : reachesE e i e i
| reaches_parenthesized e i e' i' :
    reachesE e i e' i' -> reachesE (Parenthesized e) i e' i'
| reaches_right_hand_side target op value i e' i' :
    reachesE value i e' i' ->
    reachesE (AssignmentExpression target op value) i e' i'
| reaches_unary_operand op operand i e' i' :
    reachesE operand i e' i' ->
    reachesE (UnaryExpression op operand) i e' i'
| reaches_multiplicative_first first rest i e' i' :
    reachesE first i e' i' ->
    reachesE (MultiplicativeExpression first rest) i e' i'
| reaches_multiplicative_operand first pre o x post i v j e' i' :
    visitExpression (MultiplicativeExpression first pre) i = Ok v j ->
    reachesE x j e' i' ->
    reachesE (MultiplicativeExpression first (pre ++ (o, x) :: post)) i e' i'
| reaches_additive_first first rest i e' i' :
    reachesE first i e' i' ->
    reachesE (AdditiveExpression first rest) i e' i'
| reaches_additive_operand first pre o x post i v j e' i' :
    visitExpression (AdditiveExpression first pre) i = Ok v j ->
    reachesE x j e' i' ->
    reachesE (AdditiveExpression first (pre ++ (o, x) :: post)) i e' i'
| reaches_relational_first first rest i e' i' :
    reachesE first i e' i' ->
    reachesE (RelationalExpression first rest) i e' i'
| reaches_relational_operand first pre o x post i v j e' i' :
    visitExpression (RelationalExpression first pre) i = Ok v j ->
    reachesE x j e' i' ->
    reachesE (RelationalExpression first (pre ++ (o, x) :: post)) i e' i'
| reaches_equality_first first rest i e' i' :
    reachesE first i e' i' ->
    reachesE (EqualityExpression first rest) i e' i'
| reaches_equality_operand first pre o x post i v j e' i' :
    visitExpression (EqualityExpression first pre) i = Ok v j ->
    reachesE x j e' i' ->
    reachesE (EqualityExpression first (pre ++ (o, x) :: post)) i e' i'
| reaches_and_first first rest i e' i' :
    reachesE first i e' i' ->
    reachesE (LogicalAndExpression first rest) i e' i'
| reaches_and_operand first pre x post i j e' i' :
    evaluatedAll truthy (first :: pre) i j ->
    reachesE x j e' i' ->
    reachesE (LogicalAndExpression first (pre ++ x :: post)) i e' i'
| reaches_or_first first rest i e' i' :
    reachesE first i e' i' ->
    reachesE (LogicalOrExpression first rest) i e' i'
| reaches_or_operand first pre x post i j e' i' :
    evaluatedAll falsy (first :: pre) i j ->
    reachesE x j e' i' ->
    reachesE (LogicalOrExpression first (pre ++ x :: post)) i e' i'
| reaches_ternary_condition c t f i e' i' :
    reachesE c i e' i' -> reachesE (TernaryExpression c t f) i e' i'
| reaches_ternary_then c t f i cv j e' i' :
    visitExpression c i = Ok cv j -> TypeConverter.toBoolean cv = true ->
    reachesE t j e' i' -> reachesE (TernaryExpression c t f) i e' i'
| reaches_ternary_else c t f i cv j e' i' :
    visitExpression c i = Ok cv j -> TypeConverter.toBoolean cv = false ->
    reachesE f j e' i' -> reachesE (TernaryExpression c t f) i e' i'.

(** The same for a statement: the condition and the branches of an [if],
    the condition and the body of a [while] after any number of rounds
    below the ceiling, a statement of a block after those before it. *)
Inductive reachesS {host : Host}
  : Statement -> Interpreter -> Expression -> Interpreter -> Prop :=
| reaches_expression_statement e i e' i' :
    reachesE e i e' i' -> reachesS (ExpressionStatement e) i e' i'
| reaches_if_condition c t f i e' i' :
    reachesE c i e' i' -> reachesS (IfStatement c t f) i e' i'
| reaches_if_then c t f i cv j e' i' :
    visitExpression c i = Ok cv j -> TypeConverter.toBoolean cv = true ->
    reachesS t j e' i' -> reachesS (IfStatement c t f) i e' i'
| reaches_if_else c t f i cv j e' i' :
    visitExpression c i = Ok cv j -> TypeConverter.toBoolean cv = false ->
    reachesS f j e' i' -> reachesS (IfStatement c t (Some f)) i e' i'
| reaches_while_condition c b ln col k i r j e' i' :
    (k < maxLoopCount)%nat ->
    rounds k (visitExpression c) (visitStatement b) (NUMBER 0%float) i
    = Some (r, j) ->
    reachesE c j e' i' -> reachesS (WhileStatement c b ln col) i e' i'
| reaches_while_body c b ln col k i r j cv j1 e' i' :
    (k < maxLoopCount)%nat ->
    rounds k (visitExpression c) (visitStatement b) (NUMBER 0%float) i
    = Some (r, j) ->
    visitExpression c j = Ok cv j1 -> TypeConverter.toBoolean cv = true ->
    reachesS b j1 e' i' -> reachesS (WhileStatement c b ln col) i e' i'
| reaches_block_statement pre s post i r j e' i' :
    statementsLoop (map visitStatement pre) (NUMBER 0%float) i = Ok r j ->
    reachesS s j e' i' -> reachesS (Block (pre ++ s :: post)) i e' i'.

(** The same for a run of [interpret]: a statement of the program after
    those before it. *)
Inductive reachesProgram {host : Host}
  : Program -> Interpreter -> Expression -> Interpreter -> Prop :=
| reaches_program_statement pre s post i r j e' i' :
    statementsLoop (map visitStatement pre) (NUMBER 0%float)
      (setLastValue (NUMBER 0%float) i) = Ok r j ->
    reachesS s j e' i' -> reachesProgram (pre ++ s :: post) i e' i'.

(** ** Interpolation bodies *)

(** The classification as the specification words it: length at least 2,
    first unit one of a, r, s, d, remainder not made of ASCII letters
    only. *)
Definition specifiedSpecial (body : jsstring) : bool :=
  (2 <=? length body)%nat
  && isPrefixLetter (charAt body 0)
  && negb (forallb isAsciiLetter (substring_from body 1)).

(** A context whose local [ab1] is 7 and whose attribute [b1] is 9. *)
Definition contextAb1 : ExecutionContextData :=
  {| attributes := <[str "b1" := NUMBER 9%float]> ∅;
     roleInfo := ∅; systemInfo := ∅; diceInfo := ∅;
     variables := <[str "ab1" := NUMBER 7%float]> ∅ |}.

(** ** Numbers at the edge of the finite range *)

(** The largest power of two among the finite numbers. *)
Definition twoTo1023 : float := Z.ldexp 1%float 1023.

(** An interpreter whose local [x] holds that finite number. *)
Definition interpreterWithX : Interpreter :=
  newInterpreter
    {| attributes := ∅; roleInfo := ∅; systemInfo := ∅; diceInfo := ∅;
       variables := <[str "x" := NUMBER twoTo1023]> ∅ |}
    (handlerWith true 10).

Definition xTimesX : Expression :=
  MultiplicativeExpression (Identifier (str "x"))
    [(MULTIPLY, Identifier (str "x"))].

(** ** Interpolation, from left to right *)

(** One pass over a template from left to right: text outside a span is
    copied, a closed span is replaced by the value of its body, a span
    left open at the end is copied.  [body] is the body read so far when
    inside a span. *)
Fixpoint substituteSpans {host : Host} (context : ExecutionContextData)
  (s : jsstring) (body : option jsstring) : jsstring :=
  match s with
  | [] =>
      match body with
      | Some b => [0x7B; 0x24]%N ++ b
      | None => []
      end
  | c :: s' =>
      match body with
      | Some b =>
          if N.eqb c 0x7D
          then toText (evaluateExpression b context)
               ++ substituteSpans context s' None
          else substituteSpans context s' (Some (b ++ [c]))
      | None =>
          match s' with
          | d :: s'' =>
              if N.eqb c 0x7B && N.eqb d 0x24
              then substituteSpans context s'' (Some [])
              else c :: substituteSpans context s' None
          | [] => [c]
          end
      end
  end.

(** The body of the loop of [interpolate]: one span of the current text is
    replaced by its value. *)
Definition replaceSpan {host : Host} (context : ExecutionContextData)
  (result : jsstring) (expr : InterpolationExpression) : jsstring :=
  substring result 0 (start expr)
  ++ toText (evaluateExpression (expression expr) context)
  ++ substring_from result (end_ expr).

(** Whether the scanner finds a span, from a given position and mode. *)
Definition spanFound (pos : nat) (mode : ScanMode) (s : jsstring) : bool :=
  match scanInterpolations s pos mode with
  | [] => false
  | _ :: _ => true
  end.

(** A span is an occurrence in [text] of an opening brace, a dollar sign,
    the body, a closing brace; the body holds no closing brace. *)
Definition occursIn (text : jsstring) (e : InterpolationExpression) : Prop :=
  substring text (start e) (end_ e)
  = [0x7B; 0x24]%N ++ expression e ++ [0x7D%N]
  /\ forallb (fun c => negb (N.eqb c 0x7D)) (expression e) = true.

(** Neither a backslash nor an opening brace. *)
Definition plainUnit (c : N) : bool :=
  negb (N.eqb c 0x5C) && negb (N.eqb c 0x7B).

(** ** Invariants of a run *)

(** One more recorded diagnostic: a warning or an error. *)
Inductive recorded (h : ErrorHandler) : ErrorHandler -> Prop :=
| recorded_warning w : recorded h (recordWarning w h)
| recorded_error e : recorded h (recordError e h).

(** A step that relates the state it is started in to the state it leaves,
    whether it returns or throws. *)
Definition preserves (R : Interpreter -> Interpreter -> Prop) {A}
  (m : M Interpreter A) : Prop :=
  forall i, R i (final_state (m i)).

(** The read-only pools of two states are the same. *)
Definition sameReadOnlyPools (i j : Interpreter) : Prop :=
  roleInfo (context j) = roleInfo (context i)
  /\ systemInfo (context j) = systemInfo (context i).

(** The diagnostics of [j] extend those of [i], under the same
    configuration. *)
Definition diagnosticsExtend (i j : Interpreter) : Prop :=
  config (errorHandler j) = config (errorHandler i)
  /\ (exists es, errors (errorHandler j) = errors (errorHandler i) ++ es)
  /\ (exists ws, warnings (errorHandler j) = warnings (errorHandler i) ++ ws).

(** Every variable of [i], local or special, is still there in [j]. *)
Definition keepsVariables (i j : Interpreter) : Prop :=
  (forall name, hasVariable name (context i) = true ->
                hasVariable name (context j) = true)
  /\ (forall prefix name,
        hasSpecialVariable prefix name (context i) = Normal true ->
        hasSpecialVariable prefix name (context j) = Normal true).

(** A handler with ceiling 2 that holds three errors and one warning. *)
Definition trippedHandler : ErrorHandler :=
  {| config := config (handlerWith true 2);
     errors := repeat (writeDenied (str "$rname")) 3;
     warnings := [str "earlier"] |}.

(** ** Assignments, loops, chains and dice literals *)

(** The left-hand sides whose store succeeds: a local, or a well-formed
    special variable of a writable pool. *)
Definition writableTarget (e : Expression) : bool :=
  match e with
  | Identifier _ => true
  | SpecialVariable text =>
      wellFormedSpecial text && canWriteSpecialVariable (charAt text 1)
  | _ => false
  end.

(** The expression [x = 2]. *)
Definition xAssignedTwo : Expression :=
  AssignmentExpression (Identifier (str "x")) ASSIGN (NumberLiteral (str "2")).

(** The condition [x < 3] and the body [x += 1] of a counting loop. *)
Definition xBelowThree : Expression :=
  RelationalExpression (Identifier (str "x")) [(LESS, NumberLiteral (str "3"))].

Definition xPlusOne : Statement :=
  ExpressionStatement
    (AssignmentExpression (Identifier (str "x")) PLUS_ASSIGN
       (NumberLiteral (str "1"))).

(** The chains ['a' || 0] and [0 || 0]. *)
Definition textOrZero : Expression :=
  LogicalOrExpression (StringLiteral (str "'a'")) [NumberLiteral (str "0")].

Definition zeroOrZero : Expression :=
  LogicalOrExpression (NumberLiteral (str "0")) [NumberLiteral (str "0")].

(** The error built when a dice literal cannot be evaluated, and the
    warning recorded for it under recovery. *)
Definition diceFailure (errorMessage text : jsstring) (ln col : Z)
  : DicenicError :=
  {| message := str "Failed to evaluate dice expression: " ++ errorMessage;
     line := ln; column := col; detail := DiceError text |}.

Definition diceWarning (errorMessage text : jsstring) (ln col : Z) : jsstring :=
  getFormattedMessage (diceFailure errorMessage text ln col).

(** ** Conversions *)

(** The arithmetic tokens and the operators the interpreter passes to
    [performArithmeticOperation]. *)
Definition arithmeticOperator (token : TokenType.t) : option Operator :=
  match token with
  | TokenType.PLUS => Some PLUS
  | TokenType.MINUS => Some MINUS
  | TokenType.MULTIPLY => Some MULTIPLY
  | TokenType.DIVIDE => Some DIVIDE
  | TokenType.MODULO => Some MODULO
  | _ => None
  end.

(** A dice result read as the number it holds: the tag changes, the
    payload stays. *)
Definition asNumber (v : DicenicValue) : DicenicValue :=
  match type v with
  | TDICE_EXPRESSION => {| type := TNUMBER; value := value v |}
  | _ => v
  end.

(** The payload is of the kind the tag announces: a text under [STRING],
    a number under [NUMBER] and [DICE_EXPRESSION]. *)
Definition payloadFollowsTag (v : DicenicValue) : bool :=
  match type v, value v with
  | TSTRING, JSString _ => true
  | TNUMBER, JSNumber _ => true
  | TDICE_EXPRESSION, JSNumber _ => true
  | _, _ => false
  end.

Definition isOrdering (operator : Operator) : bool :=
  match operator with
  | GREATER | LESS | GREATER_EQUAL | LESS_EQUAL => true
  | _ => false
  end.

(** ** Induction on parse trees *)

(** Structural induction through the operand lists of the chains. *)
Section ExpressionInduction.
Variable P : Expression -> Prop.
Hypothesis HNumber : forall t, P (NumberLiteral t).
Hypothesis HString : forall t, P (StringLiteral t).
Hypothesis HDice : forall t ln col, P (DiceExpression t ln col).
Hypothesis HSpecial : forall t, P (SpecialVariable t).
Hypothesis HIdent : forall t, P (Identifier t).
Hypothesis HParen : forall e, P e -> P (Parenthesized e).
Hypothesis HAssign :
  forall t op v, P t -> P v -> P (AssignmentExpression t op v).
Hypothesis HUnary : forall op e, P e -> P (UnaryExpression op e).
Hypothesis HMul : forall f r, P f -> Forall (fun p => P (snd p)) r ->
  P (MultiplicativeExpression f r).
Hypothesis HAdd : forall f r, P f -> Forall (fun p => P (snd p)) r ->
  P (AdditiveExpression f r).
Hypothesis HRel : forall f r, P f -> Forall (fun p => P (snd p)) r ->
  P (RelationalExpression f r).
Hypothesis HEq : forall f r, P f -> Forall (fun p => P (snd p)) r ->
  P (EqualityExpression f r).
Hypothesis HAnd : forall f r, P f -> Forall P r ->
  P (LogicalAndExpression f r).
Hypothesis HOr : forall f r, P f -> Forall P r ->
  P (LogicalOrExpression f r).
Hypothesis HTernary : forall c t f, P c -> P t -> P f ->
  P (TernaryExpression c t f).

Fixpoint Expression_nested_ind (e : Expression) : P e :=
  let operands :=
    fix go (l : list Expression) : Forall P l :=
      match l with
      | [] => List.Forall_nil P
      | x :: l' => @List.Forall_cons _ P x l' (Expression_nested_ind x) (go l')
      end in
  let pairs :=
    fix go (l : list (Operator * Expression))
      : Forall (fun p => P (snd p)) l :=
      match l with
      | [] => List.Forall_nil _
      | p :: l' =>
          @List.Forall_cons _ (fun p => P (snd p)) p l'
            (match p return P (snd p) with
             | (_, x) => Expression_nested_ind x
             end)
            (go l')
      end in
  match e with
  | NumberLiteral t => HNumber t
  | StringLiteral t => HString t
  | DiceExpression t ln col => HDice t ln col
  | SpecialVariable t => HSpecial t
  | Identifier t => HIdent t
  | Parenthesized e' => HParen e' (Expression_nested_ind e')
  | AssignmentExpression t op v =>
      HAssign t op v (Expression_nested_ind t) (Expression_nested_ind v)
  | UnaryExpression op e' => HUnary op e' (Expression_nested_ind e')
  | MultiplicativeExpression f r =>
      HMul f r (Expression_nested_ind f) (pairs r)
  | AdditiveExpression f r => HAdd f r (Expression_nested_ind f) (pairs r)
  | RelationalExpression f r => HRel f r (Expression_nested_ind f) (pairs r)
  | EqualityExpression f r => HEq f r (Expression_nested_ind f) (pairs r)
  | LogicalAndExpression f r =>
      HAnd f r (Expression_nested_ind f) (operands r)
  | LogicalOrExpression f r => HOr f r (Expression_nested_ind f) (operands r)
  | TernaryExpression c t f =>
      HTernary c t f (Expression_nested_ind c) (Expression_nested_ind t)
        (Expression_nested_ind f)
  end.

End ExpressionInduction.

Section StatementInduction.
Variable P : Statement -> Prop.
Hypothesis HExpr : forall e, P (ExpressionStatement e).
Hypothesis HIf : forall c t, P t -> P (IfStatement c t None).
Hypothesis HIfElse : forall c t f, P t -> P f -> P (IfStatement c t (Some f)).
Hypothesis HWhile : forall c b ln col, P b -> P (WhileStatement c b ln col).
Hypothesis HBlock : forall l, Forall P l -> P (Block l).

Fixpoint Statement_nested_ind (s : Statement) : P s :=
  match s with
  | ExpressionStatement e => HExpr e
  | IfStatement c t None => HIf c t (Statement_nested_ind t)
  | IfStatement c t (Some f) =>
      HIfElse c t f (Statement_nested_ind t) (Statement_nested_ind f)
  | WhileStatement c b ln col => HWhile c b ln col (Statement_nested_ind b)
  | Block l =>
      HBlock l
        ((fix go (l : list Statement) : Forall P l :=
            match l with
            | [] => List.Forall_nil P
            | x :: l' =>
                @List.Forall_cons _ P x l' (Statement_nested_ind x) (go l')
            end) l)
  end.

End StatementInduction.

(* ================================================================== *)
(** * Properties *)
(* ================================================================== *)

(** ** The monad *)

Lemma bind_Ok {S A B} (m : M S A) (f : A -> M S B) s a s' :
  m s = Ok a s' -> bind m f s = f a s'.
Proof. unfold bind. intros ->. reflexivity. Qed.

Lemma bind_Throw {S A B} (m : M S A) (f : A -> M S B) s e s' :
  m s = Throw e s' -> bind m f s = Throw e s'.
Proof. unfold bind. intros ->. reflexivity. Qed.

(** ** The error ceiling of the handler *)

Lemma withinLimit_overByOne h : withinLimit h -> overByOne h.
Proof. unfold withinLimit, overByOne. lia. Qed.

Lemma addError_unfold error h :
  addError error h =
  let h' := {| config := config h; errors := errors h ++ [error];
               warnings := warnings h |} in
  if Z.of_nat (S (length (errors h))) <=? maxErrors (config h)
  then Ok tt h'
  else Throw (ThrownDicenic (tooManyErrors (S (length (errors h))))) h'.
Proof.
  unfold addError. cbn [errors config].
  rewrite length_app. cbn [length].
  replace (length (errors h) + 1)%nat with (S (length (errors h))) by lia.
  destruct (Z.gtb_spec (Z.of_nat (S (length (errors h)))) (maxErrors (config h)));
    destruct (Z.leb_spec (Z.of_nat (S (length (errors h)))) (maxErrors (config h)));
    try lia; reflexivity.
Qed.

Lemma respectsCeiling_ret {A} (a : A) : respectsCeiling (ret a).
Proof. intros h Hh. exact Hh. Qed.

Lemma respectsCeiling_throw {A} e : respectsCeiling (@throw _ A e).
Proof. intros h Hh. cbn. now apply withinLimit_overByOne. Qed.

Lemma respectsCeiling_bind {A B} (m : M ErrorHandler A)
  (f : A -> M ErrorHandler B) :
  respectsCeiling m -> (forall a, respectsCeiling (f a)) ->
  respectsCeiling (bind m f).
Proof.
  intros Hm Hf h Hh. unfold bind. specialize (Hm h Hh).
  destruct (m h) as [a h'|e h']; [apply Hf, Hm | exact Hm].
Qed.

Lemma respectsCeiling_get : respectsCeiling (@get ErrorHandler).
Proof. intros h Hh. exact Hh. Qed.

Lemma respectsCeiling_addError error : respectsCeiling (addError error).
Proof.
  intros h Hh. rewrite addError_unfold. cbv zeta.
  unfold withinLimit, overByOne in *.
  destruct (Z.leb_spec (Z.of_nat (S (length (errors h)))) (maxErrors (config h)));
    cbn [errors config]; rewrite length_app; cbn [length]; lia.
Qed.

Lemma respectsCeiling_addWarning w : respectsCeiling (addWarning w).
Proof. intros h Hh. exact Hh. Qed.

Lemma respectsCeiling_throwUnlessRecovery error :
  respectsCeiling (throwUnlessRecovery error).
Proof.
  unfold throwUnlessRecovery. apply respectsCeiling_bind.
  - apply respectsCeiling_get.
  - intros h. destruct (negb _);
      [apply respectsCeiling_throw | apply respectsCeiling_ret].
Qed.

Create HintDb ceiling.
#[export] Hint Resolve respectsCeiling_ret respectsCeiling_throw
  respectsCeiling_get respectsCeiling_addError respectsCeiling_addWarning
  respectsCeiling_throwUnlessRecovery : ceiling.

Lemma respectsCeiling_handleSyntaxError msg ln col :
  respectsCeiling (handleSyntaxError msg ln col).
Proof.
  unfold handleSyntaxError. apply respectsCeiling_bind; auto with ceiling.
Qed.

Lemma respectsCeiling_handleRuntimeError msg ln col c :
  respectsCeiling (handleRuntimeError msg ln col c).
Proof.
  unfold handleRuntimeError. apply respectsCeiling_bind; auto with ceiling.
Qed.

Lemma respectsCeiling_handleVariableAccessError msg v a ln col :
  respectsCeiling (handleVariableAccessError msg v a ln col).
Proof.
  unfold handleVariableAccessError.
  apply respectsCeiling_bind; auto with ceiling.
Qed.

Lemma respectsCeiling_handleTypeConversionError msg st t sv ln col :
  respectsCeiling (handleTypeConversionError msg st t sv ln col).
Proof.
  unfold handleTypeConversionError. apply respectsCeiling_bind.
  - apply respectsCeiling_get.
  - intros h. destruct (useDefaultOnTypeError _).
    + apply respectsCeiling_bind; auto with ceiling.
    + apply respectsCeiling_bind; auto with ceiling.
      intros _. apply respectsCeiling_bind; auto with ceiling.
Qed.

Lemma respectsCeiling_handleDiceError msg d ln col :
  respectsCeiling (handleDiceError msg d ln col).
Proof.
  unfold handleDiceError. apply respectsCeiling_bind.
  - apply respectsCeiling_get.
  - intros h. destruct (enableRecovery _);
      apply respectsCeiling_bind; auto with ceiling.
Qed.

Lemma respectsCeiling_handleLoopError msg lt mi ln col :
  respectsCeiling (handleLoopError msg lt mi ln col).
Proof. unfold handleLoopError. auto with ceiling. Qed.

#[export] Hint Resolve respectsCeiling_handleSyntaxError
  respectsCeiling_handleRuntimeError
  respectsCeiling_handleVariableAccessError
  respectsCeiling_handleTypeConversionError
  respectsCeiling_handleDiceError respectsCeiling_handleLoopError : ceiling.

(** ** The error ceiling during interpretation *)

Lemma keepsCeiling_ret {A} (a : A) : keepsCeiling (ret a).
Proof. intros i Hi. exact Hi. Qed.

Lemma keepsCeiling_throw {A} e : keepsCeiling (@throw _ A e).
Proof. intros i Hi. cbn. now apply withinLimit_overByOne. Qed.

Lemma keepsCeiling_get : keepsCeiling (@get Interpreter).
Proof. intros i Hi. exact Hi. Qed.

Lemma keepsCeiling_bind {A B} (m : M Interpreter A)
  (f : A -> M Interpreter B) :
  keepsCeiling m -> (forall a, keepsCeiling (f a)) ->
  keepsCeiling (bind m f).
Proof.
  intros Hm Hf i Hi. unfold bind. specialize (Hm i Hi).
  destruct (m i) as [a i'|e i']; [apply Hf, Hm | exact Hm].
Qed.

Lemma keepsCeiling_modify (f : Interpreter -> Interpreter) :
  (forall i, errorHandler (f i) = errorHandler i) ->
  keepsCeiling (modify f).
Proof. intros Hf i Hi. cbn. now rewrite Hf. Qed.

Lemma keepsCeiling_onErrorHandler {A} (m : M ErrorHandler A) :
  respectsCeiling m -> keepsCeiling (onErrorHandler m).
Proof.
  intros Hm i Hi. unfold onErrorHandler, zoom.
  specialize (Hm _ Hi). destruct (m (errorHandler i)); exact Hm.
Qed.

Lemma keepsCeiling_readContext {A} (f : ExecutionContextData -> Completion A) :
  keepsCeiling (readContext f).
Proof.
  intros i Hi. unfold readContext.
  destruct (f (context i)); [exact Hi | now apply withinLimit_overByOne].
Qed.

#[export] Hint Resolve keepsCeiling_ret keepsCeiling_throw keepsCeiling_get
  keepsCeiling_readContext : ceiling.

Section CeilingOfInterpreter.
Context {host : Host}.
Import ExecutionContext DicenicInterpreter.

(** One step of a ceiling proof: split a sequence, or close a leaf. *)
Ltac ceiling_step :=
  first
    [ apply keepsCeiling_bind; [| intros ? ]
    | apply keepsCeiling_onErrorHandler; solve [auto with ceiling]
    | apply keepsCeiling_modify; intros; reflexivity
    | solve [auto with ceiling] ].

Lemma keepsCeiling_tryCatch_onRandom {A} (m : M nat A)
  (h : Thrown -> M Interpreter A) :
  (forall e, keepsCeiling (h e)) ->
  keepsCeiling (tryCatch (onRandom m) h).
Proof.
  intros Hh i Hi. unfold tryCatch, onRandom, zoom.
  destruct (m (randomDraws i)) as [a n|e n]; [exact Hi |].
  apply Hh. exact Hi.
Qed.

Lemma keepsCeiling_performArithmeticOperation left right operator :
  keepsCeiling (performArithmeticOperation left right operator).
Proof.
  unfold performArithmeticOperation.
  destruct (match operator with PLUS => _ | _ => false end);
    [auto with ceiling |].
  ceiling_step; [| ceiling_step].
  destruct operator; try solve [auto with ceiling];
    destruct (num_eq _ _); unfold callAddPublicWarning; repeat ceiling_step.
Qed.

Lemma keepsCeiling_visitDiceExpression text ln col :
  keepsCeiling (visitDiceExpression text ln col).
Proof.
  unfold visitDiceExpression. apply keepsCeiling_tryCatch_onRandom.
  intros e. repeat ceiling_step.
Qed.

Lemma keepsCeiling_visitStringLiteral text :
  keepsCeiling (visitStringLiteral text).
Proof. unfold visitStringLiteral. repeat ceiling_step. Qed.

Lemma keepsCeiling_visitSpecialVariable text :
  keepsCeiling (visitSpecialVariable text).
Proof.
  unfold visitSpecialVariable.
  destruct (wellFormedSpecial text); auto with ceiling.
Qed.

Lemma keepsCeiling_assignmentValue target rightValue operator :
  keepsCeiling (assignmentValue target rightValue operator).
Proof.
  unfold assignmentValue.
  destruct operator; try solve [auto with ceiling];
    (ceiling_step; [| apply keepsCeiling_performArithmeticOperation ]);
    destruct target; try solve [auto with ceiling];
    try (destruct (wellFormedSpecial _); solve [auto with ceiling]);
    repeat ceiling_step.
Qed.

Lemma keepsCeiling_storeAssignment target finalValue :
  keepsCeiling (storeAssignment target finalValue).
Proof.
  unfold storeAssignment.
  destruct target; try solve [auto with ceiling | repeat ceiling_step].
  destruct (wellFormedSpecial _); [| auto with ceiling].
  destruct (negb _); [repeat ceiling_step |].
  ceiling_step; [auto with ceiling |].
  destruct (setSpecialVariable _ _ _ _); repeat ceiling_step.
Qed.

Lemma keepsCeiling_performAssignment target rightValue operator :
  keepsCeiling (performAssignment target rightValue operator).
Proof.
  unfold performAssignment. ceiling_step.
  - apply keepsCeiling_assignmentValue.
  - apply keepsCeiling_storeAssignment.
Qed.

Lemma keepsCeiling_additiveLoop rest :
  Forall (fun p => keepsCeiling (snd p)) rest ->
  forall result, keepsCeiling (additiveLoop rest result).
Proof.
  induction 1 as [|[operator operand] rest Hx _ IH]; intros result;
    cbn [additiveLoop multiplicativeLoop relationalLoop equalityLoop
         logicalOrLoop logicalAndLoop statementsLoop whileLoop snd].
  - auto with ceiling.
  - ceiling_step; [exact Hx |]. ceiling_step; [| apply IH].
    destruct operator; auto with ceiling;
      apply keepsCeiling_performArithmeticOperation.
Qed.

Lemma keepsCeiling_multiplicativeLoop rest :
  Forall (fun p => keepsCeiling (snd p)) rest ->
  forall result, keepsCeiling (multiplicativeLoop rest result).
Proof.
  induction 1 as [|[operator operand] rest Hx _ IH]; intros result;
    cbn [additiveLoop multiplicativeLoop relationalLoop equalityLoop
         logicalOrLoop logicalAndLoop statementsLoop whileLoop snd].
  - auto with ceiling.
  - ceiling_step; [exact Hx |]. ceiling_step; [| apply IH].
    destruct operator; auto with ceiling;
      apply keepsCeiling_performArithmeticOperation.
Qed.

Lemma keepsCeiling_relationalLoop rest :
  Forall (fun p => keepsCeiling (snd p)) rest ->
  forall result, keepsCeiling (relationalLoop rest result).
Proof.
  induction 1 as [|[operator operand] rest Hx _ IH]; intros result;
    cbn [additiveLoop multiplicativeLoop relationalLoop equalityLoop
         logicalOrLoop logicalAndLoop statementsLoop whileLoop snd].
  - auto with ceiling.
  - ceiling_step; [exact Hx | apply IH].
Qed.

Lemma keepsCeiling_equalityLoop rest :
  Forall (fun p => keepsCeiling (snd p)) rest ->
  forall result, keepsCeiling (equalityLoop rest result).
Proof.
  induction 1 as [|[operator operand] rest Hx _ IH]; intros result;
    cbn [additiveLoop multiplicativeLoop relationalLoop equalityLoop
         logicalOrLoop logicalAndLoop statementsLoop whileLoop snd].
  - auto with ceiling.
  - ceiling_step; [exact Hx | apply IH].
Qed.

Lemma keepsCeiling_logicalOrLoop rest :
  Forall keepsCeiling rest ->
  forall result, keepsCeiling (logicalOrLoop rest result).
Proof.
  induction 1 as [|operand rest Hx _ IH]; intros result;
    cbn [additiveLoop multiplicativeLoop relationalLoop equalityLoop
         logicalOrLoop logicalAndLoop statementsLoop whileLoop snd].
  - auto with ceiling.
  - destruct (TypeConverter.toBoolean result); [auto with ceiling |].
    ceiling_step; [exact Hx | apply IH].
Qed.

Lemma keepsCeiling_logicalAndLoop rest :
  Forall keepsCeiling rest ->
  forall result, keepsCeiling (logicalAndLoop rest result).
Proof.
  induction 1 as [|operand rest Hx _ IH]; intros result;
    cbn [additiveLoop multiplicativeLoop relationalLoop equalityLoop
         logicalOrLoop logicalAndLoop statementsLoop whileLoop snd].
  - auto with ceiling.
  - destruct (negb _); [auto with ceiling |].
    ceiling_step; [exact Hx | apply IH].
Qed.

Lemma Forall_pairs_visit (Q : Visit -> Prop)
  (rest : list (Operator * Expression)) :
  Forall (fun p => Q (visitExpression (snd p))) rest ->
  Forall (fun p => Q (snd p))
    (map (fun p => match p with (o, x) => (o, visitExpression x) end) rest).
Proof.
  induction 1 as [|[o x] rest Hx _ IH]; cbn; constructor; assumption.
Qed.

Lemma Forall_operands_visit (Q : Visit -> Prop) (rest : list Expression) :
  Forall (fun x => Q (visitExpression x)) rest ->
  Forall Q (map visitExpression rest).
Proof. induction 1; cbn; constructor; assumption. Qed.

Lemma keepsCeiling_visitExpression e : keepsCeiling (visitExpression e).
Proof.
  induction e using Expression_nested_ind; cbn [visitExpression].
  - unfold visitNumberLiteral. auto with ceiling.
  - apply keepsCeiling_visitStringLiteral.
  - apply keepsCeiling_visitDiceExpression.
  - apply keepsCeiling_visitSpecialVariable.
  - unfold visitIdentifier. repeat ceiling_step.
  - assumption.
  - unfold visitAssignmentExpression. ceiling_step; [assumption |].
    apply keepsCeiling_performAssignment.
  - unfold visitUnaryExpression. ceiling_step; [assumption |].
    destruct op; auto with ceiling.
  - ceiling_step; [assumption |].
    apply keepsCeiling_multiplicativeLoop, Forall_pairs_visit. assumption.
  - ceiling_step; [assumption |].
    apply keepsCeiling_additiveLoop, Forall_pairs_visit. assumption.
  - ceiling_step; [assumption |].
    apply keepsCeiling_relationalLoop, Forall_pairs_visit. assumption.
  - ceiling_step; [assumption |].
    apply keepsCeiling_equalityLoop, Forall_pairs_visit. assumption.
  - unfold visitLogicalAndExpression. ceiling_step; [assumption |].
    apply keepsCeiling_logicalAndLoop, Forall_operands_visit. assumption.
  - unfold visitLogicalOrExpression. ceiling_step; [assumption |].
    apply keepsCeiling_logicalOrLoop, Forall_operands_visit. assumption.
  - unfold visitTernaryExpression. ceiling_step; [assumption |].
    destruct (TypeConverter.toBoolean _); assumption.
Qed.

Lemma keepsCeiling_statementsLoop statements :
  Forall keepsCeiling statements ->
  forall result, keepsCeiling (statementsLoop statements result).
Proof.
  induction 1 as [|statement rest Hx _ IH]; intros result;
    cbn [additiveLoop multiplicativeLoop relationalLoop equalityLoop
         logicalOrLoop logicalAndLoop statementsLoop whileLoop snd].
  - auto with ceiling.
  - ceiling_step; [exact Hx |]. ceiling_step; [ceiling_step | apply IH].
Qed.

Lemma keepsCeiling_whileLoop n c b ln col :
  keepsCeiling c -> keepsCeiling b ->
  forall result, keepsCeiling (whileLoop n c b ln col result).
Proof.
  intros Hc Hb. induction n as [|n IH]; intros result;
    cbn [additiveLoop multiplicativeLoop relationalLoop equalityLoop
         logicalOrLoop logicalAndLoop statementsLoop whileLoop snd].
  - repeat ceiling_step.
  - ceiling_step; [exact Hc |].
    destruct (negb _); [auto with ceiling |].
    ceiling_step; [exact Hb |]. ceiling_step; [ceiling_step | apply IH].
Qed.

Lemma keepsCeiling_visitStatement s : keepsCeiling (visitStatement s).
Proof.
  induction s using Statement_nested_ind; cbn [visitStatement].
  - apply keepsCeiling_visitExpression.
  - unfold visitIfStatement. ceiling_step.
    + apply keepsCeiling_visitExpression.
    + destruct (TypeConverter.toBoolean _); auto with ceiling.
  - unfold visitIfStatement. ceiling_step.
    + apply keepsCeiling_visitExpression.
    + destruct (TypeConverter.toBoolean _); assumption.
  - unfold visitWhileStatement.
    apply keepsCeiling_whileLoop; [apply keepsCeiling_visitExpression |].
    assumption.
  - unfold visitBlock. apply keepsCeiling_statementsLoop.
    clear -H. induction H; cbn; constructor; assumption.
Qed.

Lemma keepsCeiling_interpret parseTree : keepsCeiling (interpret parseTree).
Proof.
  unfold interpret. ceiling_step; [ceiling_step |].
  ceiling_step; [| repeat ceiling_step].
  unfold visitProgram. apply keepsCeiling_statementsLoop.
  induction parseTree; cbn; constructor;
    [apply keepsCeiling_visitStatement | assumption].
Qed.

End CeilingOfInterpreter.

(* ================================================================== *)
(** * The statements of the specification *)
(* ================================================================== *)

Import ExecutionContext DicenicInterpreter.

(** ** C6: the error ceiling *)

(** C6, as stated, fails: with [maxErrors = 2] and recovery enabled, the
    third recorded error is appended before the ceiling is checked, so the
    error sequence has length 3 when the Runtime error is raised. *)
Lemma C6_error_sequence_exceeds_maxErrors :
  exists e h,
    (handleRuntimeError (str "Error 1") (-1) (-1) None ;;
     handleRuntimeError (str "Error 2") (-1) (-1) None ;;
     handleRuntimeError (str "Error 3") (-1) (-1) None)
      (handlerWith true 2) = Throw e h
    /\ length (errors h) = 3%nat
    /\ maxErrors (config h) = 2
    /\ enableRecovery (config h) = true.
Proof.
  eexists _, _. split; [reflexivity |]. repeat split.
Qed.

(** C6 (amended): every append first records the error and then compares
    the new count with [maxErrors]; it returns when the new count is at
    most [maxErrors] and raises the Runtime error "Too many errors"
    otherwise, whatever [enableRecovery] says, also through a handler with
    recovery enabled.  Hence, from a handler within its ceiling, a run of
    the interpreter that returns leaves at most [maxErrors] errors, and a
    run that throws leaves at most [maxErrors + 1]. *)
Theorem C6_error_ceiling {host : Host} (parseTree : Program)
  (i : Interpreter) (error : DicenicError) (msg : jsstring) :
  withinLimit (errorHandler i) ->
  let h := errorHandler i in
  let n := S (length (errors h)) in
  addError error h =
    (if Z.of_nat n <=? maxErrors (config h) then Ok tt (recordError error h)
     else Throw (ThrownDicenic (tooManyErrors n)) (recordError error h))
  /\ isRuntimeError (tooManyErrors n) = true
  /\ (maxErrors (config h) < Z.of_nat n ->
      enableRecovery (config h) = true ->
      exists h'',
        handleRuntimeError msg (-1) (-1) None h =
          Throw (ThrownDicenic (tooManyErrors n)) h''
        /\ Z.of_nat (length (errors h'')) = maxErrors (config h'') + 1)
  /\ match interpret parseTree i with
     | Ok _ i' => withinLimit (errorHandler i')
     | Throw _ i' => overByOne (errorHandler i')
     end.
Proof.
  intros Hi h n. split; [| split; [| split]].
  - apply addError_unfold.
  - reflexivity.
  - intros Hn _. unfold handleRuntimeError.
    eexists. split.
    + apply bind_Throw. rewrite addError_unfold. cbv zeta.
      destruct (Z.leb_spec (Z.of_nat (S (length (errors h))))
                  (maxErrors (config h))); [lia | reflexivity].
    + cbn [errors config]. rewrite length_app. cbn [length].
      unfold withinLimit in Hi. fold h in Hi. lia.
  - apply keepsCeiling_interpret. exact Hi.
Qed.

(** Witness for C6: three denied writes under [maxErrors = 2] with
    recovery enabled; the run throws with three errors recorded. *)
Lemma C6_error_ceiling_witness :
  let run := interpret (host := ReferenceHost.host) (repeat deniedWrite 3)
               (newInterpreter emptyContext (handlerWith true 2)) in
  match run with
  | Ok _ i' => withinLimit (errorHandler i')
  | Throw _ i' => overByOne (errorHandler i')
  end
  /\ returns run = false
  /\ length (errors (errorHandler (final_state run))) = 3%nat.
Proof.
  assert (H : withinLimit
                (errorHandler (newInterpreter emptyContext (handlerWith true 2))))
    by (unfold withinLimit; cbn; lia).
  split; [| split; vm_compute; reflexivity].
  exact (proj2 (proj2 (proj2
    (C6_error_ceiling (host := ReferenceHost.host) (repeat deniedWrite 3)
       (newInterpreter emptyContext (handlerWith true 2))
       (writeDenied (str "$rname")) [] H)))).
Defined.

(** ** C1: writes to the read-only pools *)

Lemma handleVariableAccessError_unfold msg v a ln col h :
  let error := {| message := msg; line := ln; column := col;
                  detail := VariableAccessError v a |} in
  let n := S (length (errors h)) in
  handleVariableAccessError msg v a ln col h =
  if Z.of_nat n <=? maxErrors (config h) then
    if enableRecovery (config h) then Ok tt (recordError error h)
    else Throw (ThrownDicenic error) (recordError error h)
  else Throw (ThrownDicenic (tooManyErrors n)) (recordError error h).
Proof.
  intros error n. unfold handleVariableAccessError. fold error.
  unfold bind. rewrite addError_unfold. cbv zeta. fold n.
  destruct (Z.of_nat n <=? maxErrors (config h)); [| reflexivity].
  unfold throwUnlessRecovery, bind, get. cbn [config].
  destruct (enableRecovery (config h)); reflexivity.
Qed.

Section Arithmetic.
Context {host : Host}.

Lemma performArithmeticOperation_returns left right operator i :
  zeroDivisor operator right = false ->
  exists v, performArithmeticOperation left right operator i = Ok v i.
Proof.
  intros Hz. unfold performArithmeticOperation.
  destruct (match operator with PLUS => _ | _ => false end).
  { eexists. reflexivity. }
  destruct operator; cbn [zeroDivisor] in Hz; cbn [bind ret];
    try rewrite Hz; eexists; reflexivity.
Qed.

Lemma performArithmeticOperation_zero left right operator i :
  zeroDivisor operator right = true ->
  performArithmeticOperation left right operator i
  = Throw addPublicWarningIsNotAFunction i.
Proof.
  intros Hz. unfold performArithmeticOperation.
  destruct operator; cbn [zeroDivisor] in Hz; try discriminate Hz;
    cbn match; rewrite Hz; reflexivity.
Qed.

(** No arithmetic operation changes the state, whether it returns or
    throws. *)
Lemma performArithmeticOperation_state left right operator i :
  final_state (performArithmeticOperation left right operator i) = i.
Proof.
  destruct (zeroDivisor operator right) eqn:Hz.
  - now rewrite performArithmeticOperation_zero.
  - destruct (performArithmeticOperation_returns left right operator i Hz)
      as [v ->]. reflexivity.
Qed.

End Arithmetic.

Section ReadOnlyPools.
Context {host : Host}.

Lemma getSpecialVariable_readonly prefix name c :
  prefix = SpecialVariablePrefix.ROLE \/ prefix = SpecialVariablePrefix.SYSTEM ->
  exists v, getSpecialVariable prefix name c = Normal v.
Proof.
  assert (Hr : getStorageByPrefix SpecialVariablePrefix.ROLE c
               = Normal (roleInfo c)) by reflexivity.
  assert (Hs : getStorageByPrefix SpecialVariablePrefix.SYSTEM c
               = Normal (systemInfo c)) by reflexivity.
  intros [-> | ->]; unfold getSpecialVariable; rewrite ?Hr, ?Hs;
    match goal with |- context [?m !! name] => destruct (m !! name) end;
    eexists; reflexivity.
Qed.

Lemma canWrite_readonly prefix :
  prefix = SpecialVariablePrefix.ROLE \/ prefix = SpecialVariablePrefix.SYSTEM ->
  canWriteSpecialVariable prefix = false.
Proof. intros [-> | ->]; reflexivity. Qed.

Lemma assignmentValue_readonly text rightValue operator i :
  wellFormedSpecial text = true ->
  (charAt text 1 = SpecialVariablePrefix.ROLE \/
   charAt text 1 = SpecialVariablePrefix.SYSTEM) ->
  dividesByZero operator rightValue = false ->
  exists finalValue,
    assignmentValue (SpecialVariable text) rightValue operator i
      = Ok finalValue i
    /\ (operator = ASSIGN -> finalValue = rightValue).
Proof.
  intros Hwf Hp Hz. unfold assignmentValue.
  destruct (getSpecialVariable_readonly _ (substring_from text 2) (context i) Hp)
    as [current Hcur].
  destruct operator;
    [ eexists; split; [reflexivity | intros _; reflexivity]
    | .. ];
    rewrite Hwf; unfold bind, readContext; rewrite Hcur;
    match goal with |- context [performArithmeticOperation ?l ?r ?o ?j] =>
      destruct (performArithmeticOperation_returns l r o j Hz) as (v & ->)
    end;
    exists v; (split; [reflexivity |]);
    intros H; discriminate H.
Qed.

(** C1 (amended): an assignment whose target is a special variable with
    prefix [r] or [s], other than a [/=] or [%=] whose right-hand side
    reads as 0, leaves all five pools unchanged and records one
    VariableAccess error; when recovery is enabled and the new error count
    stays within [maxErrors], the assignment evaluates to the would-be
    value; otherwise it throws after recording (the VariableAccess error
    when recovery is disabled, the ceiling error when the count exceeds
    [maxErrors]). *)
Theorem C1_readonly_assignment (text : jsstring) (rightValue : DicenicValue)
  (operator : AssignmentOperator) (i : Interpreter) :
  wellFormedSpecial text = true ->
  (charAt text 1 = SpecialVariablePrefix.ROLE \/
   charAt text 1 = SpecialVariablePrefix.SYSTEM) ->
  dividesByZero operator rightValue = false ->
  exists finalValue,
    assignmentValue (SpecialVariable text) rightValue operator i
      = Ok finalValue i
    /\ (operator = ASSIGN -> finalValue = rightValue)
    /\ let r := performAssignment (SpecialVariable text) rightValue operator i in
       let h := errorHandler i in
       let n := S (length (errors h)) in
       let i2 := setErrorHandler (recordError (writeDenied text) h) i in
       context (final_state r) = context i
       /\ errors (errorHandler (final_state r))
          = errors (errorHandler i) ++ [writeDenied text]
       /\ warnings (errorHandler (final_state r)) = warnings (errorHandler i)
       /\ isVariableAccessError (writeDenied text) = true
       /\ r = (if Z.of_nat n <=? maxErrors (config h) then
                 if enableRecovery (config h) then Ok finalValue i2
                 else Throw (ThrownDicenic (writeDenied text)) i2
               else Throw (ThrownDicenic (tooManyErrors n)) i2).
Proof.
  intros Hwf Hp Hz.
  destruct (assignmentValue_readonly text rightValue operator i Hwf Hp Hz)
    as (finalValue & Hval & Hassign).
  exists finalValue. split; [exact Hval |].
  split; [exact Hassign |]. cbv zeta.
  assert (Hr : performAssignment (SpecialVariable text) rightValue operator i =
    (if Z.of_nat (S (length (errors (errorHandler i))))
          <=? maxErrors (config (errorHandler i)) then
       if enableRecovery (config (errorHandler i))
       then Ok finalValue
              (setErrorHandler (recordError (writeDenied text) (errorHandler i)) i)
       else Throw (ThrownDicenic (writeDenied text))
              (setErrorHandler (recordError (writeDenied text) (errorHandler i)) i)
     else Throw (ThrownDicenic (tooManyErrors (S (length (errors (errorHandler i))))))
            (setErrorHandler (recordError (writeDenied text) (errorHandler i)) i))).
  { unfold performAssignment. rewrite (bind_Ok _ _ _ _ _ Hval).
    unfold storeAssignment. rewrite Hwf, (canWrite_readonly _ Hp).
    cbn [negb]. unfold bind at 1. unfold onErrorHandler, zoom.
    rewrite handleVariableAccessError_unfold. cbv zeta. fold (writeDenied text).
    destruct (_ <=? _); [| reflexivity].
    destruct (enableRecovery _); reflexivity. }
  rewrite Hr.
  repeat split;
    destruct (_ <=? _); try destruct (enableRecovery _);
    reflexivity.
Qed.

End ReadOnlyPools.

(** C1, as stated, fails.  With recovery disabled the denied write
    [$rname = 1] throws the VariableAccess error, so the assignment
    expression evaluates to no value.  With the default configuration
    (recovery enabled, [maxErrors] 10) the eleventh denied write of a
    script throws the Runtime error of the ceiling, and evaluates to no
    value either. *)
Lemma C1_denied_write_throws :
  (exists i',
      visitExpression (host := ReferenceHost.host)
        (AssignmentExpression (SpecialVariable (str "$rname")) ASSIGN
           (NumberLiteral (str "1")))
        (newInterpreter emptyContext (handlerWith false 10))
      = Throw (ThrownDicenic (writeDenied (str "$rname"))) i'
      /\ context i' = emptyContext)
  /\ (exists i',
        interpret (host := ReferenceHost.host) (repeat deniedWrite 11)
          (initialInterpreter defaultOptions)
        = Throw (ThrownDicenic (tooManyErrors 11)) i'
        /\ enableRecovery (config (errorHandler i')) = true
        /\ context i' = emptyContext).
Proof.
  split; eexists; (split; [vm_compute; reflexivity | repeat split]).
Qed.

(** Witness for C1: [$rname = 1] under the default configuration. *)
Lemma C1_readonly_assignment_witness :
  exists i2,
    performAssignment (host := ReferenceHost.host)
      (SpecialVariable (str "$rname")) (NUMBER 1%float) ASSIGN
      (newInterpreter emptyContext (handlerWith true 10))
    = Ok (NUMBER 1%float) i2
    /\ context i2 = emptyContext
    /\ errors (errorHandler i2) = [writeDenied (str "$rname")].
Proof.
  destruct (C1_readonly_assignment (host := ReferenceHost.host)
              (str "$rname") (NUMBER 1%float) ASSIGN
              (newInterpreter emptyContext (handlerWith true 10))
              eq_refl (or_introl eq_refl) eq_refl)
    as (finalValue & _ & Hassign & _ & _ & _ & _ & Hr).
  rewrite (Hassign eq_refl) in Hr.
  eexists. split; [exact Hr |]. split; reflexivity.
Defined.

(** ** Running a script *)

Section Running.
Context {host : Host}.

Lemma interpret_unfold (parseTree : Program) (i : Interpreter) :
  interpret parseTree i =
  match statementsLoop (map visitStatement parseTree) (NUMBER 0%float)
          (setLastValue (NUMBER 0%float) i) with
  | Ok _ i' => Ok (TypeConverter.toString (lastValue i')) i'
  | Throw e i' => Throw e i'
  end.
Proof.
  unfold interpret, visitProgram, bind, modify, get, ret.
  destruct (statementsLoop _ _ _); reflexivity.
Qed.

Lemma executeScript_unfold (parseTree : Program) (options : ScriptOptions) :
  executeScript {| tree := parseTree; hasErrors := false |} options =
  Normal
    match interpret parseTree (initialInterpreter options) with
    | Ok text i => resultOf text (errorHandler i)
    | Throw error _ => failureOf error
    end.
Proof.
  unfold executeScript, executeScriptBody, initialInterpreter.
  cbn [hasErrors tree].
  destruct (interpret _ _); reflexivity.
Qed.

(** A script made of one expression statement. *)
Lemma interpret_expression (e : Expression) (i : Interpreter) :
  interpret [ExpressionStatement e] i =
  match visitExpression e (setLastValue (NUMBER 0%float) i) with
  | Ok v i' => Ok (TypeConverter.toString v) (setLastValue v i')
  | Throw error i' => Throw error i'
  end.
Proof.
  rewrite interpret_unfold.
  cbn [map visitStatement statementsLoop]. unfold bind.
  destruct (visitExpression e _); reflexivity.
Qed.

Lemma toString_NUMBER (n : float) :
  TypeConverter.toString (NUMBER n) = JSString (numberToString n).
Proof. reflexivity. Qed.

Lemma toString_STRING (s : jsstring) :
  TypeConverter.toString (STRING s) = JSString s.
Proof. reflexivity. Qed.

Lemma visitNumberLiteral_value (text : jsstring) (x : float) i :
  parseFloat text = x -> isNaN x = false ->
  visitNumberLiteral text i = Ok (NUMBER x) i.
Proof. intros Hx Hn. unfold visitNumberLiteral. now rewrite Hx, Hn. Qed.

End Running.

(** ** C2: division and modulo by zero *)

Section DivisionByZero.
Context {host : Host}.

(** C2 describes what the code was meant to do, not what it does.  A
    division or modulo whose right operand reads as the number 0 reaches
    the call of [addPublicWarning], which the class [ErrorHandler] does
    not have: the call throws, no warning is recorded and no value is
    yielded.  A script made of such an operation on two number literals
    ends in the [catch] of [executeScript]: empty result, the message of
    that error as the only error, no warning, no success. *)
Theorem C2_division_by_zero_throws (left right : DicenicValue)
  (operator : Operator) (i : Interpreter) (leftText rightText : jsstring)
  (options : ScriptOptions) :
  operator = DIVIDE \/ operator = MODULO ->
  num_eq (TypeConverter.toNumber right) 0%float = true ->
  num_eq (parseFloat rightText) 0%float = true ->
  performArithmeticOperation left right operator i
    = Throw addPublicWarningIsNotAFunction i
  /\ executeScript
       {| tree := [ExpressionStatement
                     (MultiplicativeExpression (NumberLiteral leftText)
                        [(operator, NumberLiteral rightText)])];
          hasErrors := false |} options
     = Normal {| Script.result := JSString [];
                 Script.errors :=
                   [str "this.errorHandler.addPublicWarning is not a function"];
                 Script.warnings := [];
                 Script.success := false |}.
Proof.
  intros Hop Hz Hlit. split.
  - apply performArithmeticOperation_zero.
    destruct Hop as [-> | ->]; exact Hz.
  - rewrite executeScript_unfold, interpret_expression.
    cbn [visitExpression map]. unfold bind at 1.
    unfold visitNumberLiteral at 1. cbn [ret].
    assert (Hrz : zeroDivisor operator
              (NUMBER (if isNaN (parseFloat rightText) then 0%float
                       else parseFloat rightText)) = true).
    { destruct Hop as [-> | ->]; cbn [zeroDivisor];
        unfold TypeConverter.toNumber; cbn [type value];
        (destruct (isNaN (parseFloat rightText)); [reflexivity | exact Hlit]). }
    assert (Hm : forall v j,
      multiplicativeLoop [(operator, visitNumberLiteral rightText)] v j =
      Throw addPublicWarningIsNotAFunction j).
    { intros v j. cbn [multiplicativeLoop]. unfold bind at 1.
      unfold visitNumberLiteral. cbn [ret].
      pose proof (performArithmeticOperation_zero v _ operator j Hrz) as Hp.
      destruct Hop as [-> | ->]; unfold bind at 1; rewrite Hp; reflexivity. }
    rewrite Hm. reflexivity.
Qed.

End DivisionByZero.

(** Witness for C2: [10 / 0] under the default options. *)
Lemma C2_division_by_zero_throws_witness :
  executeScript (host := ReferenceHost.host)
    {| tree := [ExpressionStatement
                  (MultiplicativeExpression (NumberLiteral (str "10"))
                     [(DIVIDE, NumberLiteral (str "0"))])];
       hasErrors := false |}
    {| context_opt := None; errorConfig_opt := None;
       enableErrorRecovery_opt := None |}
  = Normal {| Script.result := JSString [];
              Script.errors :=
                [str "this.errorHandler.addPublicWarning is not a function"];
              Script.warnings := [];
              Script.success := false |}.
Proof.
  exact (proj2 (C2_division_by_zero_throws (host := ReferenceHost.host)
                  (NUMBER 10%float) (NUMBER 0%float) DIVIDE
                  (newInterpreter emptyContext (handlerWith true 10))
                  (str "10") (str "0")
                  {| context_opt := None; errorConfig_opt := None;
                     enableErrorRecovery_opt := None |}
                  (or_introl eq_refl) eq_refl eq_refl)).
Defined.

(** ** C3: the iteration ceiling of while loops *)

Section WhileCeiling.
Context {host : Host}.

Lemma rounds_lastValue_or_start n c b result i r j :
  rounds n c b result i = Some (r, j) ->
  (r = result /\ j = i) \/ lastValue j = r.
Proof.
  revert result i. induction n as [|n IH]; intros result i; cbn [rounds].
  - intros [= <- <-]. left. split; reflexivity.
  - destruct (c i) as [cv i1|]; [| discriminate].
    destruct (TypeConverter.toBoolean cv); [| discriminate].
    destruct (b i1) as [r' i2|]; [| discriminate].
    intros H. right. destruct (IH _ _ H) as [[-> ->] | Hl];
      [reflexivity | exact Hl].
Qed.

Lemma rounds_lastValue n c b result i r j :
  rounds (S n) c b result i = Some (r, j) -> lastValue j = r.
Proof.
  cbn [rounds].
  destruct (c i) as [cv i1|]; [| discriminate].
  destruct (TypeConverter.toBoolean cv); [| discriminate].
  destruct (b i1) as [r' i2|]; [| discriminate].
  intros H. destruct (rounds_lastValue_or_start _ _ _ _ _ _ _ H)
    as [[-> ->] | Hl]; [reflexivity | exact Hl].
Qed.

(** Every loop that returns made at most [n] rounds: it either used all
    of them and recorded the warning, or found its condition falsy. *)
Lemma whileLoop_bounded n c b ln col result i r i' :
  whileLoop n c b ln col result i = Ok r i' ->
  exists k j,
    (k <= n)%nat /\ rounds k c b result i = Some (r, j)
    /\ ((k = n /\ i' = warnLoop ln col j)
        \/ ((k < n)%nat /\
            exists cv, c j = Ok cv i' /\ TypeConverter.toBoolean cv = false)).
Proof.
  revert result i. induction n as [|n IH]; intros result i; cbn [whileLoop].
  - intros [= <- <-]. exists 0%nat, i. repeat split; auto.
  - unfold bind at 1. destruct (c i) as [cv i1|] eqn:Hc; [| discriminate].
    destruct (TypeConverter.toBoolean cv) eqn:Hcv; cbn [negb].
    + unfold bind at 1. destruct (b i1) as [r' i2|] eqn:Hb; [| discriminate].
      unfold bind at 1. cbn [modify]. intros H.
      destruct (IH _ _ H) as (k & j & Hk & Hr & Hend).
      exists (S k), j. split; [lia |]. split.
      * cbn [rounds]. now rewrite Hc, Hcv, Hb.
      * destruct Hend as [[-> ->] | [Hlt Hfalse]];
          [left; split; reflexivity | right; split; [lia | exact Hfalse]].
    + intros [= <- <-]. exists 0%nat, i. split; [lia |]. split; [reflexivity |].
      right. split; [lia |]. exists cv. split; assumption.
Qed.

(** A loop whose condition stays truthy uses all its rounds. *)
Lemma whileLoop_ceiling (Inv : Interpreter -> Prop) c b ln col :
  (forall j, Inv j ->
     exists cv j1 r j2,
       c j = Ok cv j1 /\ TypeConverter.toBoolean cv = true /\
       b j1 = Ok r j2 /\ Inv (setLastValue r j2)) ->
  forall n result i, Inv i ->
    exists r j,
      rounds n c b result i = Some (r, j) /\ Inv j
      /\ whileLoop n c b ln col result i = Ok r (warnLoop ln col j).
Proof.
  intros Hstep. induction n as [|n IH]; intros result i Hi.
  - exists result, i. repeat split; assumption.
  - destruct (Hstep i Hi) as (cv & j1 & r & j2 & Hc & Hcv & Hb & Hinv).
    destruct (IH r _ Hinv) as (r' & j & Hr & Hj & Hw).
    exists r', j. cbn [rounds whileLoop].
    rewrite Hc, Hcv, Hb. split; [exact Hr |]. split; [exact Hj |].
    unfold bind at 1. rewrite Hc, Hcv. cbn [negb].
    unfold bind at 1. rewrite Hb. exact Hw.
Qed.

(** C3: a while loop that returns has run its body at most 10000 times;
    a loop whose condition is truthy at every round runs its body exactly
    10000 times, returns the value of the last body (which is also
    [lastValue]), records exactly one Loop warning and leaves the recorded
    errors as they were; recording the Loop condition never throws. *)
Theorem C3_while_ceiling (c : Expression) (b : Statement) (ln col : Z)
  (i : Interpreter) (Inv : Interpreter -> Prop) :
  Inv i ->
  (forall j, Inv j ->
     exists cv j1 r j2,
       visitExpression c j = Ok cv j1 /\ TypeConverter.toBoolean cv = true /\
       visitStatement b j1 = Ok r j2 /\ Inv (setLastValue r j2)) ->
  Z.of_nat maxLoopCount = 10000
  /\ (forall r' i', visitStatement (WhileStatement c b ln col) i = Ok r' i' ->
      exists k j,
        (k <= maxLoopCount)%nat /\
        rounds k (visitExpression c) (visitStatement b) (NUMBER 0%float) i
          = Some (r', j))
  /\ (forall msg lt mi h,
        handleLoopError msg lt mi ln col h
        = Ok tt (recordWarning
                   (getFormattedMessage
                      {| message := msg; line := ln; column := col;
                         detail := LoopError lt mi |}) h))
  /\ exists r j,
       rounds maxLoopCount (visitExpression c) (visitStatement b)
         (NUMBER 0%float) i = Some (r, j)
       /\ visitStatement (WhileStatement c b ln col) i
          = Ok r (warnLoop ln col j)
       /\ lastValue (warnLoop ln col j) = r
       /\ warnings (errorHandler (warnLoop ln col j))
          = warnings (errorHandler j) ++ [loopWarning ln col]
       /\ errors (errorHandler (warnLoop ln col j)) = errors (errorHandler j).
Proof.
  intros Hi Hstep. split; [reflexivity |]. split; [| split].
  - intros r' i' H. cbn [visitStatement] in H. unfold visitWhileStatement in H.
    destruct (whileLoop_bounded _ _ _ _ _ _ _ _ _ H) as (k & j & Hk & Hr & _).
    exists k, j. split; assumption.
  - reflexivity.
  - destruct (whileLoop_ceiling Inv _ _ ln col Hstep maxLoopCount
                (NUMBER 0%float) i Hi) as (r & j & Hr & _ & Hw).
    exists r, j. split; [exact Hr |]. split; [exact Hw |].
    split; [| split; reflexivity].
    cbn [warnLoop setErrorHandler lastValue].
    change maxLoopCount with (S (Z.to_nat 9999)) in Hr.
    exact (rounds_lastValue _ _ _ _ _ _ _ Hr).
Qed.

End WhileCeiling.

(** Witness for C3: the loop [while (1) 7] from the initial state. *)
Lemma C3_while_ceiling_witness :
  visitStatement (host := ReferenceHost.host)
    (WhileStatement (NumberLiteral (str "1"))
       (ExpressionStatement (NumberLiteral (str "7"))) 1 0)
    (newInterpreter emptyContext (handlerWith true 10))
  = Ok (NUMBER 7%float)
       (warnLoop 1 0
          (setLastValue (NUMBER 7%float)
             (newInterpreter emptyContext (handlerWith true 10)))).
Proof.
  destruct (C3_while_ceiling (host := ReferenceHost.host)
              (NumberLiteral (str "1"))
              (ExpressionStatement (NumberLiteral (str "7"))) 1 0
              (newInterpreter emptyContext (handlerWith true 10))
              (fun _ => True) I)
    as (_ & _ & _ & r & j & Hr & Hw & _).
  - intros j _. exists (NUMBER 1%float), j, (NUMBER 7%float), j.
    repeat split.
  - vm_compute in Hr. injection Hr as <- <-. exact Hw.
Defined.

(** ** C4: short-circuit evaluation *)

Section ShortCircuit.
Context {host : Host}.

Lemma toBoolean_one : TypeConverter.toBoolean (NUMBER 1%float) = true.
Proof. reflexivity. Qed.

Lemma toBoolean_zero : TypeConverter.toBoolean (NUMBER 0%float) = false.
Proof. reflexivity. Qed.

Lemma logicalOrLoop_truthy (rest : list Visit) i :
  logicalOrLoop rest (NUMBER 1%float) i = Ok (NUMBER 1%float) i.
Proof. destruct rest; cbn [logicalOrLoop]; [| rewrite toBoolean_one]; reflexivity. Qed.

Lemma logicalAndLoop_falsy (rest : list Visit) i :
  logicalAndLoop rest (NUMBER 0%float) i = Ok (NUMBER 0%float) i.
Proof. destruct rest; cbn [logicalAndLoop]; [| rewrite toBoolean_zero]; reflexivity. Qed.

Lemma logicalOrLoop_short_circuit pre e post result i i1 v i2 :
  TypeConverter.toBoolean result = false ->
  evaluatedAll falsy pre i i1 ->
  visitExpression e i1 = Ok v i2 -> TypeConverter.toBoolean v = true ->
  logicalOrLoop (map visitExpression (pre ++ e :: post)) result i
  = Ok (NUMBER 1%float) i2.
Proof.
  intros Hres Hpre He Hv. revert result Hres.
  induction Hpre as [i|x es i w i' j Hx Hw _ IH]; intros result Hres;
    cbn [app map logicalOrLoop]; rewrite Hres.
  - rewrite (bind_Ok _ _ _ _ _ He), Hv. cbn [orb boolNumber].
    apply logicalOrLoop_truthy.
  - rewrite (bind_Ok _ _ _ _ _ Hx).
    unfold falsy in Hw. apply negb_true_iff in Hw. rewrite Hw.
    cbn [orb boolNumber]. apply (IH He). exact toBoolean_zero.
Qed.

Lemma logicalAndLoop_short_circuit pre e post result i i1 v i2 :
  TypeConverter.toBoolean result = true ->
  evaluatedAll truthy pre i i1 ->
  visitExpression e i1 = Ok v i2 -> TypeConverter.toBoolean v = false ->
  logicalAndLoop (map visitExpression (pre ++ e :: post)) result i
  = Ok (NUMBER 0%float) i2.
Proof.
  intros Hres Hpre He Hv. revert result Hres.
  induction Hpre as [i|x es i w i' j Hx Hw _ IH]; intros result Hres;
    cbn [app map logicalAndLoop]; rewrite Hres; cbn [negb].
  - rewrite (bind_Ok _ _ _ _ _ He), Hv. cbn [andb boolNumber].
    apply logicalAndLoop_falsy.
  - rewrite (bind_Ok _ _ _ _ _ Hx).
    unfold truthy in Hw. rewrite Hw.
    cbn [andb boolNumber]. apply (IH He). exact toBoolean_one.
Qed.

(** C4: in a chain of at least two operands, once an operand of a
    logical-or chain evaluates to a truthy value (those before it being
    falsy), the chain returns [Number 1] in the state reached right after
    that operand, whatever the remaining operands are: they are not
    evaluated.  Dually for logical-and, a falsy operand and [Number 0].
    The scripts [1 || (1/0)] and [0 && (1/0)] run to "1" and "0" with no
    warning and no error, on a host that reads and prints 0 and 1 as
    ECMAScript does. *)
Theorem C4_short_circuit (first e : Expression)
  (rest pre post : list Expression) (i i1 i2 : Interpreter)
  (v : DicenicValue) (options : ScriptOptions) :
  first :: rest = pre ++ e :: post -> rest <> [] ->
  visitExpression e i1 = Ok v i2 ->
  parseFloat (str "1") = 1%float -> parseFloat (str "0") = 0%float ->
  numberToString 1%float = str "1" -> numberToString 0%float = str "0" ->
  (evaluatedAll falsy pre i i1 -> TypeConverter.toBoolean v = true ->
   visitExpression (LogicalOrExpression first rest) i
   = Ok (NUMBER 1%float) i2)
  /\ (evaluatedAll truthy pre i i1 -> TypeConverter.toBoolean v = false ->
      visitExpression (LogicalAndExpression first rest) i
      = Ok (NUMBER 0%float) i2)
  /\ executeScript
       {| tree := [ExpressionStatement
                     (LogicalOrExpression (NumberLiteral (str "1"))
                        [oneOverZero])];
          hasErrors := false |} options
     = Normal {| Script.result := JSString (str "1"); Script.errors := [];
                 Script.warnings := []; Script.success := true |}
  /\ executeScript
       {| tree := [ExpressionStatement
                     (LogicalAndExpression (NumberLiteral (str "0"))
                        [oneOverZero])];
          hasErrors := false |} options
     = Normal {| Script.result := JSString (str "0"); Script.errors := [];
                 Script.warnings := []; Script.success := true |}.
Proof.
  intros Hops Hrest He Hone Hzero Hs1 Hs0.
  assert (Hlit1 : forall j, visitExpression (NumberLiteral (str "1")) j
                            = Ok (NUMBER 1%float) j)
    by (intros j; apply visitNumberLiteral_value; [exact Hone | reflexivity]).
  assert (Hlit0 : forall j, visitExpression (NumberLiteral (str "0")) j
                            = Ok (NUMBER 0%float) j)
    by (intros j; apply visitNumberLiteral_value; [exact Hzero | reflexivity]).
  split; [| split; [| split]].
  - intros Hpre Hv. cbn [visitExpression]. unfold visitLogicalOrExpression.
    destruct Hpre as [i|x es i w i' j Hx Hw Hes].
    + cbn [app] in Hops. injection Hops as -> ->.
      rewrite (bind_Ok _ _ _ _ _ He).
      destruct post as [|p post]; [contradiction |].
      cbn [map logicalOrLoop]. now rewrite Hv.
    + cbn [app] in Hops. injection Hops as -> ->.
      rewrite (bind_Ok _ _ _ _ _ Hx).
      apply (logicalOrLoop_short_circuit es e post w i' j v i2);
        try assumption.
      unfold falsy in Hw. now apply negb_true_iff in Hw.
  - intros Hpre Hv. cbn [visitExpression]. unfold visitLogicalAndExpression.
    destruct Hpre as [i|x es i w i' j Hx Hw Hes].
    + cbn [app] in Hops. injection Hops as -> ->.
      rewrite (bind_Ok _ _ _ _ _ He).
      destruct post as [|p post]; [contradiction |].
      cbn [map logicalAndLoop]. now rewrite Hv.
    + cbn [app] in Hops. injection Hops as -> ->.
      rewrite (bind_Ok _ _ _ _ _ Hx).
      apply (logicalAndLoop_short_circuit es e post w i' j v i2);
        assumption.
  - rewrite executeScript_unfold, interpret_expression.
    cbn [visitExpression]. unfold visitLogicalOrExpression.
    rewrite (bind_Ok _ _ _ _ _ (Hlit1 _)).
    cbn [map logicalOrLoop]. rewrite toBoolean_one.
    cbn [ret]. rewrite toString_NUMBER, Hs1. reflexivity.
  - rewrite executeScript_unfold, interpret_expression.
    cbn [visitExpression]. unfold visitLogicalAndExpression.
    rewrite (bind_Ok _ _ _ _ _ (Hlit0 _)).
    cbn [map logicalAndLoop]. rewrite toBoolean_zero.
    cbn [negb ret]. rewrite toString_NUMBER, Hs0. reflexivity.
Qed.

End ShortCircuit.

(** Witness for C4: the two scripts on the reference host. *)
Lemma C4_short_circuit_witness :
  executeScript (host := ReferenceHost.host)
    {| tree := [ExpressionStatement
                  (LogicalOrExpression (NumberLiteral (str "1"))
                     [oneOverZero])];
       hasErrors := false |}
    {| context_opt := None; errorConfig_opt := None;
       enableErrorRecovery_opt := None |}
  = Normal {| Script.result := JSString (str "1"); Script.errors := [];
              Script.warnings := []; Script.success := true |}
  /\ executeScript (host := ReferenceHost.host)
       {| tree := [ExpressionStatement
                     (LogicalAndExpression (NumberLiteral (str "0"))
                        [oneOverZero])];
          hasErrors := false |}
       {| context_opt := None; errorConfig_opt := None;
          enableErrorRecovery_opt := None |}
     = Normal {| Script.result := JSString (str "0"); Script.errors := [];
                 Script.warnings := []; Script.success := true |}.
Proof.
  refine (proj2 (proj2
    (C4_short_circuit (host := ReferenceHost.host)
       (NumberLiteral (str "1")) (NumberLiteral (str "1"))
       [oneOverZero] [] [oneOverZero]
       (newInterpreter emptyContext (handlerWith true 10))
       (newInterpreter emptyContext (handlerWith true 10))
       (newInterpreter emptyContext (handlerWith true 10))
       (NUMBER 1%float)
       {| context_opt := None; errorConfig_opt := None;
          enableErrorRecovery_opt := None |}
       eq_refl _ eq_refl eq_refl eq_refl eq_refl eq_refl))).
  discriminate.
Defined.

(** ** C5: the entry point and thrown errors *)

Section EntryPoint.
Context {host : Host}.

(** C5 (amended): [executeScript] never throws.  It always returns a
    structured result: the syntax failure when the parser reported errors,
    the text of the last value with the recorded diagnostics when the
    evaluation returned, and, whenever the evaluation threw (recovery
    disabled, error count past [maxErrors], or any other thrown error),
    the failure record built by its [catch] from the message of the thrown
    error alone. *)
Theorem C5_executeScript_always_returns (parsed : ParseOutcome)
  (options : ScriptOptions) :
  exists r : Script.ScriptResult,
    executeScript parsed options = Normal r
    /\ r = (if hasErrors parsed then syntaxFailure
            else match interpret (tree parsed) (initialInterpreter options) with
                 | Ok text i => resultOf text (errorHandler i)
                 | Throw error _ => failureOf error
                 end).
Proof.
  destruct parsed as [parseTree [|]].
  - eexists. split; reflexivity.
  - eexists. split; [apply executeScript_unfold | reflexivity].
Qed.

End EntryPoint.

(** C5, as stated, fails.  With recovery explicitly disabled, the script
    [$rname = 1] makes the evaluation throw, yet the entry point does not
    throw at the call site: it returns a failure record.  And below the
    entry point, [interpret] throws on the script [5 = 3] although
    recovery is enabled and no error has been recorded. *)
Lemma C5_no_throw_at_the_call_site :
  executeScript (host := ReferenceHost.host)
    {| tree := [deniedWrite]; hasErrors := false |} recoveryDisabled
  = Normal {| Script.result := JSString [];
              Script.errors :=
                [str "Cannot write to read-only variable: $rname"];
              Script.warnings := []; Script.success := false |}
  /\ exists i',
       interpret (host := ReferenceHost.host) [fiveAssignedThree]
         (initialInterpreter defaultOptions)
       = Throw invalidLeftHandSide i'
       /\ enableRecovery (config (errorHandler i')) = true
       /\ errors (errorHandler i') = [].
Proof.
  split; [vm_compute; reflexivity |].
  eexists. split; [vm_compute; reflexivity | split; reflexivity].
Qed.

(** ** Loops over operands and statements *)

Section Loops.
Context {host : Host}.

Lemma statementsLoop_app (a b : list Visit) result i :
  statementsLoop (a ++ b) result i =
  match statementsLoop a result i with
  | Ok r j => statementsLoop b r j
  | Throw e j => Throw e j
  end.
Proof.
  revert result i. induction a as [|s a IH]; intros result i;
    cbn [app statementsLoop]; [reflexivity |].
  unfold bind, modify. destruct (s i) as [r j|e j]; [apply IH | reflexivity].
Qed.

Lemma additiveLoop_app (a b : list (Operator * Visit)) result i :
  additiveLoop (a ++ b) result i
  = match additiveLoop a result i with
    | Ok r j => additiveLoop b r j
    | Throw e j => Throw e j
    end.
Proof.
  revert result i. induction a as [|[operator operand] a IH]; intros result i;
    cbn [app additiveLoop]; [reflexivity |].
  unfold bind. destruct (operand i) as [w i1|]; [| reflexivity].
  match goal with
  | |- match ?x with Ok _ _ => _ | Throw _ _ => _ end = _ => destruct x
  end; [apply IH | reflexivity].
Qed.

Lemma multiplicativeLoop_app (a b : list (Operator * Visit)) result i :
  multiplicativeLoop (a ++ b) result i
  = match multiplicativeLoop a result i with
    | Ok r j => multiplicativeLoop b r j
    | Throw e j => Throw e j
    end.
Proof.
  revert result i. induction a as [|[operator operand] a IH]; intros result i;
    cbn [app multiplicativeLoop]; [reflexivity |].
  unfold bind. destruct (operand i) as [w i1|]; [| reflexivity].
  match goal with
  | |- match ?x with Ok _ _ => _ | Throw _ _ => _ end = _ => destruct x
  end; [apply IH | reflexivity].
Qed.

Lemma relationalLoop_app (a b : list (Operator * Visit)) result i :
  relationalLoop (a ++ b) result i
  = match relationalLoop a result i with
    | Ok r j => relationalLoop b r j
    | Throw e j => Throw e j
    end.
Proof.
  revert result i. induction a as [|[operator operand] a IH]; intros result i;
    cbn [app relationalLoop]; [reflexivity |].
  unfold bind. destruct (operand i) as [w i1|]; [apply IH | reflexivity].
Qed.

Lemma equalityLoop_app (a b : list (Operator * Visit)) result i :
  equalityLoop (a ++ b) result i
  = match equalityLoop a result i with
    | Ok r j => equalityLoop b r j
    | Throw e j => Throw e j
    end.
Proof.
  revert result i. induction a as [|[operator operand] a IH]; intros result i;
    cbn [app equalityLoop]; [reflexivity |].
  unfold bind. destruct (operand i) as [w i1|]; [apply IH | reflexivity].
Qed.

(** The rounds a loop has made are behind it. *)
Lemma whileLoop_rounds n m c b ln col result i r j :
  rounds n c b result i = Some (r, j) ->
  whileLoop (n + m) c b ln col result i = whileLoop m c b ln col r j.
Proof.
  revert result i. induction n as [|n IH]; intros result i; cbn [rounds].
  - intros [= <- <-]. reflexivity.
  - destruct (c i) as [cv i1|] eqn:Hc; [| discriminate].
    destruct (TypeConverter.toBoolean cv) eqn:Hcv; [| discriminate].
    destruct (b i1) as [r' i2|] eqn:Hb; [| discriminate].
    intros H. cbn [Nat.add whileLoop].
    unfold bind at 1. rewrite Hc, Hcv. cbn [negb].
    unfold bind at 1. rewrite Hb.
    unfold bind at 1. cbn [modify]. apply IH, H.
Qed.

End Loops.

(** ** C10: assignment to something that is not a variable *)

Section Propagation.
Context {host : Host}.

Lemma logicalOrLoop_throws pre x post result i j error j' :
  TypeConverter.toBoolean result = false ->
  evaluatedAll falsy pre i j ->
  visitExpression x j = Throw error j' ->
  logicalOrLoop (map visitExpression (pre ++ x :: post)) result i
  = Throw error j'.
Proof.
  intros Hres Hpre Hx. revert result Hres.
  induction Hpre as [i|y es i w i' j Hy Hw _ IH]; intros result Hres;
    cbn [app map logicalOrLoop]; rewrite Hres.
  - now rewrite (bind_Throw _ _ _ _ _ Hx).
  - rewrite (bind_Ok _ _ _ _ _ Hy).
    unfold falsy in Hw. apply negb_true_iff in Hw. rewrite Hw.
    cbn [orb boolNumber]. apply (IH Hx). reflexivity.
Qed.

Lemma logicalAndLoop_throws pre x post result i j error j' :
  TypeConverter.toBoolean result = true ->
  evaluatedAll truthy pre i j ->
  visitExpression x j = Throw error j' ->
  logicalAndLoop (map visitExpression (pre ++ x :: post)) result i
  = Throw error j'.
Proof.
  intros Hres Hpre Hx. revert result Hres.
  induction Hpre as [i|y es i w i' j Hy Hw _ IH]; intros result Hres;
    cbn [app map logicalAndLoop]; rewrite Hres; cbn [negb].
  - now rewrite (bind_Throw _ _ _ _ _ Hx).
  - rewrite (bind_Ok _ _ _ _ _ Hy).
    unfold truthy in Hw. rewrite Hw.
    cbn [andb boolNumber]. apply (IH Hx). reflexivity.
Qed.

(** An error thrown where the evaluation has come to is thrown by the
    whole expression, in the same state: no expression catches what a
    sub-expression throws. *)
Lemma reachesE_throws e i e' i' error j :
  reachesE e i e' i' ->
  visitExpression e' i' = Throw error j ->
  visitExpression e i = Throw error j.
Proof.
  intros Hreach Hthrow.
  induction Hreach as
    [ e i
    | e i e' i' _ IH
    | target op value i e' i' _ IH
    | op operand i e' i' _ IH
    | first rest i e' i' _ IH
    | first pre o x post i v j0 e' i' Hpre _ IH
    | first rest i e' i' _ IH
    | first pre o x post i v j0 e' i' Hpre _ IH
    | first rest i e' i' _ IH
    | first pre o x post i v j0 e' i' Hpre _ IH
    | first rest i e' i' _ IH
    | first pre o x post i v j0 e' i' Hpre _ IH
    | first rest i e' i' _ IH
    | first pre x post i j0 e' i' Hpre _ IH
    | first rest i e' i' _ IH
    | first pre x post i j0 e' i' Hpre _ IH
    | c t f i e' i' _ IH
    | c t f i cv j0 e' i' Hc Hcv _ IH
    | c t f i cv j0 e' i' Hc Hcv _ IH ];
    try specialize (IH Hthrow).
  - exact Hthrow.
  - exact IH.
  - cbn [visitExpression]. unfold visitAssignmentExpression.
    now rewrite (bind_Throw _ _ _ _ _ IH).
  - cbn [visitExpression]. unfold visitUnaryExpression.
    now rewrite (bind_Throw _ _ _ _ _ IH).
  - cbn [visitExpression]. now rewrite (bind_Throw _ _ _ _ _ IH).
  - cbn [visitExpression] in *. unfold bind at 1. unfold bind at 1 in Hpre.
    destruct (visitExpression first i) as [r0 i0|]; [| discriminate Hpre].
    rewrite map_app, multiplicativeLoop_app, Hpre.
    cbn [map multiplicativeLoop]. now rewrite (bind_Throw _ _ _ _ _ IH).
  - cbn [visitExpression]. now rewrite (bind_Throw _ _ _ _ _ IH).
  - cbn [visitExpression] in *. unfold bind at 1. unfold bind at 1 in Hpre.
    destruct (visitExpression first i) as [r0 i0|]; [| discriminate Hpre].
    rewrite map_app, additiveLoop_app, Hpre.
    cbn [map additiveLoop]. now rewrite (bind_Throw _ _ _ _ _ IH).
  - cbn [visitExpression]. now rewrite (bind_Throw _ _ _ _ _ IH).
  - cbn [visitExpression] in *. unfold bind at 1. unfold bind at 1 in Hpre.
    destruct (visitExpression first i) as [r0 i0|]; [| discriminate Hpre].
    rewrite map_app, relationalLoop_app, Hpre.
    cbn [map relationalLoop]. now rewrite (bind_Throw _ _ _ _ _ IH).
  - cbn [visitExpression]. now rewrite (bind_Throw _ _ _ _ _ IH).
  - cbn [visitExpression] in *. unfold bind at 1. unfold bind at 1 in Hpre.
    destruct (visitExpression first i) as [r0 i0|]; [| discriminate Hpre].
    rewrite map_app, equalityLoop_app, Hpre.
    cbn [map equalityLoop]. now rewrite (bind_Throw _ _ _ _ _ IH).
  - cbn [visitExpression]. unfold visitLogicalAndExpression.
    now rewrite (bind_Throw _ _ _ _ _ IH).
  - cbn [visitExpression]. unfold visitLogicalAndExpression.
    inversion Hpre as [|y es i0 w i1 j1 Hy Hw Hes]; subst.
    rewrite (bind_Ok _ _ _ _ _ Hy).
    apply (logicalAndLoop_throws pre x post w i1 j0); assumption.
  - cbn [visitExpression]. unfold visitLogicalOrExpression.
    now rewrite (bind_Throw _ _ _ _ _ IH).
  - cbn [visitExpression]. unfold visitLogicalOrExpression.
    inversion Hpre as [|y es i0 w i1 j1 Hy Hw Hes]; subst.
    rewrite (bind_Ok _ _ _ _ _ Hy).
    apply (logicalOrLoop_throws pre x post w i1 j0); try assumption.
    unfold falsy in Hw. now apply negb_true_iff in Hw.
  - cbn [visitExpression]. unfold visitTernaryExpression.
    now rewrite (bind_Throw _ _ _ _ _ IH).
  - cbn [visitExpression]. unfold visitTernaryExpression.
    rewrite (bind_Ok _ _ _ _ _ Hc), Hcv. exact IH.
  - cbn [visitExpression]. unfold visitTernaryExpression.
    rewrite (bind_Ok _ _ _ _ _ Hc), Hcv. exact IH.
Qed.

(** The same through statements: neither [if], [while] nor a block
    catches what is thrown inside it. *)
Lemma reachesS_throws s i e' i' error j :
  reachesS s i e' i' ->
  visitExpression e' i' = Throw error j ->
  visitStatement s i = Throw error j.
Proof.
  intros Hreach Hthrow.
  induction Hreach as
    [ e i e' i' He
    | c t f i e' i' Hc
    | c t f i cv j0 e' i' Hc Hcv _ IH
    | c t f i cv j0 e' i' Hc Hcv _ IH
    | c b ln col k i r j0 e' i' Hk Hr Hc
    | c b ln col k i r j0 cv j1 e' i' Hk Hr Hc Hcv _ IH
    | pre s post i r j0 e' i' Hpre _ IH ];
    try specialize (IH Hthrow).
  - cbn [visitStatement]. exact (reachesE_throws _ _ _ _ _ _ He Hthrow).
  - cbn [visitStatement]. unfold visitIfStatement.
    now rewrite (bind_Throw _ _ _ _ _ (reachesE_throws _ _ _ _ _ _ Hc Hthrow)).
  - cbn [visitStatement]. unfold visitIfStatement.
    rewrite (bind_Ok _ _ _ _ _ Hc), Hcv. exact IH.
  - cbn [visitStatement]. unfold visitIfStatement.
    rewrite (bind_Ok _ _ _ _ _ Hc), Hcv. exact IH.
  - cbn [visitStatement]. unfold visitWhileStatement.
    replace maxLoopCount with (k + S (maxLoopCount - S k))%nat by lia.
    rewrite (whileLoop_rounds _ _ _ _ _ _ _ _ _ _ Hr). cbn [whileLoop].
    now rewrite (bind_Throw _ _ _ _ _ (reachesE_throws _ _ _ _ _ _ Hc Hthrow)).
  - cbn [visitStatement]. unfold visitWhileStatement.
    replace maxLoopCount with (k + S (maxLoopCount - S k))%nat by lia.
    rewrite (whileLoop_rounds _ _ _ _ _ _ _ _ _ _ Hr). cbn [whileLoop].
    rewrite (bind_Ok _ _ _ _ _ Hc), Hcv. cbn [negb].
    now rewrite (bind_Throw _ _ _ _ _ IH).
  - cbn [visitStatement]. unfold visitBlock.
    rewrite map_app, statementsLoop_app, Hpre. cbn [map statementsLoop].
    now rewrite (bind_Throw _ _ _ _ _ IH).
Qed.

Lemma reachesProgram_throws parseTree i e' i' error j :
  reachesProgram parseTree i e' i' ->
  visitExpression e' i' = Throw error j ->
  interpret parseTree i = Throw error j.
Proof.
  intros [pre s post i0 r j0 e0 i0' Hpre Hs] Hthrow.
  rewrite interpret_unfold, map_app, statementsLoop_app, Hpre.
  cbn [map statementsLoop].
  now rewrite (bind_Throw _ _ _ _ _ (reachesS_throws _ _ _ _ _ _ Hs Hthrow)).
Qed.

End Propagation.

Section InvalidTarget.
Context {host : Host}.

Lemma performAssignment_invalid target rightValue operator i :
  isVariableNode target = false ->
  performAssignment target rightValue operator i
  = Throw invalidLeftHandSide i.
Proof.
  intros Ht. unfold performAssignment, assignmentValue, storeAssignment.
  destruct target; try discriminate Ht; destruct operator; reflexivity.
Qed.

(** C10: an assignment whose left-hand side is neither an identifier nor
    a special variable never returns, in whatever state it is evaluated.
    Wherever the run comes to it (at the top of the program, in a branch
    of an [if], in the condition or the body of a [while], in a block, in
    an operand of an enclosing expression), once its right-hand side has
    been evaluated it throws "Invalid left-hand side in assignment",
    whatever the configuration; nothing in the interpreter catches it:
    [interpret] throws that error in that state, and the entry point
    returns the failure record holding that one message: result "", no
    warnings, success false, whatever was recorded earlier in the run. *)
Theorem C10_invalid_assignment_target (parseTree : Program)
  (target value : Expression) (operator : AssignmentOperator)
  (options : ScriptOptions) (rightValue : DicenicValue)
  (i0 i1 : Interpreter) :
  isVariableNode target = false ->
  reachesProgram parseTree (initialInterpreter options)
    (AssignmentExpression target operator value) i0 ->
  visitExpression value i0 = Ok rightValue i1 ->
  visitExpression (AssignmentExpression target operator value) i0
  = Throw invalidLeftHandSide i1
  /\ (forall j,
       returns (visitExpression
                  (AssignmentExpression target operator value) j) = false)
  /\ interpret parseTree (initialInterpreter options)
     = Throw invalidLeftHandSide i1
  /\ executeScript {| tree := parseTree; hasErrors := false |} options
     = Normal {| Script.result := JSString [];
                 Script.errors := [str "Invalid left-hand side in assignment"];
                 Script.warnings := [];
                 Script.success := false |}.
Proof.
  intros Ht Hreach Hvalue.
  assert (Hthrow :
    visitExpression (AssignmentExpression target operator value) i0
    = Throw invalidLeftHandSide i1).
  { cbn [visitExpression]. unfold visitAssignmentExpression.
    rewrite (bind_Ok _ _ _ _ _ Hvalue).
    apply performAssignment_invalid. exact Ht. }
  pose proof (reachesProgram_throws _ _ _ _ _ _ Hreach Hthrow) as Hrun.
  split; [exact Hthrow |]. split.
  { intros j. cbn [visitExpression].
    unfold visitAssignmentExpression, bind.
    destruct (visitExpression value j); [| reflexivity].
    now rewrite performAssignment_invalid. }
  split; [exact Hrun |].
  rewrite executeScript_unfold, Hrun. reflexivity.
Qed.

End InvalidTarget.

(** Witness for C10: the script [$rname = 1] followed by
    [if (1) { while (1) { 0 || 1 + (5 = 3) } }], with recovery enabled;
    the VariableAccess error recorded by the first statement is not in
    the result. *)
Lemma C10_invalid_assignment_target_witness :
  executeScript (host := ReferenceHost.host)
    {| tree := buriedAssignment; hasErrors := false |} defaultOptions
  = Normal {| Script.result := JSString [];
              Script.errors := [str "Invalid left-hand side in assignment"];
              Script.warnings := [];
              Script.success := false |}.
Proof.
  assert (Hreach : exists i0,
    reachesProgram (host := ReferenceHost.host) buriedAssignment
      (initialInterpreter defaultOptions) fiveIsThree i0
    /\ visitExpression (host := ReferenceHost.host)
         (NumberLiteral (str "3")) i0 = Ok (NUMBER 3%float) i0).
  { eexists. split; [| vm_compute; reflexivity].
    unfold buriedAssignment.
    eapply (reaches_program_statement [deniedWrite] _ []);
      [vm_compute; reflexivity |].
    eapply reaches_if_then; [vm_compute; reflexivity | reflexivity |].
    eapply (reaches_block_statement [] _ []); [reflexivity |].
    eapply (reaches_while_body _ _ _ _ 0);
      [unfold maxLoopCount; lia | reflexivity | vm_compute; reflexivity
      | reflexivity |].
    eapply (reaches_block_statement [] _ []); [reflexivity |].
    apply reaches_expression_statement.
    eapply (reaches_or_operand _ [] _ []).
    { eapply evaluatedAll_cons;
        [vm_compute; reflexivity | reflexivity | apply evaluatedAll_nil]. }
    eapply (reaches_additive_operand _ [] PLUS _ []);
      [vm_compute; reflexivity |].
    apply reaches_parenthesized. apply reaches_here. }
  destruct Hreach as (i0 & Hreach & Hvalue).
  exact (proj2 (proj2 (proj2
    (C10_invalid_assignment_target (host := ReferenceHost.host)
       buriedAssignment (NumberLiteral (str "5")) (NumberLiteral (str "3"))
       ASSIGN defaultOptions (NUMBER 3%float) i0 i0 eq_refl Hreach Hvalue)))).
Defined.

(** ** Expressions never touch [lastValue] *)

Lemma keepsLastValue_ret {A} (a : A) : keepsLastValue (ret a).
Proof. intros i. reflexivity. Qed.

Lemma keepsLastValue_throw {A} e : keepsLastValue (@throw _ A e).
Proof. intros i. reflexivity. Qed.

Lemma keepsLastValue_get : keepsLastValue (@get Interpreter).
Proof. intros i. reflexivity. Qed.

Lemma keepsLastValue_bind {A B} (m : M Interpreter A)
  (f : A -> M Interpreter B) :
  keepsLastValue m -> (forall a, keepsLastValue (f a)) ->
  keepsLastValue (bind m f).
Proof.
  intros Hm Hf i. unfold bind. specialize (Hm i).
  destruct (m i) as [a i'|e i']; cbn [final_state] in *;
    [rewrite Hf; exact Hm | exact Hm].
Qed.

Lemma keepsLastValue_modify (f : Interpreter -> Interpreter) :
  (forall i, lastValue (f i) = lastValue i) -> keepsLastValue (modify f).
Proof. intros Hf i. cbn. apply Hf. Qed.

Lemma keepsLastValue_onErrorHandler {A} (m : M ErrorHandler A) :
  keepsLastValue (onErrorHandler m).
Proof.
  intros i. unfold onErrorHandler, zoom.
  destruct (m (errorHandler i)); reflexivity.
Qed.

Lemma keepsLastValue_onRandom {A} (m : M nat A) : keepsLastValue (onRandom m).
Proof.
  intros i. unfold onRandom, zoom. destruct (m (randomDraws i)); reflexivity.
Qed.

Lemma keepsLastValue_readContext {A}
  (f : ExecutionContextData -> Completion A) :
  keepsLastValue (readContext f).
Proof. intros i. unfold readContext. destruct (f (context i)); reflexivity. Qed.

Lemma keepsLastValue_tryCatch {A} (m : M Interpreter A)
  (h : Thrown -> M Interpreter A) :
  keepsLastValue m -> (forall e, keepsLastValue (h e)) ->
  keepsLastValue (tryCatch m h).
Proof.
  intros Hm Hh i. unfold tryCatch. specialize (Hm i).
  destruct (m i) as [a i'|e i']; cbn [final_state] in *;
    [exact Hm | rewrite Hh; exact Hm].
Qed.

Create HintDb frame.
#[export] Hint Resolve keepsLastValue_ret keepsLastValue_throw
  keepsLastValue_get keepsLastValue_onErrorHandler keepsLastValue_onRandom
  keepsLastValue_readContext : frame.

Section LastValueFrame.
Context {host : Host}.

Ltac frame_step :=
  first
    [ apply keepsLastValue_bind; [| intros ? ]
    | apply keepsLastValue_modify; intros; reflexivity
    | solve [auto with frame] ].

Lemma keepsLastValue_performArithmeticOperation left right operator :
  keepsLastValue (performArithmeticOperation left right operator).
Proof.
  intros i. now rewrite performArithmeticOperation_state.
Qed.

Lemma keepsLastValue_assignmentValue target rightValue operator :
  keepsLastValue (assignmentValue target rightValue operator).
Proof.
  unfold assignmentValue.
  destruct operator; try solve [auto with frame];
    (frame_step; [| apply keepsLastValue_performArithmeticOperation ]);
    destruct target; try solve [auto with frame];
    try (destruct (wellFormedSpecial _); solve [auto with frame]);
    repeat frame_step.
Qed.

Lemma keepsLastValue_storeAssignment target finalValue :
  keepsLastValue (storeAssignment target finalValue).
Proof.
  unfold storeAssignment.
  destruct target; try solve [auto with frame | repeat frame_step].
  destruct (wellFormedSpecial _); [| auto with frame].
  destruct (negb _); [repeat frame_step |].
  frame_step; [auto with frame |].
  destruct (setSpecialVariable _ _ _ _); repeat frame_step.
Qed.

Lemma keepsLastValue_additiveLoop rest :
  Forall (fun p => keepsLastValue (snd p)) rest ->
  forall result, keepsLastValue (additiveLoop rest result).
Proof.
  induction 1 as [|[operator operand] rest Hx _ IH]; intros result;
    cbn [additiveLoop snd] in *.
  - auto with frame.
  - frame_step; [exact Hx |]. frame_step; [| apply IH].
    destruct operator; auto with frame;
      apply keepsLastValue_performArithmeticOperation.
Qed.

Lemma keepsLastValue_multiplicativeLoop rest :
  Forall (fun p => keepsLastValue (snd p)) rest ->
  forall result, keepsLastValue (multiplicativeLoop rest result).
Proof.
  induction 1 as [|[operator operand] rest Hx _ IH]; intros result;
    cbn [multiplicativeLoop snd] in *.
  - auto with frame.
  - frame_step; [exact Hx |]. frame_step; [| apply IH].
    destruct operator; auto with frame;
      apply keepsLastValue_performArithmeticOperation.
Qed.

Lemma keepsLastValue_relationalLoop rest :
  Forall (fun p => keepsLastValue (snd p)) rest ->
  forall result, keepsLastValue (relationalLoop rest result).
Proof.
  induction 1 as [|[operator operand] rest Hx _ IH]; intros result;
    cbn [relationalLoop snd] in *.
  - auto with frame.
  - frame_step; [exact Hx | apply IH].
Qed.

Lemma keepsLastValue_equalityLoop rest :
  Forall (fun p => keepsLastValue (snd p)) rest ->
  forall result, keepsLastValue (equalityLoop rest result).
Proof.
  induction 1 as [|[operator operand] rest Hx _ IH]; intros result;
    cbn [equalityLoop snd] in *.
  - auto with frame.
  - frame_step; [exact Hx | apply IH].
Qed.

Lemma keepsLastValue_logicalOrLoop rest :
  Forall keepsLastValue rest ->
  forall result, keepsLastValue (logicalOrLoop rest result).
Proof.
  induction 1 as [|operand rest Hx _ IH]; intros result; cbn [logicalOrLoop].
  - auto with frame.
  - destruct (TypeConverter.toBoolean result); [auto with frame |].
    frame_step; [exact Hx | apply IH].
Qed.

Lemma keepsLastValue_logicalAndLoop rest :
  Forall keepsLastValue rest ->
  forall result, keepsLastValue (logicalAndLoop rest result).
Proof.
  induction 1 as [|operand rest Hx _ IH]; intros result; cbn [logicalAndLoop].
  - auto with frame.
  - destruct (negb _); [auto with frame |].
    frame_step; [exact Hx | apply IH].
Qed.

Lemma keepsLastValue_visitExpression e : keepsLastValue (visitExpression e).
Proof.
  induction e using Expression_nested_ind; cbn [visitExpression].
  - unfold visitNumberLiteral. auto with frame.
  - unfold visitStringLiteral. repeat frame_step.
  - unfold visitDiceExpression. apply keepsLastValue_tryCatch;
      [auto with frame | intros e; repeat frame_step].
  - unfold visitSpecialVariable.
    destruct (wellFormedSpecial _); auto with frame.
  - unfold visitIdentifier. repeat frame_step.
  - assumption.
  - unfold visitAssignmentExpression, performAssignment.
    frame_step; [assumption |]. frame_step.
    + apply keepsLastValue_assignmentValue.
    + apply keepsLastValue_storeAssignment.
  - unfold visitUnaryExpression. frame_step; [assumption |].
    destruct op; auto with frame.
  - frame_step; [assumption |].
    apply keepsLastValue_multiplicativeLoop, Forall_pairs_visit. assumption.
  - frame_step; [assumption |].
    apply keepsLastValue_additiveLoop, Forall_pairs_visit. assumption.
  - frame_step; [assumption |].
    apply keepsLastValue_relationalLoop, Forall_pairs_visit. assumption.
  - frame_step; [assumption |].
    apply keepsLastValue_equalityLoop, Forall_pairs_visit. assumption.
  - unfold visitLogicalAndExpression. frame_step; [assumption |].
    apply keepsLastValue_logicalAndLoop, Forall_operands_visit. assumption.
  - unfold visitLogicalOrExpression. frame_step; [assumption |].
    apply keepsLastValue_logicalOrLoop, Forall_operands_visit. assumption.
  - unfold visitTernaryExpression. frame_step; [assumption |].
    destruct (TypeConverter.toBoolean _); assumption.
Qed.

End LastValueFrame.

(** ** C8: an if statement whose branch is not taken *)

Section IfWithoutElse.
Context {host : Host}.

(** C8 (amended): an if statement whose condition is falsy and which has
    no else clause evaluates to [Number 0] and does not itself touch
    [lastValue]; the loop over the statements of the program then stores
    that [Number 0] in [lastValue], so a script ending in such an if
    returns the text of 0, whatever the preceding statement returned. *)
Theorem C8_if_without_else (c : Expression) (t : Statement)
  (before : Program) (i i0 i1 : Interpreter) (r cv : DicenicValue) :
  statementsLoop (map visitStatement before) (NUMBER 0%float)
    (setLastValue (NUMBER 0%float) i) = Ok r i0 ->
  visitExpression c i0 = Ok cv i1 ->
  TypeConverter.toBoolean cv = false ->
  visitStatement (IfStatement c t None) i0 = Ok (NUMBER 0%float) i1
  /\ lastValue i1 = lastValue i0
  /\ interpret (before ++ [IfStatement c t None]) i
     = Ok (JSString (numberToString 0%float)) (setLastValue (NUMBER 0%float) i1).
Proof.
  intros Hbefore Hc Hcv.
  assert (Hif : visitStatement (IfStatement c t None) i0
                = Ok (NUMBER 0%float) i1).
  { cbn [visitStatement]. unfold visitIfStatement.
    rewrite (bind_Ok _ _ _ _ _ Hc), Hcv. reflexivity. }
  split; [exact Hif |]. split.
  - pose proof (keepsLastValue_visitExpression c i0) as H.
    rewrite Hc in H. exact H.
  - rewrite interpret_unfold, map_app, statementsLoop_app, Hbefore.
    cbn [map statementsLoop].
    rewrite (bind_Ok _ _ _ _ _ Hif). reflexivity.
Qed.

End IfWithoutElse.

(** C8, as stated, fails: the script [5] followed by [if (0) 7] returns
    "0", not the value "5" of the preceding statement. *)
Lemma C8_script_ending_in_untaken_if_returns_zero :
  executeScript (host := ReferenceHost.host)
    {| tree := [ExpressionStatement (NumberLiteral (str "5"));
                IfStatement (NumberLiteral (str "0"))
                  (ExpressionStatement (NumberLiteral (str "7"))) None];
       hasErrors := false |} defaultOptions
  = Normal {| Script.result := JSString (str "0"); Script.errors := [];
              Script.warnings := []; Script.success := true |}.
Proof. vm_compute. reflexivity. Qed.

(** Witness for C8: the same script. *)
Lemma C8_if_without_else_witness :
  interpret (host := ReferenceHost.host)
    ([ExpressionStatement (NumberLiteral (str "5"))] ++
     [IfStatement (NumberLiteral (str "0"))
        (ExpressionStatement (NumberLiteral (str "7"))) None])
    (initialInterpreter defaultOptions)
  = Ok (JSString (str "0"))
       (setLastValue (NUMBER 0%float)
          (setLastValue (NUMBER 5%float) (initialInterpreter defaultOptions))).
Proof.
  refine (proj2 (proj2
    (C8_if_without_else (host := ReferenceHost.host)
       (NumberLiteral (str "0"))
       (ExpressionStatement (NumberLiteral (str "7")))
       [ExpressionStatement (NumberLiteral (str "5"))]
       (initialInterpreter defaultOptions)
       (setLastValue (NUMBER 5%float) (initialInterpreter defaultOptions))
       (setLastValue (NUMBER 5%float) (initialInterpreter defaultOptions))
       (NUMBER 5%float) (NUMBER 0%float) _ _ eq_refl)));
    vm_compute; reflexivity.
Defined.

(** ** C7: classification of interpolation bodies *)

Section Interpolation.
Context {host : Host}.
Import StringInterpolator.

Lemma letters_exclude_marks (s : jsstring) :
  containsCJK s || startsWithUnderscore s = true ->
  allAsciiLetters s = false.
Proof.
  destruct s as [|c s]; [reflexivity |].
  intros H. unfold allAsciiLetters.
  destruct (forallb isAsciiLetter (c :: s)) eqn:Hall; [| reflexivity].
  exfalso. apply orb_true_iff in H. destruct H as [H | H].
  - unfold containsCJK in H. apply existsb_exists in H.
    destruct H as (x & Hin & Hx).
    rewrite forallb_forall in Hall. specialize (Hall x Hin).
    unfold isCJK in Hx. unfold isAsciiLetter in Hall.
    repeat match goal with
           | H : _ && _ = true |- _ => apply andb_true_iff in H; destruct H
           | H : _ || _ = true |- _ => apply orb_true_iff in H; destruct H
           | H : N.leb _ _ = true |- _ => apply N.leb_le in H
           end; lia.
  - cbn [startsWithUnderscore] in H. apply N.eqb_eq in H. subst c.
    cbn in Hall. discriminate Hall.
Qed.

Lemma isSpecialVariableExpression_iff (t : jsstring) :
  isSpecialVariableExpression t = true <->
  (2 <= length t)%nat /\ isPrefixLetter (charAt t 0) = true /\
  allAsciiLetters (substring_from t 1) = false /\
  (containsCJK (substring_from t 1) = true \/
   startsWithUnderscore (substring_from t 1) = true).
Proof.
  unfold isSpecialVariableExpression.
  destruct (Nat.ltb_spec (length t) 2) as [Hlt | Hge].
  { split; [discriminate | intros (H & _); lia]. }
  destruct (isPrefixLetter (charAt t 0)); cbn [negb];
    [| split; [discriminate | intros (_ & H & _); discriminate H]].
  destruct (allAsciiLetters (substring_from t 1)) eqn:Hall.
  { split; [discriminate | intros (_ & _ & H & _); discriminate H]. }
  rewrite orb_true_iff. split.
  - intros H. repeat split; assumption.
  - intros (_ & _ & _ & H). exact H.
Qed.

Lemma getSpecialVariable_prefixLetter (prefix name : jsstring)
  (c : ExecutionContextData) :
  isPrefixLetter prefix = true ->
  exists v, getSpecialVariable prefix name c = Normal v.
Proof.
  unfold isPrefixLetter. cbn [existsb]. rewrite !orb_true_iff.
  unfold jsstring_eqb. rewrite !bool_decide_eq_true.
  assert (Ha : getStorageByPrefix (str "a") c = Normal (attributes c))
    by reflexivity.
  assert (Hr : getStorageByPrefix (str "r") c = Normal (roleInfo c))
    by reflexivity.
  assert (Hs : getStorageByPrefix (str "s") c = Normal (systemInfo c))
    by reflexivity.
  assert (Hd : getStorageByPrefix (str "d") c = Normal (diceInfo c))
    by reflexivity.
  intros [-> | [-> | [-> | [-> | H]]]]; try discriminate H;
    unfold getSpecialVariable; rewrite ?Ha, ?Hr, ?Hs, ?Hd;
    match goal with |- context [?m !! name] => destruct (m !! name) end;
    eexists; reflexivity.
Qed.

(** C7 (amended): classification and resolution work on the trimmed body.
    The trimmed body is classified as a special-variable reference if and
    only if its length is at least 2, its first unit is one of a, r, s, d,
    and its remainder contains a unit in U+4E00..U+9FA5 or starts with an
    underscore (such a remainder is never made of ASCII letters only).  A
    body so classified resolves through [getSpecialVariable] on the first
    unit and the remainder; a body that is empty after trimming resolves
    to the empty string; any other body resolves through [getVariable] on
    the whole trimmed body. *)
Theorem C7_interpolation_classification (body : jsstring)
  (c : ExecutionContextData) :
  let t := trim body in
  let remainder := substring_from t 1 in
  (isSpecialVariableExpression t = true <->
   (2 <= length t)%nat /\ isPrefixLetter (charAt t 0) = true /\
   (containsCJK remainder = true \/ startsWithUnderscore remainder = true))
  /\ (containsCJK remainder = true \/ startsWithUnderscore remainder = true ->
      forallb isAsciiLetter remainder = false)
  /\ (isSpecialVariableExpression t = true ->
      exists v, getSpecialVariable (charAt t 0) remainder c = Normal v
                /\ evaluateExpression body c = TypeConverter.toString v)
  /\ (t = [] -> evaluateExpression body c = JSString [])
  /\ (t <> [] -> isSpecialVariableExpression t = false ->
      evaluateExpression body c = TypeConverter.toString (getVariable t c)).
Proof.
  cbv zeta. unfold evaluateExpression.
  generalize (trim body) as t. intros t.
  assert (Hmarks : containsCJK (substring_from t 1) = true \/
                   startsWithUnderscore (substring_from t 1) = true ->
                   allAsciiLetters (substring_from t 1) = false).
  { intros H. apply letters_exclude_marks. apply orb_true_iff. exact H. }
  split; [| split; [| split; [| split]]].
  - rewrite isSpecialVariableExpression_iff. split.
    + intros (H1 & H2 & _ & H4). repeat split; assumption.
    + intros (H1 & H2 & H4). repeat split; auto.
  - intros H. specialize (Hmarks H). unfold allAsciiLetters in Hmarks.
    destruct (substring_from t 1); [destruct H; discriminate | exact Hmarks].
  - intros Hs. pose proof (proj1 (isSpecialVariableExpression_iff t) Hs)
      as (Hlen & Hp & _ & _).
    destruct (getSpecialVariable_prefixLetter (charAt t 0)
                (substring_from t 1) c Hp) as [v Hv].
    exists v. split; [exact Hv |].
    destruct t as [|a [|b t']]; try (cbn in Hlen; lia).
    rewrite Hs. unfold evaluateSpecialVariable.
    change (substring_from (a :: b :: t') 1) with (b :: t') in *.
    rewrite Hv. reflexivity.
  - intros ->. reflexivity.
  - intros Hne Hs. destruct t as [|a t']; [contradiction |].
    rewrite Hs. reflexivity.
Qed.

End Interpolation.

(** C7, as stated, fails: the body [ab1] has length 3, starts with [a] and
    its remainder [b1] is not made of ASCII letters only, yet it is not
    classified as a special variable: it resolves to the local [ab1] (7),
    not to the attribute [b1] (9). *)
Lemma C7_body_ab1_resolves_as_local :
  specifiedSpecial (str "ab1") = true
  /\ StringInterpolator.isSpecialVariableExpression (str "ab1") = false
  /\ StringInterpolator.evaluateExpression (host := ReferenceHost.host)
       (str "ab1") contextAb1 = JSString (str "7")
  /\ ExecutionContext.getSpecialVariable (str "a") (str "b1") contextAb1
     = Normal (NUMBER 9%float)
  /\ StringInterpolator.interpolate (host := ReferenceHost.host)
       (str "x={$ab1}") contextAb1 = str "x=7".
Proof. vm_compute. repeat split. Qed.

(** ** C9: the payload of numbers *)

Section Payloads.
Context {host : Host}.

Lemma isNaN_guard (x : float) : isNaN (if isNaN x then 0%float else x) = false.
Proof. destruct (isNaN x) eqn:H; [reflexivity | exact H]. Qed.

(** C9 (amended): conversions never introduce NaN.  [toNumber] of a
    value tagged String is never NaN, and is 0 when its payload does not
    parse; [toNumber] of a value tagged Number or DiceResult is the
    payload when that is a number, and 0 when it is a text (as in
    [createDiceValue] of a dice text), so it is NaN only when the payload
    already is; a number literal never evaluates to NaN; a comparison
    yields 0 or 1.  Nothing is said of arithmetic: its results are stored
    as IEEE 754 computes them. *)
Theorem C9_conversions_never_produce_NaN (v : DicenicValue) (p : Payload)
  (s text : jsstring) (x : float) (left right : DicenicValue)
  (operator : Operator) (i : Interpreter) :
  isNaN (TypeConverter.toNumber {| type := TSTRING; value := p |}) = false
  /\ (isNaN (parseFloat (toText p)) = true ->
      TypeConverter.toNumber {| type := TSTRING; value := p |} = 0%float)
  /\ TypeConverter.toNumber (NUMBER x) = x
  /\ TypeConverter.toNumber (DICE_EXPRESSION x) = x
  /\ TypeConverter.toNumber {| type := TNUMBER; value := JSString s |}
     = 0%float
  /\ TypeConverter.toNumber (createDiceValue s) = 0%float
  /\ isNaN (TypeConverter.toNumber v)
     = match type v, value v with
       | TSTRING, _ => false
       | _, JSString _ => false
       | _, JSNumber n => isNaN n
       end
  /\ (exists y, visitNumberLiteral text i = Ok (NUMBER y) i /\ isNaN y = false)
  /\ (performComparisonOperation left right operator = NUMBER 1%float \/
      performComparisonOperation left right operator = NUMBER 0%float).
Proof.
  split; [apply isNaN_guard |]. split.
  { intros H. unfold TypeConverter.toNumber. cbn [type value]. now rewrite H. }
  do 4 (split; [reflexivity |]). split.
  { destruct v as [[] []]; unfold TypeConverter.toNumber; cbn [type value];
      first [reflexivity | apply isNaN_guard]. }
  split.
  { eexists. split; [reflexivity | apply isNaN_guard]. }
  unfold performComparisonOperation, boolNumber.
  match goal with |- context [if ?b then _ else _] => destruct b end;
    [left | right]; reflexivity.
Qed.

End Payloads.

(** C9, as stated, fails: from the finite local [x = 2^1023], the product
    [x * x] is a Number whose payload is Infinity, and the assignment
    [y = x * x - x * x] stores a Number whose payload is NaN. *)
Lemma C9_arithmetic_stores_infinity_and_NaN :
  PrimFloat.is_finite twoTo1023 = true
  /\ visitExpression (host := ReferenceHost.host) xTimesX interpreterWithX
     = Ok (NUMBER infinity) interpreterWithX
  /\ PrimFloat.is_finite infinity = false
  /\ exists i',
       visitExpression (host := ReferenceHost.host)
         (AssignmentExpression (Identifier (str "y")) ASSIGN
            (AdditiveExpression xTimesX [(MINUS, xTimesX)]))
         interpreterWithX
       = Ok (NUMBER nan) i'
       /\ variables (context i') !! str "y" = Some (NUMBER nan)
       /\ isNaN nan = true.
Proof.
  split; [reflexivity |]. split; [vm_compute; reflexivity |].
  split; [reflexivity |].
  eexists. split; [vm_compute; reflexivity |]. split; reflexivity.
Qed.

(* ================================================================== *)
(** * Further properties of the code *)
(* ================================================================== *)

Import SpecialVariablePrefix.

(** ** Lists and strings *)

(** Induction that steps by one or by two elements. *)
Lemma list_ind2 {A} (P : list A -> Prop) :
  P [] -> (forall x, P [x]) ->
  (forall x y l, P l -> P (y :: l) -> P (x :: y :: l)) ->
  forall l, P l.
Proof.
  intros H0 H1 H2 l. enough (P l /\ forall x, P (x :: l)) by tauto.
  induction l as [|y l [IH1 IH2]]; split; auto.
Qed.

Lemma fold_left_rev {A B} (f : A -> B -> A) (l : list B) (a : A) :
  fold_left f (rev l) a = fold_right (fun x y => f y x) a l.
Proof.
  induction l as [|x l IH]; [reflexivity |].
  cbn [rev fold_right]. rewrite fold_left_app. cbn [fold_left].
  rewrite IH. reflexivity.
Qed.

Lemma jsstring_eqb_true a b : jsstring_eqb a b = true <-> a = b.
Proof. unfold jsstring_eqb. apply bool_decide_eq_true. Qed.

Lemma startsWith_one c s q : startsWith (c :: s) [q] = N.eqb q c.
Proof. cbn [startsWith]. destruct s; apply andb_true_r. Qed.

Lemma substring_middle (pre middle rest : jsstring) :
  substring (pre ++ middle ++ rest) (length pre) (length pre + length middle)
  = middle.
Proof.
  unfold substring.
  replace (length pre + length middle - length pre)%nat with (length middle)
    by lia.
  rewrite drop_app_length, take_app_length. reflexivity.
Qed.

(** Literal replacement, one step at a time. *)
Lemma replaceAll2_step a b r c d s :
  replaceAll2 a b r (c :: d :: s)
  = if N.eqb c a && N.eqb d b then r ++ replaceAll2 a b r s
    else c :: replaceAll2 a b r (d :: s).
Proof. reflexivity. Qed.

Lemma replaceAll3_step a b c r x y z s :
  replaceAll3 a b c r (x :: y :: z :: s)
  = if N.eqb x a && N.eqb y b && N.eqb z c then r ++ replaceAll3 a b c r s
    else x :: replaceAll3 a b c r (y :: z :: s).
Proof. reflexivity. Qed.

(** A unit that cannot start a match is copied. *)
Lemma replaceAll2_skip a b r c s :
  N.eqb c a && match s with d :: _ => N.eqb d b | [] => false end = false ->
  replaceAll2 a b r (c :: s) = c :: replaceAll2 a b r s.
Proof.
  destruct s as [|d s]; [reflexivity |].
  rewrite replaceAll2_step. intros ->. reflexivity.
Qed.

Lemma replaceAll3_skip a b c r x s :
  N.eqb x a
  && match s with y :: z :: _ => N.eqb y b && N.eqb z c | _ => false end
  = false ->
  replaceAll3 a b c r (x :: s) = x :: replaceAll3 a b c r s.
Proof.
  destruct s as [|y [|z s]]; [reflexivity | reflexivity |].
  rewrite replaceAll3_step, <- andb_assoc. intros ->. reflexivity.
Qed.

Lemma replaceAll2_absent a b r s :
  forallb (fun c => negb (N.eqb c a)) s = true -> replaceAll2 a b r s = s.
Proof.
  induction s as [|c s IH]; [reflexivity |]. cbn [forallb].
  intros H. apply andb_true_iff in H as [Hc Hs].
  rewrite replaceAll2_skip; [rewrite IH by exact Hs; reflexivity |].
  apply negb_true_iff in Hc. rewrite Hc. reflexivity.
Qed.

(** ** The execution context *)

(** The four prefixes, as a case analysis. *)
Lemma prefix_cases (prefix : jsstring) :
  prefix = ATTRIBUTE \/ prefix = ROLE \/ prefix = SYSTEM \/ prefix = DICE
  \/ (jsstring_eqb prefix ATTRIBUTE = false /\ jsstring_eqb prefix ROLE = false
      /\ jsstring_eqb prefix SYSTEM = false /\ jsstring_eqb prefix DICE = false).
Proof.
  destruct (jsstring_eqb prefix ATTRIBUTE) eqn:Ha;
    [left; apply jsstring_eqb_true, Ha |].
  destruct (jsstring_eqb prefix ROLE) eqn:Hr;
    [right; left; apply jsstring_eqb_true, Hr |].
  destruct (jsstring_eqb prefix SYSTEM) eqn:Hs;
    [right; right; left; apply jsstring_eqb_true, Hs |].
  destruct (jsstring_eqb prefix DICE) eqn:Hd;
    [right; right; right; left; apply jsstring_eqb_true, Hd |].
  right; right; right; right. auto.
Qed.

Lemma canWrite_cases prefix :
  canWriteSpecialVariable prefix = true ->
  prefix = ATTRIBUTE \/ prefix = DICE.
Proof.
  unfold canWriteSpecialVariable.
  destruct (jsstring_eqb prefix ATTRIBUTE) eqn:Ha;
    [left; apply jsstring_eqb_true, Ha |].
  destruct (jsstring_eqb prefix DICE) eqn:Hd;
    [right; apply jsstring_eqb_true, Hd |].
  cbn. destruct (_ || _); discriminate.
Qed.

Lemma storage_ATTRIBUTE c :
  getStorageByPrefix ATTRIBUTE c = Normal (attributes c).
Proof. reflexivity. Qed.

Lemma storage_ROLE c : getStorageByPrefix ROLE c = Normal (roleInfo c).
Proof. reflexivity. Qed.

Lemma storage_SYSTEM c : getStorageByPrefix SYSTEM c = Normal (systemInfo c).
Proof. reflexivity. Qed.

Lemma storage_DICE c : getStorageByPrefix DICE c = Normal (diceInfo c).
Proof. reflexivity. Qed.

Lemma storage_unknown prefix c :
  jsstring_eqb prefix ATTRIBUTE = false -> jsstring_eqb prefix ROLE = false ->
  jsstring_eqb prefix SYSTEM = false -> jsstring_eqb prefix DICE = false ->
  getStorageByPrefix prefix c
  = Abrupt (ThrownError (str "Unknown special variable prefix: " ++ prefix)).
Proof. unfold getStorageByPrefix. intros -> -> -> ->. reflexivity. Qed.

Lemma storageSet_ATTRIBUTE name value c :
  storageSet ATTRIBUTE name value c
  = Normal {| attributes := <[name := value]> (attributes c);
              roleInfo := roleInfo c; systemInfo := systemInfo c;
              diceInfo := diceInfo c; variables := variables c |}.
Proof. reflexivity. Qed.

Lemma storageSet_DICE name value c :
  storageSet DICE name value c
  = Normal {| attributes := attributes c; roleInfo := roleInfo c;
              systemInfo := systemInfo c;
              diceInfo := <[name := value]> (diceInfo c);
              variables := variables c |}.
Proof. reflexivity. Qed.

Ltac storage_simpl :=
  rewrite ?storage_ATTRIBUTE, ?storage_ROLE, ?storage_SYSTEM, ?storage_DICE;
  cbn [attributes roleInfo systemInfo diceInfo variables].

(** A successful write lands in the pool of its prefix. *)
Lemma setSpecialVariable_written prefix name value c c' :
  setSpecialVariable prefix name value c = Normal c' ->
  (prefix = ATTRIBUTE
   /\ c' = {| attributes := <[name := value]> (attributes c);
              roleInfo := roleInfo c; systemInfo := systemInfo c;
              diceInfo := diceInfo c; variables := variables c |})
  \/ (prefix = DICE
      /\ c' = {| attributes := attributes c; roleInfo := roleInfo c;
                 systemInfo := systemInfo c;
                 diceInfo := <[name := value]> (diceInfo c);
                 variables := variables c |}).
Proof.
  unfold setSpecialVariable.
  destruct (canWriteSpecialVariable prefix) eqn:Hw; [| discriminate].
  cbn [negb].
  destruct (canWrite_cases _ Hw) as [-> | ->];
    [rewrite storageSet_ATTRIBUTE | rewrite storageSet_DICE];
    intros [= <-]; auto.
Qed.

(** A write to a writable pool succeeds and is read back. *)
Lemma setSpecialVariable_stored prefix name value c :
  canWriteSpecialVariable prefix = true ->
  exists c',
    setSpecialVariable prefix name value c = Normal c'
    /\ getSpecialVariable prefix name c' = Normal value.
Proof.
  intros Hw. unfold setSpecialVariable. rewrite Hw. cbn [negb].
  destruct (canWrite_cases _ Hw) as [-> | ->];
    [rewrite storageSet_ATTRIBUTE | rewrite storageSet_DICE];
    (eexists; split; [reflexivity |]);
    unfold getSpecialVariable; storage_simpl;
    rewrite lookup_insert_eq; reflexivity.
Qed.

(** X1: a local that was set is read back and is present; setting it
    changes neither the other locals nor any special variable. *)
Theorem setVariable_getVariable (name other : jsstring)
  (value : DicenicValue) (c : ExecutionContextData) :
  getVariable name (setVariable name value c) = value
  /\ hasVariable name (setVariable name value c) = true
  /\ (other <> name ->
      getVariable other (setVariable name value c) = getVariable other c
      /\ hasVariable other (setVariable name value c) = hasVariable other c)
  /\ (forall prefix special,
        getSpecialVariable prefix special (setVariable name value c)
        = getSpecialVariable prefix special c).
Proof.
  unfold getVariable, hasVariable, setVariable; cbn [variables].
  repeat split.
  - rewrite lookup_insert_eq. reflexivity.
  - apply bool_decide_eq_true. rewrite lookup_insert_eq. eauto.
  - rewrite lookup_insert_ne by congruence. reflexivity.
  - rewrite lookup_insert_ne by congruence. reflexivity.
Qed.

(** X2: a write to a writable pool (prefix a or d) succeeds; the value is
    read back under the same prefix and name and is reported present; every
    other special variable and every local reads as before. *)
Theorem setSpecialVariable_getSpecialVariable (prefix name : jsstring)
  (value : DicenicValue) (c : ExecutionContextData) :
  canWriteSpecialVariable prefix = true ->
  exists c',
    setSpecialVariable prefix name value c = Normal c'
    /\ getSpecialVariable prefix name c' = Normal value
    /\ hasSpecialVariable prefix name c' = Normal true
    /\ (forall q other, (q, other) <> (prefix, name) ->
          getSpecialVariable q other c' = getSpecialVariable q other c)
    /\ (forall x, getVariable x c' = getVariable x c).
Proof.
  intros Hw. unfold setSpecialVariable. rewrite Hw. cbn [negb].
  destruct (canWrite_cases _ Hw) as [-> | ->];
    [rewrite storageSet_ATTRIBUTE | rewrite storageSet_DICE];
    (eexists; split; [reflexivity |]);
    unfold getSpecialVariable, hasSpecialVariable;
    (split; [| split; [| split]]).
  1, 5: storage_simpl; rewrite lookup_insert_eq; reflexivity.
  1, 4: storage_simpl; rewrite lookup_insert_eq; f_equal;
        apply bool_decide_eq_true; eauto.
  2, 4: reflexivity.
  all: intros q other Hne;
    destruct (prefix_cases q)
      as [-> | [-> | [-> | [-> | (Ha & Hr & Hs & Hd)]]]];
    try (rewrite !storage_unknown by assumption; reflexivity);
    storage_simpl; try reflexivity;
    rewrite lookup_insert_ne by congruence; reflexivity.
Qed.

(** Witness for X2: the dice variable [roll] is written and read back. *)
Lemma setSpecialVariable_getSpecialVariable_witness :
  canWriteSpecialVariable (str "d") = true
  /\ exists c',
       setSpecialVariable (str "d") (str "roll") (NUMBER 4%float) contextAb1
       = Normal c'
       /\ getSpecialVariable (str "d") (str "roll") c' = Normal (NUMBER 4%float)
       /\ hasSpecialVariable (str "d") (str "roll") c' = Normal true
       /\ (forall q other, (q, other) <> (str "d", str "roll") ->
             getSpecialVariable q other c' = getSpecialVariable q other contextAb1)
       /\ (forall x, getVariable x c' = getVariable x contextAb1).
Proof.
  split; [reflexivity |].
  apply (setSpecialVariable_getSpecialVariable (str "d") (str "roll")
           (NUMBER 4%float) contextAb1).
  reflexivity.
Defined.

(** X3: writes fail closed.  A write succeeds exactly for the prefixes a
    and d; for every other prefix, r and s as well as a prefix that names
    no pool at all, it throws the read-only message and never reaches the
    unknown-prefix error of the pool lookup. *)
Theorem setSpecialVariable_fails_closed (prefix name : jsstring)
  (value : DicenicValue) (c : ExecutionContextData) :
  (prefix = ATTRIBUTE \/ prefix = DICE ->
   exists c', setSpecialVariable prefix name value c = Normal c')
  /\ (~ (prefix = ATTRIBUTE \/ prefix = DICE) ->
      setSpecialVariable prefix name value c
      = Abrupt (ThrownError
                  (str "Cannot write to read-only variable: $"
                   ++ prefix ++ name))).
Proof.
  split.
  - intros [-> | ->]; eexists; reflexivity.
  - intros Hn. unfold setSpecialVariable, canWriteSpecialVariable.
    destruct (jsstring_eqb prefix ATTRIBUTE) eqn:Ha.
    { exfalso. apply Hn. left. apply jsstring_eqb_true, Ha. }
    destruct (jsstring_eqb prefix DICE) eqn:Hd.
    { exfalso. apply Hn. right. apply jsstring_eqb_true, Hd. }
    cbn. destruct (_ || _); reflexivity.
Qed.

(** X4: reads are total on the four prefixes and only there.  Under a, r,
    s or d a read returns, and a name that is absent reads as the empty
    String (r, s) or as Number 0 (a, d); under any other prefix both the
    read and the presence test throw the unknown-prefix error. *)
Theorem getSpecialVariable_total_on_known_prefixes (prefix name : jsstring)
  (c : ExecutionContextData) :
  (isPrefixLetter prefix = true ->
   exists v, getSpecialVariable prefix name c = Normal v
     /\ (hasSpecialVariable prefix name c = Normal false ->
         v = if jsstring_eqb prefix ROLE || jsstring_eqb prefix SYSTEM
             then STRING [] else NUMBER 0%float))
  /\ (isPrefixLetter prefix = false ->
      getSpecialVariable prefix name c
      = Abrupt (ThrownError (str "Unknown special variable prefix: " ++ prefix))
      /\ hasSpecialVariable prefix name c
      = Abrupt (ThrownError (str "Unknown special variable prefix: " ++ prefix))).
Proof.
  unfold isPrefixLetter, getSpecialVariable, hasSpecialVariable.
  cbn [existsb].
  change (str "a") with ATTRIBUTE. change (str "r") with ROLE.
  change (str "s") with SYSTEM. change (str "d") with DICE.
  unfold getStorageByPrefix.
  split.
  - intros Hp.
    assert (Hs : forall st : gmap jsstring DicenicValue,
      exists v, match st !! name with
                | Some value => Normal value
                | None => if jsstring_eqb prefix ROLE || jsstring_eqb prefix SYSTEM
                          then Normal (STRING []) else Normal (NUMBER 0%float)
                end = Normal v
        /\ (Normal (bool_decide (is_Some (st !! name))) = Normal false ->
            v = if jsstring_eqb prefix ROLE || jsstring_eqb prefix SYSTEM
                then STRING [] else NUMBER 0%float)).
    { intros st. destruct (st !! name) as [v|] eqn:Hl.
      - exists v. split; [reflexivity |]. intros H. exfalso.
        injection H as H.
        first [discriminate H | apply bool_decide_eq_false in H; apply H; eauto].
      - destruct (jsstring_eqb prefix ROLE || jsstring_eqb prefix SYSTEM);
          eexists; (split; [reflexivity | auto]). }
    destruct (jsstring_eqb prefix ATTRIBUTE); [apply Hs |].
    destruct (jsstring_eqb prefix ROLE); [apply Hs |].
    destruct (jsstring_eqb prefix SYSTEM); [apply Hs |].
    destruct (jsstring_eqb prefix DICE); [apply Hs |].
    discriminate Hp.
  - intros Hp.
    destruct (jsstring_eqb prefix ATTRIBUTE); [discriminate Hp |].
    destruct (jsstring_eqb prefix ROLE); [discriminate Hp |].
    destruct (jsstring_eqb prefix SYSTEM); [discriminate Hp |].
    destruct (jsstring_eqb prefix DICE); [discriminate Hp |].
    split; reflexivity.
Qed.

(** X5: [clearVariables] empties the locals and nothing else: afterwards
    every local is absent and reads as Number 0, and every special variable
    reads and tests as before. *)
Theorem clearVariables_keeps_special_pools (name prefix special : jsstring)
  (c : ExecutionContextData) :
  getVariable name (clearVariables c) = NUMBER 0%float
  /\ hasVariable name (clearVariables c) = false
  /\ getSpecialVariable prefix special (clearVariables c)
     = getSpecialVariable prefix special c
  /\ hasSpecialVariable prefix special (clearVariables c)
     = hasSpecialVariable prefix special c.
Proof.
  unfold getVariable, hasVariable, clearVariables; cbn [variables].
  rewrite lookup_empty. repeat split.
Qed.

(** ** String interpolation *)

Lemma scanInterpolations_unfold_body c s pos o body :
  scanInterpolations (c :: s) pos (InBody o body)
  = if N.eqb c 0x7D
    then {| start := o; end_ := S pos; expression := body |}
           :: scanInterpolations s (S pos) Outside
    else scanInterpolations s (S pos) (InBody o (body ++ [c])).
Proof. reflexivity. Qed.

Lemma scanInterpolations_unfold_outside c d s pos :
  scanInterpolations (c :: d :: s) pos Outside
  = if N.eqb c 0x7B && N.eqb d 0x24
    then scanInterpolations s (S (S pos)) (InBody pos [])
    else scanInterpolations (d :: s) (S pos) Outside.
Proof. reflexivity. Qed.

Lemma scanInterpolations_no_brace s pos :
  forallb (fun c => negb (N.eqb c 0x7B)) s = true ->
  scanInterpolations s pos Outside = [].
Proof.
  revert pos. induction s as [|c s IH]; intros pos; [reflexivity |].
  cbn [forallb]. intros H. apply andb_true_iff in H as [Hc Hs].
  destruct s as [|d s]; [reflexivity |].
  rewrite scanInterpolations_unfold_outside.
  apply negb_true_iff in Hc. rewrite Hc. cbn [andb]. apply IH, Hs.
Qed.

Section Interpolation.
Context {host : Host}.
Variable context : ExecutionContextData.

Lemma replaceSpan_cut pre middle rest o e body :
  o = length pre -> e = length (pre ++ middle) ->
  replaceSpan context ((pre ++ middle) ++ rest)
    {| start := o; end_ := e; expression := body |}
  = pre ++ toText (evaluateExpression body context) ++ rest.
Proof.
  intros -> ->. unfold replaceSpan, substring, substring_from.
  cbn [start end_ expression].
  rewrite Nat.sub_0_r, drop_0.
  rewrite <- (app_assoc pre middle rest) at 1.
  rewrite take_app_length, drop_app_length. reflexivity.
Qed.

Lemma substituteSpans_unfold_body c s body :
  substituteSpans context (c :: s) (Some body)
  = if N.eqb c 0x7D
    then toText (evaluateExpression body context) ++ substituteSpans context s None
    else substituteSpans context s (Some (body ++ [c])).
Proof. reflexivity. Qed.

Lemma substituteSpans_unfold_outside c d s :
  substituteSpans context (c :: d :: s) None
  = if N.eqb c 0x7B && N.eqb d 0x24
    then substituteSpans context s (Some [])
    else c :: substituteSpans context (d :: s) None.
Proof. reflexivity. Qed.

(** Replacing the spans found from [s] on, last span first, in a text that
    ends with [s], gives the text up to [s] followed by the left-to-right
    substitution of [s]. *)
Lemma scanInterpolations_substitutes s :
  (forall pre,
     fold_right (fun e r => replaceSpan context r e) (pre ++ s)
       (scanInterpolations s (length pre) Outside)
     = pre ++ substituteSpans context s None)
  /\ (forall pre body,
        fold_right (fun e r => replaceSpan context r e)
          (pre ++ [0x7B; 0x24]%N ++ body ++ s)
          (scanInterpolations s (length pre + 2 + length body)
             (InBody (length pre) body))
        = pre ++ substituteSpans context s (Some body)).
Proof.
  induction s as [| c | c d s [IHo IHb] [IHo' IHb']] using list_ind2.
  - split; [reflexivity |]. intros pre body.
    cbn [scanInterpolations fold_right substituteSpans].
    rewrite app_nil_r. reflexivity.
  - split; [reflexivity |]. intros pre body.
    rewrite scanInterpolations_unfold_body, substituteSpans_unfold_body.
    destruct (N.eqb c 0x7D) eqn:Hc.
    + cbn [scanInterpolations fold_right substituteSpans].
      replace (pre ++ [0x7B; 0x24]%N ++ body ++ [c])
        with ((pre ++ [0x7B; 0x24]%N ++ body ++ [c]) ++ [])
        by apply app_nil_r.
      rewrite replaceSpan_cut; [rewrite !app_nil_r; reflexivity | reflexivity |].
      rewrite !length_app. cbn [length]. lia.
    + cbn [scanInterpolations fold_right substituteSpans].
      rewrite <- ?app_assoc. reflexivity.
  - split.
    + intros pre.
      rewrite scanInterpolations_unfold_outside,
        substituteSpans_unfold_outside.
      destruct (N.eqb c 0x7B && N.eqb d 0x24) eqn:Hm.
      * apply andb_true_iff in Hm as [Hc Hd].
        apply N.eqb_eq in Hc, Hd. subst c d.
        specialize (IHb pre []). cbn [length app] in IHb.
        replace (length pre + 2 + 0)%nat with (S (S (length pre))) in IHb
          by lia.
        exact IHb.
      * specialize (IHo' (pre ++ [c])).
        rewrite length_app in IHo'. cbn [length] in IHo'.
        replace (length pre + 1)%nat with (S (length pre)) in IHo' by lia.
        rewrite <- !app_assoc in IHo'. exact IHo'.
    + intros pre body.
      rewrite scanInterpolations_unfold_body, substituteSpans_unfold_body.
      destruct (N.eqb c 0x7D) eqn:Hc.
      * cbn [fold_right].
        specialize (IHo' (pre ++ [0x7B; 0x24]%N ++ body ++ [c])).
        replace (length (pre ++ [0x7B; 0x24]%N ++ body ++ [c]))
          with (S (length pre + 2 + length body)) in IHo'
          by (rewrite !length_app; cbn [length]; lia).
        replace (pre ++ [0x7B; 0x24]%N ++ body ++ c :: d :: s)
          with ((pre ++ [0x7B; 0x24]%N ++ body ++ [c]) ++ d :: s)
          by (rewrite <- !app_assoc; reflexivity).
        rewrite IHo'.
        apply replaceSpan_cut; [reflexivity |].
        rewrite !length_app. cbn [length]. lia.
      * specialize (IHb' pre (body ++ [c])).
        rewrite length_app in IHb'. cbn [length] in IHb'.
        replace (length pre + 2 + (length body + 1))%nat
          with (S (length pre + 2 + length body)) in IHb' by lia.
        rewrite <- !app_assoc in IHb'. exact IHb'.
Qed.

(** X6: [interpolate], which cuts the current text at the offsets found in
    the original template and replaces the spans from the last to the
    first, computes the substitution of one pass from left to right: text
    outside spans is kept, every closed span is replaced by the value of
    its body, an unclosed span is kept, and substituted values are not
    scanned again. *)
Theorem interpolate_left_to_right (template : jsstring) :
  interpolate template context = substituteSpans context template None.
Proof.
  unfold interpolate, parseInterpolationExpressions.
  destruct template as [|c template]; [reflexivity |].
  change (fold_left (replaceSpan context)
            (rev (scanInterpolations (c :: template) 0 Outside))
            (c :: template)
          = substituteSpans context (c :: template) None).
  rewrite fold_left_rev.
  exact (proj1 (scanInterpolations_substitutes (c :: template)) []).
Qed.

End Interpolation.

Section Spans.
Context {host : Host}.

Lemma scanInterpolations_occurrences s :
  (forall pre e,
     In e (scanInterpolations s (length pre) Outside) ->
     occursIn (pre ++ s) e)
  /\ (forall pre body e,
        forallb (fun c => negb (N.eqb c 0x7D)) body = true ->
        In e (scanInterpolations s (length pre + 2 + length body)
                (InBody (length pre) body)) ->
        occursIn (pre ++ [0x7B; 0x24]%N ++ body ++ s) e).
Proof.
  induction s as [| c | c d s [IHo IHb] [IHo' IHb']] using list_ind2.
  - split; intros; contradiction.
  - split; [intros; contradiction |]. intros pre body e Hbody.
    rewrite scanInterpolations_unfold_body.
    destruct (N.eqb c 0x7D) eqn:Hc; cbn [scanInterpolations In];
      [| contradiction].
    intros [<- | []]. apply N.eqb_eq in Hc. subst c.
    split; [| exact Hbody]. cbn [start end_ expression].
    replace (S (length pre + 2 + length body))
      with (length pre + length ([0x7B; 0x24]%N ++ body ++ [0x7D%N]))%nat
      by (rewrite !length_app; cbn [length]; lia).
    replace (pre ++ [0x7B; 0x24]%N ++ body ++ [0x7D%N])
      with (pre ++ ([0x7B; 0x24]%N ++ body ++ [0x7D%N]) ++ [])
      by (rewrite app_nil_r; reflexivity).
    apply substring_middle.
  - split.
    + intros pre e. rewrite scanInterpolations_unfold_outside.
      destruct (N.eqb c 0x7B && N.eqb d 0x24) eqn:Hm.
      * apply andb_true_iff in Hm as [Hc Hd].
        apply N.eqb_eq in Hc, Hd. subst c d.
        intros He. apply (IHb pre [] e eq_refl).
        cbn [length]. replace (length pre + 2 + 0)%nat
          with (S (S (length pre))) by lia. exact He.
      * intros He. specialize (IHo' (pre ++ [c]) e).
        rewrite length_app in IHo'. cbn [length] in IHo'.
        replace (length pre + 1)%nat with (S (length pre)) in IHo' by lia.
        rewrite <- app_assoc in IHo'. apply IHo', He.
    + intros pre body e Hbody. rewrite scanInterpolations_unfold_body.
      destruct (N.eqb c 0x7D) eqn:Hc.
      * intros [<- | He].
        -- apply N.eqb_eq in Hc. subst c.
           split; [| exact Hbody]. cbn [start end_ expression].
           replace (S (length pre + 2 + length body))
             with (length pre
                   + length ([0x7B; 0x24]%N ++ body ++ [0x7D%N]))%nat
             by (rewrite !length_app; cbn [length]; lia).
           replace (pre ++ [0x7B; 0x24]%N ++ body ++ 0x7D%N :: d :: s)
             with (pre ++ ([0x7B; 0x24]%N ++ body ++ [0x7D%N]) ++ d :: s)
             by (rewrite <- !app_assoc; reflexivity).
           apply substring_middle.
        -- specialize (IHo' (pre ++ [0x7B; 0x24]%N ++ body ++ [c]) e).
           replace (length (pre ++ [0x7B; 0x24]%N ++ body ++ [c]))
             with (S (length pre + 2 + length body)) in IHo'
             by (rewrite !length_app; cbn [length]; lia).
           replace ((pre ++ [0x7B; 0x24]%N ++ body ++ [c]) ++ d :: s)
             with (pre ++ [0x7B; 0x24]%N ++ body ++ c :: d :: s) in IHo'
             by (rewrite <- !app_assoc; reflexivity).
           apply IHo', He.
      * intros He. specialize (IHb' pre (body ++ [c]) e).
        rewrite length_app in IHb'. cbn [length] in IHb'.
        replace (length pre + 2 + (length body + 1))%nat
          with (S (length pre + 2 + length body)) in IHb' by lia.
        rewrite <- !app_assoc in IHb'. apply IHb'; [| exact He].
        rewrite forallb_app, Hbody. cbn [forallb]. rewrite Hc. reflexivity.
Qed.

(** X7: every span reported by [parseInterpolationExpressions] is an
    occurrence in the template: the text between its two offsets is an
    opening brace, a dollar sign, the reported body and a closing brace,
    and the body holds no closing brace; the body is among the names
    returned by [getInterpolationVariables]. *)
Theorem spans_are_occurrences (template : jsstring)
  (e : InterpolationExpression) :
  In e (parseInterpolationExpressions template) ->
  occursIn template e
  /\ In (expression e) (getInterpolationVariables template).
Proof.
  intros He. split.
  - exact (proj1 (scanInterpolations_occurrences template) [] e He).
  - unfold getInterpolationVariables. apply in_map, He.
Qed.

End Spans.

(** Witness for X7: the one span of the template [a{$x}b]. *)
Lemma spans_are_occurrences_witness :
  In {| start := 1; end_ := 5; expression := str "x" |}
     (parseInterpolationExpressions (str "a{$x}b"))
  /\ occursIn (str "a{$x}b") {| start := 1; end_ := 5; expression := str "x" |}
  /\ In (str "x") (getInterpolationVariables (str "a{$x}b")).
Proof.
  assert (He : In {| start := 1; end_ := 5; expression := str "x" |}
                 (parseInterpolationExpressions (str "a{$x}b")))
    by (left; reflexivity).
  split; [exact He |].
  exact (spans_are_occurrences (str "a{$x}b") _ He).
Defined.

Section Escaping.
Context {host : Host}.

(** [escapeInterpolation], unit by unit. *)
Lemma escapeInterpolation_open s :
  escapeInterpolation (0x7B :: 0x24 :: s)%N
  = [0x5C; 0x7B; 0x24]%N ++ escapeInterpolation s.
Proof. reflexivity. Qed.

Lemma escapeInterpolation_close s :
  escapeInterpolation (0x7D%N :: s) = [0x5C; 0x7D]%N ++ escapeInterpolation s.
Proof.
  unfold escapeInterpolation. rewrite replaceAll2_skip; [reflexivity |].
  reflexivity.
Qed.

Lemma escapeInterpolation_other c s :
  N.eqb c 0x7D = false ->
  N.eqb c 0x7B && match s with d :: _ => N.eqb d 0x24 | [] => false end = false ->
  escapeInterpolation (c :: s) = c :: escapeInterpolation s.
Proof.
  intros Hc Hm. unfold escapeInterpolation.
  rewrite replaceAll2_skip by exact Hm.
  cbn [replaceAll1]. rewrite Hc. reflexivity.
Qed.

(** The three shapes of a non-empty template. *)
Lemma template_cases c s :
  (c = 0x7B%N /\ exists s', s = 0x24%N :: s')
  \/ c = 0x7D%N
  \/ (N.eqb c 0x7D = false
      /\ N.eqb c 0x7B && match s with d :: _ => N.eqb d 0x24 | [] => false end
         = false).
Proof.
  destruct (N.eqb c 0x7D) eqn:Hc; [right; left; apply N.eqb_eq, Hc |].
  destruct (N.eqb c 0x7B) eqn:Ho; [| right; right; auto].
  apply N.eqb_eq in Ho. subst c.
  destruct s as [|d s]; [right; right; auto |].
  destruct (N.eqb d 0x24) eqn:Hd; [| right; right; auto].
  apply N.eqb_eq in Hd. subst d. left. eauto.
Qed.

(** The escaped text starts with a backslash or with the first unit of the
    template. *)
Lemma escapeInterpolation_head s :
  match escapeInterpolation s with
  | [] => s = []
  | x :: _ => x = 0x5C%N \/ exists s', s = x :: s'
  end.
Proof.
  destruct s as [|c s]; [reflexivity |].
  destruct (template_cases c s) as [(-> & s' & ->) | [-> | (Hc & Hm)]].
  - rewrite escapeInterpolation_open. left. reflexivity.
  - rewrite escapeInterpolation_close. left. reflexivity.
  - rewrite escapeInterpolation_other by assumption. right. eauto.
Qed.

(** No dollar sign is brought to the front by escaping. *)
Lemma escapeInterpolation_dollar s :
  match s with d :: _ => N.eqb d 0x24 | [] => false end = false ->
  match escapeInterpolation s with d :: _ => N.eqb d 0x24 | [] => false end
  = false.
Proof.
  intros Hs. pose proof (escapeInterpolation_head s) as H.
  destruct (escapeInterpolation s) as [|x e]; [reflexivity |].
  destruct H as [-> | (s' & ->)]; [reflexivity | exact Hs].
Qed.

(** The second replacement of [unescapeInterpolation] undoes the second
    replacement of [escapeInterpolation]. *)
Lemma unescape_close_of_escape_close s :
  replaceAll2 0x5C 0x7D [0x7D%N] (replaceAll1 0x7D [0x5C; 0x7D]%N s) = s.
Proof.
  induction s as [|c s IH]; [reflexivity |].
  cbn [replaceAll1]. destruct (N.eqb c 0x7D) eqn:Hc.
  - apply N.eqb_eq in Hc. subst c. cbn [app].
    rewrite replaceAll2_step. cbn [N.eqb Pos.eqb andb app].
    rewrite IH. reflexivity.
  - rewrite replaceAll2_skip; [rewrite IH; reflexivity |].
    destruct s as [|d s]; [apply andb_false_r |].
    cbn [replaceAll1]. destruct (N.eqb d 0x7D) eqn:Hd.
    + cbn [app]. apply andb_false_r.
    + rewrite Hd. apply andb_false_r.
Qed.

(** The first replacement of [unescapeInterpolation], applied to an
    escaped template, undoes the first replacement of
    [escapeInterpolation]. *)
Lemma unescape_open_of_escape s :
  replaceAll3 0x5C 0x7B 0x24 [0x7B; 0x24]%N (escapeInterpolation s)
  = replaceAll1 0x7D [0x5C; 0x7D]%N s.
Proof.
  induction s as [| c | c d s IH IH'] using list_ind2.
  - reflexivity.
  - destruct (template_cases c []) as [(_ & s' & Hs) | [-> | (Hc & Hm)]].
    + discriminate Hs.
    + reflexivity.
    + rewrite escapeInterpolation_other by assumption.
      cbn [replaceAll1]. rewrite Hc. reflexivity.
  - destruct (template_cases c (d :: s)) as [(-> & s' & Hs) | [-> | (Hc & Hm)]].
    + injection Hs as -> <-.
      rewrite escapeInterpolation_open. cbn [app].
      rewrite replaceAll3_step. cbn [N.eqb Pos.eqb andb app].
      rewrite IH. reflexivity.
    + rewrite escapeInterpolation_close. cbn [app].
      rewrite replaceAll3_skip
        by (destruct (escapeInterpolation (d :: s)); reflexivity).
      rewrite replaceAll3_skip by reflexivity.
      rewrite IH'. reflexivity.
    + rewrite escapeInterpolation_other by assumption.
      rewrite replaceAll3_skip.
      * rewrite IH'. cbn [replaceAll1]. rewrite Hc. reflexivity.
      * destruct (N.eqb c 0x5C) eqn:Hb; [| reflexivity].
        cbn [andb].
        pose proof (escapeInterpolation_head (d :: s)) as Hh.
        destruct (escapeInterpolation (d :: s)) as [|y [|z e]] eqn:He;
          try reflexivity.
        destruct (N.eqb y 0x7B) eqn:Hy; [| reflexivity].
        apply N.eqb_eq in Hy. subst y.
        destruct Hh as [Hh | (s' & Hs)]; [discriminate Hh |].
        injection Hs as -> <-.
        destruct (template_cases 0x7B%N s) as [(_ & s'' & ->) | [Hx | (_ & Hm')]].
        -- rewrite escapeInterpolation_open in He. discriminate He.
        -- discriminate Hx.
        -- rewrite escapeInterpolation_other in He by (reflexivity || exact Hm').
           injection He as He.
           pose proof (escapeInterpolation_dollar s) as Hd.
           rewrite He in Hd. cbn [andb]. apply Hd.
           exact Hm'.
Qed.

(** X8: [unescapeInterpolation] undoes [escapeInterpolation] on every
    template, whatever backslashes, braces and dollar signs it holds. *)
Theorem unescapeInterpolation_escapeInterpolation (template : jsstring) :
  unescapeInterpolation (escapeInterpolation template) = template.
Proof.
  unfold unescapeInterpolation.
  rewrite unescape_open_of_escape. apply unescape_close_of_escape_close.
Qed.

(** Inside a body, a span is found when a closing brace follows. *)
Lemma spanFound_in_body s pos o body :
  spanFound pos (InBody o body) s = existsb (fun c => N.eqb c 0x7D) s.
Proof.
  revert pos body. induction s as [|c s IH]; intros pos body; [reflexivity |].
  unfold spanFound. rewrite scanInterpolations_unfold_body. cbn [existsb].
  destruct (N.eqb c 0x7D); [reflexivity |]. apply IH.
Qed.

Lemma spanFound_skip c s pos :
  N.eqb c 0x7B && match s with d :: _ => N.eqb d 0x24 | [] => false end = false ->
  spanFound pos Outside (c :: s) = spanFound (S pos) Outside s.
Proof.
  destruct s as [|d s]; [reflexivity |]. intros Hm.
  unfold spanFound. rewrite scanInterpolations_unfold_outside, Hm. reflexivity.
Qed.

Lemma spanFound_open s pos :
  spanFound pos Outside (0x7B :: 0x24 :: s)%N
  = existsb (fun c => N.eqb c 0x7D) s.
Proof.
  unfold spanFound. rewrite scanInterpolations_unfold_outside.
  apply spanFound_in_body.
Qed.

(** Outside a span, the position plays no role. *)
Lemma spanFound_position s pos pos' :
  spanFound pos Outside s = spanFound pos' Outside s.
Proof.
  revert pos pos'.
  induction s as [| c | c d s _ IH] using list_ind2; intros pos pos';
    try reflexivity.
  destruct (template_cases c (d :: s)) as [(-> & s' & Hs) | [-> | (Hc & Hm)]].
  - injection Hs as -> <-. rewrite !spanFound_open. reflexivity.
  - rewrite (spanFound_skip _ (d :: s) pos), (spanFound_skip _ (d :: s) pos')
      by reflexivity.
    apply IH.
  - rewrite (spanFound_skip c (d :: s) pos), (spanFound_skip c (d :: s) pos')
      by exact Hm.
    apply IH.
Qed.

Lemma escapeInterpolation_closing s :
  existsb (fun c => N.eqb c 0x7D) (escapeInterpolation s)
  = existsb (fun c => N.eqb c 0x7D) s.
Proof.
  induction s as [| c | c d s IH IH'] using list_ind2.
  - reflexivity.
  - destruct (template_cases c []) as [(_ & s' & Hs) | [-> | (Hc & Hm)]].
    + discriminate Hs.
    + reflexivity.
    + rewrite escapeInterpolation_other by assumption. reflexivity.
  - destruct (template_cases c (d :: s)) as [(-> & s' & Hs) | [-> | (Hc & Hm)]].
    + injection Hs as -> <-. rewrite escapeInterpolation_open.
      cbn [app existsb N.eqb Pos.eqb orb]. exact IH.
    + rewrite escapeInterpolation_close. reflexivity.
    + rewrite escapeInterpolation_other by assumption.
      cbn [existsb] in *. rewrite Hc. cbn [orb]. exact IH'.
Qed.

Lemma spanFound_escapeInterpolation s :
  spanFound 0 Outside (escapeInterpolation s) = spanFound 0 Outside s.
Proof.
  induction s as [| c | c d s IH IH'] using list_ind2.
  - reflexivity.
  - destruct (template_cases c []) as [(_ & s' & Hs) | [-> | (Hc & Hm)]].
    + discriminate Hs.
    + reflexivity.
    + rewrite escapeInterpolation_other by assumption. reflexivity.
  - destruct (template_cases c (d :: s)) as [(-> & s' & Hs) | [-> | (Hc & Hm)]].
    + injection Hs as -> <-. rewrite escapeInterpolation_open. cbn [app].
      rewrite spanFound_skip by reflexivity.
      rewrite !spanFound_open. apply escapeInterpolation_closing.
    + rewrite escapeInterpolation_close. cbn [app].
      rewrite (spanFound_skip 0x5C%N) by reflexivity.
      rewrite (spanFound_skip 0x7D%N _ 1) by reflexivity.
      rewrite (spanFound_skip 0x7D%N (d :: s) 0) by reflexivity.
      rewrite (spanFound_position _ 2 0), (spanFound_position _ 1 0).
      exact IH'.
    + rewrite escapeInterpolation_other by assumption.
      rewrite (spanFound_skip c (escapeInterpolation (d :: s)) 0).
      * rewrite (spanFound_skip c (d :: s) 0) by exact Hm.
        rewrite (spanFound_position _ 1 0),
          (spanFound_position (d :: s) 1 0).
        exact IH'.
      * destruct (N.eqb c 0x7B); [| reflexivity]. cbn [andb] in *.
        apply escapeInterpolation_dollar. exact Hm.
Qed.

(** X9: escaping does not hide a span from the scanner.  The inserted
    backslashes stand before the opening brace and before the closing
    brace, and the expression of [hasInterpolation] takes no notice of
    them: an escaped template has an interpolation exactly when the
    template has one. *)
Theorem escapeInterpolation_keeps_spans (template : jsstring) :
  hasInterpolation (escapeInterpolation template) = hasInterpolation template.
Proof. exact (spanFound_escapeInterpolation template). Qed.

End Escaping.

(** ** Conversions *)

Section Conversions.
Context {host : Host}.
Import TypeConverter.

(** X10: [implicitConvert] reaches its target, where it can.  To NUMBER or
    STRING it returns a value that carries the target tag, converting it
    again changes nothing, and the numeric (resp. textual) reading of the
    value is kept.  To DICE_EXPRESSION: a value that carries the tag
    already is returned as it is; a String on a text of dice shape becomes
    the dice value on that text, which validates; a String on a number
    makes the conversion throw; anything else becomes its String
    rendering.  No roll is made. *)
Theorem implicitConvert_reaches_target (v : DicenicValue)
  (targetType : VariableType) :
  let converted := implicitConvert v targetType in
  match targetType with
  | TDICE_EXPRESSION =>
      match type v, value v with
      | TDICE_EXPRESSION, _ => converted = Normal v
      | TSTRING, JSString s =>
          if matchesDiceText s
          then converted = Normal (createDiceValue s)
               /\ validateType (createDiceValue s) TDICE_EXPRESSION = true
          else converted = Normal (STRING s)
      | TSTRING, JSNumber _ => converted = Abrupt matchIsNotAFunction
      | TNUMBER, p => converted = Normal (STRING (toText p))
      end
  | _ =>
      exists w,
        converted = Normal w /\ type w = targetType
        /\ implicitConvert w targetType = Normal w
        /\ match targetType with
           | TNUMBER => toNumber w = toNumber v
           | _ => toString w = toString v
           end
  end.
Proof.
  destruct v as [t p]. destruct targetType; cbv zeta.
  - destruct t; eexists; (split; [reflexivity |]); repeat split.
  - destruct t; eexists; (split; [reflexivity |]); repeat split.
  - destruct t, p as [n | s]; unfold implicitConvert;
      cbn [type value VariableType_eqb]; try reflexivity.
    destruct (matchesDiceText s) eqn:Hs; [| reflexivity].
    split; [reflexivity |]. unfold validateType, createDiceValue.
    cbn [type value VariableType_eqb negb]. exact Hs.
Qed.

Lemma nonNumericString_isNonNumericString v :
  nonNumericString v = isNonNumericString v.
Proof. reflexivity. Qed.

Lemma implicitConvert_TNUMBER v :
  exists w, implicitConvert v TNUMBER = Normal w
            /\ type w = TNUMBER /\ toNumber w = toNumber v
            /\ (payloadFollowsTag v = true -> payloadFollowsTag w = true).
Proof.
  destruct v as [[] p]; eexists; (split; [reflexivity |]); repeat split;
    intros H; exact H.
Qed.

Lemma implicitConvert_TSTRING v :
  exists w, implicitConvert v TSTRING = Normal w
            /\ type w = TSTRING /\ toString w = toString v
            /\ (isNonNumericString v = true -> w = v)
            /\ (payloadFollowsTag v = true -> payloadFollowsTag w = true).
Proof.
  destruct v as [[] p]; eexists; (split; [reflexivity |]); repeat split;
    intros H; first [discriminate H | exact H | reflexivity].
Qed.

(** X11: the operands prepared by [convertForOperation] for an arithmetic
    token are returned (the conversion does not throw), keep the payload
    of the kind their tag announces when the original operands do, and
    the interpreter's [performArithmeticOperation] computes on them what
    it computes on the original operands: the same value or the same
    error, concatenation in the same cases. *)
Theorem convertForOperation_agrees_with_arithmetic (left right : DicenicValue)
  (token : TokenType.t) (operator : Operator) :
  arithmeticOperator token = Some operator ->
  exists l r,
    convertForOperation left right token = Normal (l, r)
    /\ (payloadFollowsTag left = true -> payloadFollowsTag l = true)
    /\ (payloadFollowsTag right = true -> payloadFollowsTag r = true)
    /\ forall i, performArithmeticOperation l r operator i
                 = performArithmeticOperation left right operator i.
Proof.
  intros Htoken.
  destruct (implicitConvert_TNUMBER left) as (ln & Hln & Htl & Hnl & Hwl).
  destruct (implicitConvert_TNUMBER right) as (rn & Hrn & Htr & Hnr & Hwr).
  destruct (implicitConvert_TSTRING left) as (ls & Hls & Htls & Hsl & Hkl & Hwls).
  destruct (implicitConvert_TSTRING right) as (rs & Hrs & Htrs & Hsr & Hkr & Hwrs).
  assert (Hnumbers :
    forall op, (op = PLUS ->
                isNonNumericString left || isNonNumericString right = false) ->
    forall i,
      performArithmeticOperation ln rn op i
      = performArithmeticOperation left right op i).
  { intros op Hplus i. unfold performArithmeticOperation.
    assert (Hl0 : isNonNumericString ln = false)
      by (unfold isNonNumericString; now rewrite Htl).
    assert (Hr0 : isNonNumericString rn = false)
      by (unfold isNonNumericString; now rewrite Htr).
    rewrite Hl0, Hr0, Hnl, Hnr.
    destruct op; try reflexivity. rewrite (Hplus eq_refl). reflexivity. }
  destruct token; try discriminate Htoken; injection Htoken as <-;
    unfold convertForOperation, convertForArithmetic;
    cbn [isComparisonOperator isLogicalOperator isArithmeticOperator andb].
  - rewrite (nonNumericString_isNonNumericString left),
      (nonNumericString_isNonNumericString right).
    destruct (isNonNumericString left || isNonNumericString right) eqn:Hc.
    + rewrite Hls, Hrs. exists ls, rs. split; [reflexivity |].
      split; [exact Hwls |]. split; [exact Hwrs |]. intros i.
      unfold performArithmeticOperation. rewrite Hc.
      assert (Hkeep : isNonNumericString ls || isNonNumericString rs = true).
      { apply orb_true_iff in Hc. apply orb_true_iff.
        destruct Hc as [Hc | Hc]; [left; rewrite (Hkl Hc) |
                                   right; rewrite (Hkr Hc)]; exact Hc. }
      rewrite Hkeep, Hsl, Hsr. reflexivity.
    + rewrite Hln, Hrn. exists ln, rn. split; [reflexivity |].
      split; [exact Hwl |]. split; [exact Hwr |].
      apply Hnumbers. intros _. reflexivity.
  - rewrite Hln, Hrn. exists ln, rn. split; [reflexivity |].
    split; [exact Hwl |]. split; [exact Hwr |].
    apply Hnumbers. discriminate.
  - rewrite Hln, Hrn. exists ln, rn. split; [reflexivity |].
    split; [exact Hwl |]. split; [exact Hwr |].
    apply Hnumbers. discriminate.
  - rewrite Hln, Hrn. exists ln, rn. split; [reflexivity |].
    split; [exact Hwl |]. split; [exact Hwr |].
    apply Hnumbers. discriminate.
  - rewrite Hln, Hrn. exists ln, rn. split; [reflexivity |].
    split; [exact Hwl |]. split; [exact Hwr |].
    apply Hnumbers. discriminate.
Qed.

(** X12: a dice result acts as the number it holds.  Reading a
    DICE_EXPRESSION value as a NUMBER changes none of its three
    conversions, no arithmetic operation and no ordering comparison,
    whatever the payloads are. *)
Theorem dice_result_acts_as_number (left right : DicenicValue)
  (operator : Operator) (i : Interpreter) :
  toNumber (asNumber left) = toNumber left
  /\ toString (asNumber left) = toString left
  /\ toBoolean (asNumber left) = toBoolean left
  /\ performArithmeticOperation (asNumber left) (asNumber right) operator i
     = performArithmeticOperation left right operator i
  /\ (isOrdering operator = true ->
      performComparisonOperation (asNumber left) (asNumber right) operator
      = performComparisonOperation left right operator).
Proof.
  destruct left as [tl pl], right as [tr pr].
  repeat split.
  - destruct tl; reflexivity.
  - destruct tl; reflexivity.
  - destruct tl; reflexivity.
  - destruct tl, tr; reflexivity.
  - intros Hop. destruct operator; try discriminate Hop;
      destruct tl, tr; reflexivity.
Qed.

(** X13: what the converter builds validates.  The default value of every
    type validates against that type; whatever a String on a text is
    converted to validates against the tag it carries; a conversion to
    NUMBER returns, and its result validates exactly when the number read
    from the value is not NaN, a NUMBER on a text apart: it is returned as
    it is and does not validate. *)
Theorem converted_values_validate (targetType : VariableType) (s : jsstring)
  (v : DicenicValue) :
  validateType (getDefaultValue targetType) targetType = true
  /\ (exists w, implicitConvert (STRING s) targetType = Normal w
                /\ validateType w (type w) = true)
  /\ (exists w, implicitConvert v TNUMBER = Normal w
                /\ validateType w TNUMBER
                   = match type v, value v with
                     | TNUMBER, JSString _ => false
                     | _, _ => negb (isNaN (toNumber v))
                     end).
Proof.
  split; [destruct targetType; reflexivity |]. split.
  - destruct targetType; unfold implicitConvert;
      cbn [type value VariableType_eqb].
    + eexists. split; [reflexivity |].
      unfold validateType, toNumber. cbn [type value VariableType_eqb negb toText].
      destruct (isNaN (parseFloat s)) eqn:Hn; [reflexivity |].
      rewrite Hn. reflexivity.
    + eexists. split; reflexivity.
    + destruct (matchesDiceText s) eqn:Hs; eexists;
        (split; [reflexivity |]); [| reflexivity].
      unfold validateType. cbn [type value VariableType_eqb negb]. exact Hs.
  - destruct v as [[] []]; eexists; (split; reflexivity).
Qed.

End Conversions.

(** Witness for X11: ['a' + 1]. *)
Lemma convertForOperation_agrees_with_arithmetic_witness :
  arithmeticOperator TokenType.PLUS = Some PLUS
  /\ exists l r,
       TypeConverter.convertForOperation (host := ReferenceHost.host)
         (STRING (str "a")) (NUMBER 1%float) TokenType.PLUS
       = Normal (l, r)
       /\ (payloadFollowsTag (STRING (str "a")) = true ->
           payloadFollowsTag l = true)
       /\ (payloadFollowsTag (NUMBER 1%float) = true ->
           payloadFollowsTag r = true)
       /\ forall i,
            performArithmeticOperation (host := ReferenceHost.host) l r PLUS i
            = performArithmeticOperation (host := ReferenceHost.host)
                (STRING (str "a")) (NUMBER 1%float) PLUS i.
Proof.
  split; [reflexivity |].
  exact (convertForOperation_agrees_with_arithmetic (host := ReferenceHost.host)
           (STRING (str "a")) (NUMBER 1%float) TokenType.PLUS PLUS eq_refl).
Defined.

(** ** Dice *)

Section Dice.
Context {host : Host}.
Import DiceCalculator.

Lemma rollLoop_returns fuel : forall i count sides total n,
  exists r n', rollLoop fuel i count sides total n = Ok r n'.
Proof.
  induction fuel as [|fuel IH]; intros i count sides total n; cbn [rollLoop].
  - eexists _, _. reflexivity.
  - destruct (PrimFloat.ltb _ _); [| eexists _, _; reflexivity].
    unfold bind, get, modify. apply IH.
Qed.

(** A roll from numbers returns when the numbers validate, and throws
    without a draw otherwise. *)
Lemma createDiceValue_cases count sides n :
  if validateDiceExpression count sides
  then exists x n', createDiceValue count sides n = Ok (DICE_EXPRESSION x) n'
  else exists e, createDiceValue count sides n = Throw e n.
Proof.
  unfold createDiceValue, bind, calculate.
  destruct (validateDiceExpression count sides); cbn [negb].
  - destruct (rollLoop_returns 1000 0 count sides 0%float n) as (r & n' & ->).
    eauto.
  - eexists. reflexivity.
Qed.

Lemma evaluateDiceExpression_cases text n :
  if isDiceExpression text
  then exists x n', evaluateDiceExpression text n = Ok (DICE_EXPRESSION x) n'
  else exists e, evaluateDiceExpression text n = Throw e n.
Proof.
  unfold evaluateDiceExpression, isDiceExpression.
  destruct (parseDiceExpression text) as [[count sides]|e].
  - exact (createDiceValue_cases count sides n).
  - eexists. reflexivity.
Qed.

(** X14: [isDiceExpression] decides whether a roll is made.  A text it
    accepts is evaluated to a dice result; a text it rejects makes
    [evaluateDiceExpression] throw before any random draw.  The same holds
    for [createDiceValue] and [validateDiceExpression]. *)
Theorem isDiceExpression_decides_evaluation (text : jsstring)
  (count sides : float) (n : nat) :
  returns (evaluateDiceExpression text n) = isDiceExpression text
  /\ returns (createDiceValue count sides n)
     = validateDiceExpression count sides
  /\ (isDiceExpression text = false ->
      final_state (evaluateDiceExpression text n) = n)
  /\ (isDiceExpression text = true ->
      exists x n', evaluateDiceExpression text n = Ok (DICE_EXPRESSION x) n').
Proof.
  pose proof (evaluateDiceExpression_cases text n) as He.
  pose proof (createDiceValue_cases count sides n) as Hc.
  destruct (isDiceExpression text);
    destruct (validateDiceExpression count sides);
    repeat match goal with
           | H : exists _, _ |- _ => destruct H as [? H]
           end;
    rewrite He, Hc; repeat split; try discriminate; eauto.
Qed.

(** X15: under recovery a dice literal never aborts the script and never
    records an error.  A text that [isDiceExpression] accepts evaluates to
    a dice result and leaves the handler as it was; any other text
    evaluates to Number 0 without a random draw and records exactly one
    warning. *)
Theorem dice_literal_under_recovery (text : jsstring) (ln col : Z)
  (i : Interpreter) :
  enableRecovery (config (errorHandler i)) = true ->
  exists v j,
    visitExpression (DiceExpression text ln col) i = Ok v j
    /\ context j = context i /\ lastValue j = lastValue i
    /\ errors (errorHandler j) = errors (errorHandler i)
    /\ if isDiceExpression text
       then (exists x, v = DICE_EXPRESSION x) /\ errorHandler j = errorHandler i
       else v = NUMBER 0%float /\ randomDraws j = randomDraws i
            /\ exists errorMessage,
                 warnings (errorHandler j)
                 = warnings (errorHandler i)
                   ++ [diceWarning errorMessage text ln col].
Proof.
  intros Hrec. cbn [visitExpression]. unfold visitDiceExpression, tryCatch.
  unfold onRandom at 1. unfold zoom.
  pose proof (evaluateDiceExpression_cases text (randomDraws i)) as He.
  destruct (isDiceExpression text).
  - destruct He as (x & n' & ->).
    eexists _, _. split; [reflexivity |]. repeat split. eauto.
  - destruct He as (e & ->).
    unfold onErrorHandler, zoom, handleDiceError, bind, get.
    cbn [errorHandler setRandomDraws]. rewrite Hrec.
    unfold addWarning, modify, ret.
    eexists _, _. split; [reflexivity |]. repeat split.
    exists (thrown_message e). reflexivity.
Qed.

End Dice.

(** Witness for X15: the literal [0d6] under the default configuration. *)
Lemma dice_literal_under_recovery_witness :
  enableRecovery (config (errorHandler (initialInterpreter defaultOptions)))
  = true
  /\ DiceCalculator.isDiceExpression (host := ReferenceHost.host) (str "0d6")
     = false
  /\ exists j,
       visitExpression (host := ReferenceHost.host)
         (DiceExpression (str "0d6") 1 0) (initialInterpreter defaultOptions)
       = Ok (NUMBER 0%float) j
       /\ errors (errorHandler j) = []
       /\ length (warnings (errorHandler j)) = 1%nat.
Proof.
  split; [reflexivity |]. split; [vm_compute; reflexivity |].
  destruct (dice_literal_under_recovery (host := ReferenceHost.host)
              (str "0d6") 1 0 (initialInterpreter defaultOptions) eq_refl)
    as (v & j & Hrun & _ & _ & Herr & Hcase).
  replace (DiceCalculator.isDiceExpression (str "0d6")) with false in Hcase
    by (vm_compute; reflexivity).
  destruct Hcase as (-> & _ & m & Hw).
  exists j. split; [exact Hrun |]. split; [exact Herr |].
  rewrite Hw. reflexivity.
Defined.

Section DiceWithoutRecovery.
Context {host : Host}.
Import DiceCalculator.

(** X28: with recovery disabled, a dice literal whose text
    [isDiceExpression] rejects aborts the script: one Dice error is
    recorded, no warning, and the literal throws that error, or the
    ceiling error when the new error count exceeds [maxErrors]; nothing
    else of the state changes. *)
Theorem dice_literal_without_recovery (text : jsstring) (ln col : Z)
  (i : Interpreter) :
  enableRecovery (config (errorHandler i)) = false ->
  isDiceExpression text = false ->
  exists errorMessage j,
    let error := diceFailure errorMessage text ln col in
    let n := S (length (errors (errorHandler i))) in
    visitExpression (DiceExpression text ln col) i
    = Throw (ThrownDicenic
               (if Z.of_nat n <=? maxErrors (config (errorHandler i))
                then error else tooManyErrors n)) j
    /\ j = setErrorHandler (recordError error (errorHandler i)) i.
Proof.
  intros Hrec Hdice. cbn [visitExpression].
  unfold visitDiceExpression, tryCatch.
  unfold onRandom at 1. unfold zoom.
  pose proof (evaluateDiceExpression_cases text (randomDraws i)) as He.
  rewrite Hdice in He. destruct He as (e & ->).
  unfold onErrorHandler, zoom, handleDiceError, bind, get.
  cbn [errorHandler setRandomDraws]. rewrite Hrec, addError_unfold. cbv zeta.
  exists (thrown_message e). eexists. unfold diceFailure, recordError.
  destruct (_ <=? _); (split; [reflexivity |]); destruct i; reflexivity.
Qed.

End DiceWithoutRecovery.

(** Witness for X28: the literal [0d6] with recovery disabled. *)
Lemma dice_literal_without_recovery_witness :
  enableRecovery
    (config (errorHandler (newInterpreter emptyContext (handlerWith false 10))))
  = false
  /\ DiceCalculator.isDiceExpression (host := ReferenceHost.host) (str "0d6")
     = false
  /\ exists e j,
       visitExpression (host := ReferenceHost.host)
         (DiceExpression (str "0d6") 1 0)
         (newInterpreter emptyContext (handlerWith false 10))
       = Throw e j
       /\ length (errors (errorHandler j)) = 1%nat
       /\ warnings (errorHandler j) = [].
Proof.
  assert (Hd : DiceCalculator.isDiceExpression (host := ReferenceHost.host)
                 (str "0d6") = false) by (vm_compute; reflexivity).
  split; [reflexivity |]. split; [exact Hd |].
  destruct (dice_literal_without_recovery (host := ReferenceHost.host)
              (str "0d6") 1 0
              (newInterpreter emptyContext (handlerWith false 10))
              eq_refl Hd)
    as (m & j & Hrun & ->).
  eexists _, _. split; [exact Hrun |]. split; reflexivity.
Defined.

(** ** String literals *)

Section StringLiterals.
Context {host : Host}.

Lemma forallb_plainUnit content :
  forallb plainUnit content = true ->
  forallb (fun c => negb (N.eqb c 0x5C)) content = true
  /\ forallb (fun c => negb (N.eqb c 0x7B)) content = true.
Proof.
  induction content as [|c s IH]; [auto |]. cbn [forallb]. unfold plainUnit at 1.
  intros H. apply andb_true_iff in H as [Hc Hs].
  apply andb_true_iff in Hc as [H1 H2]. destruct (IH Hs) as [IH1 IH2].
  rewrite H1, H2, IH1, IH2. auto.
Qed.

(** X16: a string literal in double or single quotes whose content holds
    neither a backslash nor an opening brace evaluates to that content,
    and leaves the interpreter as it was. *)
Theorem plain_string_literal (quote : N) (content : jsstring)
  (i : Interpreter) :
  quote = 0x22%N \/ quote = 0x27%N ->
  forallb plainUnit content = true ->
  visitExpression (StringLiteral (quote :: content ++ [quote])) i
  = Ok (STRING content) i.
Proof.
  intros Hq Hplain. destruct (forallb_plainUnit _ Hplain) as [Hslash Hbrace].
  cbn [visitExpression]. unfold visitStringLiteral.
  assert (Hquoted :
    (startsWith (quote :: content ++ [quote]) [0x22%N]
     && endsWith (quote :: content ++ [quote]) [0x22%N])
    || (startsWith (quote :: content ++ [quote]) [0x27%N]
        && endsWith (quote :: content ++ [quote]) [0x27%N]) = true).
  { unfold endsWith. cbn [rev]. rewrite rev_app_distr. cbn [rev app].
    rewrite !startsWith_one. destruct Hq as [-> | ->]; reflexivity. }
  rewrite Hquoted.
  assert (Hinner : sliceInner (quote :: content ++ [quote]) = content).
  { unfold sliceInner. cbn [length skipn]. rewrite length_app. cbn [length].
    replace (S (length content + 1) - 2)%nat with (length content) by lia.
    apply take_app_length. }
  rewrite Hinner.
  assert (Hunescape : unescape content = content).
  { unfold unescape.
    repeat rewrite (replaceAll2_absent _ _ _ content) by exact Hslash.
    reflexivity. }
  rewrite Hunescape.
  unfold hasInterpolation, parseInterpolationExpressions.
  rewrite scanInterpolations_no_brace by exact Hbrace.
  reflexivity.
Qed.

End StringLiterals.

(** Witness for X16: the literal ["hi"]. *)
Lemma plain_string_literal_witness :
  (0x22%N = 0x22%N \/ 0x22%N = 0x27%N)
  /\ forallb plainUnit (str "hi") = true
  /\ visitExpression (host := ReferenceHost.host)
       (StringLiteral (0x22%N :: str "hi" ++ [0x22%N]))
       (initialInterpreter defaultOptions)
     = Ok (STRING (str "hi")) (initialInterpreter defaultOptions).
Proof.
  split; [left; reflexivity |]. split; [reflexivity |].
  apply (plain_string_literal (host := ReferenceHost.host) 0x22%N (str "hi"));
    [left; reflexivity | reflexivity].
Defined.

(** ** Assignments *)

Section Assignment.
Context {host : Host}.

(** X17: what an assignment returns is what its target then holds.  When
    an assignment, simple or compound, to a local or to a well-formed
    special variable of a writable pool returns a value, evaluating the
    target in the state reached yields that value and changes nothing. *)
Theorem assignment_then_read (target : Expression) (op : AssignmentOperator)
  (value : Expression) (i j : Interpreter) (v : DicenicValue) :
  writableTarget target = true ->
  visitExpression (AssignmentExpression target op value) i = Ok v j ->
  visitExpression target j = Ok v j.
Proof.
  intros Hw. cbn [visitExpression].
  unfold visitAssignmentExpression, performAssignment.
  unfold bind at 1.
  destruct (visitExpression value i) as [rv i1|]; [| discriminate].
  unfold bind at 1.
  destruct (assignmentValue target rv op i1) as [fv i2|]; [| discriminate].
  destruct target; try discriminate Hw; cbn [writableTarget] in Hw.
  - apply andb_true_iff in Hw as [Hwf Hcw].
    unfold storeAssignment. rewrite Hwf, Hcw. cbn [negb].
    unfold bind at 1. unfold get.
    destruct (setSpecialVariable_stored (charAt text 1)
                (substring_from text 2) fv (context i2) Hcw)
      as (c' & Hset & Hget).
    rewrite Hset. unfold bind, modify, ret. intros [= <- <-].
    cbn [visitExpression]. unfold visitSpecialVariable. rewrite Hwf.
    unfold readContext, setContext. cbn [context]. rewrite Hget. reflexivity.
  - unfold storeAssignment, bind, modify, ret. intros [= <- <-].
    cbn [visitExpression].
    unfold visitIdentifier, bind, get, ret, setContext. cbn [context].
    unfold getVariable, setVariable; cbn [variables].
    rewrite lookup_insert_eq. reflexivity.
Qed.

End Assignment.

(** Witness for X17: [x = 2], then [x]. *)
Lemma assignment_then_read_witness :
  writableTarget (Identifier (str "x")) = true
  /\ visitExpression (host := ReferenceHost.host) xAssignedTwo
       (initialInterpreter defaultOptions)
     = Ok (NUMBER 2%float)
         (setContext (setVariable (str "x") (NUMBER 2%float) emptyContext)
            (initialInterpreter defaultOptions))
  /\ visitExpression (host := ReferenceHost.host) (Identifier (str "x"))
       (setContext (setVariable (str "x") (NUMBER 2%float) emptyContext)
          (initialInterpreter defaultOptions))
     = Ok (NUMBER 2%float)
         (setContext (setVariable (str "x") (NUMBER 2%float) emptyContext)
            (initialInterpreter defaultOptions)).
Proof.
  assert (Hrun : visitExpression (host := ReferenceHost.host) xAssignedTwo
                   (initialInterpreter defaultOptions)
                 = Ok (NUMBER 2%float)
                     (setContext
                        (setVariable (str "x") (NUMBER 2%float) emptyContext)
                        (initialInterpreter defaultOptions)))
    by (vm_compute; reflexivity).
  split; [reflexivity |]. split; [exact Hrun |].
  exact (assignment_then_read (Identifier (str "x")) ASSIGN
           (NumberLiteral (str "2")) _ _ _ eq_refl Hrun).
Defined.

(** ** Logical chains *)

Section LogicalChains.
Context {host : Host}.

Lemma logicalOrLoop_all_falsy rest result i j :
  TypeConverter.toBoolean result = false ->
  evaluatedAll falsy rest i j ->
  logicalOrLoop (map visitExpression rest) result i
  = Ok (match rest with [] => result | _ => NUMBER 0%float end) j.
Proof.
  intros Hres Hall. revert result Hres.
  induction Hall as [i|x es i w i' j Hx Hw Hes IH]; intros result Hres;
    cbn [map logicalOrLoop]; [reflexivity |].
  rewrite Hres, (bind_Ok _ _ _ _ _ Hx).
  unfold falsy in Hw. apply negb_true_iff in Hw. rewrite Hw.
  cbn [orb]. change (boolNumber false) with (NUMBER 0%float).
  rewrite (IH _ toBoolean_zero). destruct es; reflexivity.
Qed.

Lemma logicalAndLoop_all_truthy rest result i j :
  TypeConverter.toBoolean result = true ->
  evaluatedAll truthy rest i j ->
  logicalAndLoop (map visitExpression rest) result i
  = Ok (match rest with [] => result | _ => NUMBER 1%float end) j.
Proof.
  intros Hres Hall. revert result Hres.
  induction Hall as [i|x es i w i' j Hx Hw Hes IH]; intros result Hres;
    cbn [map logicalAndLoop]; [reflexivity |].
  rewrite Hres. cbn [negb]. rewrite (bind_Ok _ _ _ _ _ Hx).
  unfold truthy in Hw. rewrite Hw.
  cbn [andb]. change (boolNumber true) with (NUMBER 1%float).
  rewrite (IH _ toBoolean_one). destruct es; reflexivity.
Qed.

(** X18: a chain that is not cut short is evaluated to its end.  When
    every operand of a logical-or chain of at least two operands is
    falsy, all operands are evaluated in turn and the chain returns
    Number 0 in the state reached after the last one; dually, a
    logical-and chain of truthy operands returns Number 1. *)
Theorem logical_chain_evaluated_to_the_end (first : Expression)
  (rest : list Expression) (i j : Interpreter) :
  rest <> [] ->
  (evaluatedAll falsy (first :: rest) i j ->
   visitExpression (LogicalOrExpression first rest) i = Ok (NUMBER 0%float) j)
  /\ (evaluatedAll truthy (first :: rest) i j ->
      visitExpression (LogicalAndExpression first rest) i
      = Ok (NUMBER 1%float) j).
Proof.
  intros Hrest.
  split; intros Hall; inversion Hall as [|e es i0 v i1 j0 He Hv Hes];
    subst; cbn [visitExpression].
  - unfold visitLogicalOrExpression. rewrite (bind_Ok _ _ _ _ _ He).
    unfold falsy in Hv. apply negb_true_iff in Hv.
    rewrite (logicalOrLoop_all_falsy _ _ _ _ Hv Hes).
    destruct rest; [contradiction | reflexivity].
  - unfold visitLogicalAndExpression. rewrite (bind_Ok _ _ _ _ _ He).
    rewrite (logicalAndLoop_all_truthy _ _ _ _ Hv Hes).
    destruct rest; [contradiction | reflexivity].
Qed.

Lemma logicalOrLoop_value rest result i v j :
  logicalOrLoop rest result i = Ok v j ->
  (rest = [] /\ v = result) \/ v = NUMBER 0%float \/ v = NUMBER 1%float.
Proof.
  revert result i. induction rest as [|operand rest IH]; intros result i;
    cbn [logicalOrLoop].
  - intros [= <- <-]. left. auto.
  - destruct (TypeConverter.toBoolean result).
    + intros [= <- <-]. auto.
    + unfold bind. destruct (operand i) as [w i1|]; [| discriminate].
      intros H. right. destruct (IH _ _ H) as [[_ ->] | H']; [| exact H'].
      destruct (TypeConverter.toBoolean w); auto.
Qed.

Lemma logicalAndLoop_value rest result i v j :
  logicalAndLoop rest result i = Ok v j ->
  (rest = [] /\ v = result) \/ v = NUMBER 0%float \/ v = NUMBER 1%float.
Proof.
  revert result i. induction rest as [|operand rest IH]; intros result i;
    cbn [logicalAndLoop].
  - intros [= <- <-]. left. auto.
  - destruct (TypeConverter.toBoolean result); cbn [negb].
    + unfold bind. destruct (operand i) as [w i1|]; [| discriminate].
      intros H. right. destruct (IH _ _ H) as [[_ ->] | H']; [| exact H'].
      destruct (TypeConverter.toBoolean w); auto.
    + intros [= <- <-]. auto.
Qed.

(** X19: a logical chain of at least two operands that returns, returns
    Number 0 or Number 1, whatever the types and values of its
    operands. *)
Theorem logical_chain_yields_zero_or_one (first : Expression)
  (rest : list Expression) (i j : Interpreter) (v : DicenicValue) :
  rest <> [] ->
  visitExpression (LogicalOrExpression first rest) i = Ok v j
  \/ visitExpression (LogicalAndExpression first rest) i = Ok v j ->
  v = NUMBER 0%float \/ v = NUMBER 1%float.
Proof.
  intros Hrest [H | H]; cbn [visitExpression] in H;
    unfold visitLogicalOrExpression, visitLogicalAndExpression, bind in H;
    destruct (visitExpression first i) as [w i1|]; try discriminate H.
  - destruct (logicalOrLoop_value _ _ _ _ _ H) as [[Hnil _] | H']; [| exact H'].
    destruct rest; [contradiction | discriminate Hnil].
  - destruct (logicalAndLoop_value _ _ _ _ _ H) as [[Hnil _] | H']; [| exact H'].
    destruct rest; [contradiction | discriminate Hnil].
Qed.

End LogicalChains.

(** Witness for X18: [0 || 0]. *)
Lemma logical_chain_evaluated_to_the_end_witness :
  [NumberLiteral (str "0")] <> []
  /\ evaluatedAll (host := ReferenceHost.host) falsy
       [NumberLiteral (str "0"); NumberLiteral (str "0")]
       (initialInterpreter defaultOptions) (initialInterpreter defaultOptions)
  /\ visitExpression (host := ReferenceHost.host) zeroOrZero
       (initialInterpreter defaultOptions)
     = Ok (NUMBER 0%float) (initialInterpreter defaultOptions).
Proof.
  assert (Hne : [NumberLiteral (str "0")] <> []) by discriminate.
  assert (Hall : evaluatedAll (host := ReferenceHost.host) falsy
                   [NumberLiteral (str "0"); NumberLiteral (str "0")]
                   (initialInterpreter defaultOptions)
                   (initialInterpreter defaultOptions)).
  { eapply evaluatedAll_cons; [vm_compute; reflexivity | reflexivity |].
    eapply evaluatedAll_cons; [vm_compute; reflexivity | reflexivity |].
    apply evaluatedAll_nil. }
  split; [exact Hne |]. split; [exact Hall |].
  exact (proj1 (logical_chain_evaluated_to_the_end (host := ReferenceHost.host)
                  (NumberLiteral (str "0")) [NumberLiteral (str "0")] _ _ Hne)
           Hall).
Defined.

(** Witness for X19: ['a' || 0] is Number 1. *)
Lemma logical_chain_yields_zero_or_one_witness :
  [NumberLiteral (str "0")] <> []
  /\ visitExpression (host := ReferenceHost.host) textOrZero
       (initialInterpreter defaultOptions)
     = Ok (NUMBER 1%float) (initialInterpreter defaultOptions)
  /\ (NUMBER 1%float = NUMBER 0%float \/ NUMBER 1%float = NUMBER 1%float).
Proof.
  assert (Hne : [NumberLiteral (str "0")] <> []) by discriminate.
  assert (Hrun : visitExpression (host := ReferenceHost.host) textOrZero
                   (initialInterpreter defaultOptions)
                 = Ok (NUMBER 1%float) (initialInterpreter defaultOptions))
    by (vm_compute; reflexivity).
  split; [exact Hne |]. split; [exact Hrun |].
  exact (logical_chain_yields_zero_or_one (host := ReferenceHost.host)
           (StringLiteral (str "'a'")) [NumberLiteral (str "0")] _ _ _ Hne
           (or_introl Hrun)).
Defined.

(** ** Binary chains *)

Section BinaryChains.
Context {host : Host}.

(** X29: the binary chains associate to the left.  At each of the four
    levels (additive, multiplicative, relational, equality) a chain
    evaluates as the chain of its first operands, in parentheses, followed
    by the remaining operands: the same value or the same thrown error, in
    the same state. *)
Theorem binary_chains_associate_to_the_left (first : Expression)
  (r1 r2 : list (Operator * Expression)) (i : Interpreter) :
  visitExpression (AdditiveExpression first (r1 ++ r2)) i
  = visitExpression
      (AdditiveExpression (Parenthesized (AdditiveExpression first r1)) r2) i
  /\ visitExpression (MultiplicativeExpression first (r1 ++ r2)) i
     = visitExpression
         (MultiplicativeExpression
            (Parenthesized (MultiplicativeExpression first r1)) r2) i
  /\ visitExpression (RelationalExpression first (r1 ++ r2)) i
     = visitExpression
         (RelationalExpression
            (Parenthesized (RelationalExpression first r1)) r2) i
  /\ visitExpression (EqualityExpression first (r1 ++ r2)) i
     = visitExpression
         (EqualityExpression
            (Parenthesized (EqualityExpression first r1)) r2) i.
Proof.
  repeat split; cbn [visitExpression]; rewrite map_app; unfold bind;
    destruct (visitExpression first i) as [v i1|]; try reflexivity.
  - rewrite additiveLoop_app. destruct (additiveLoop _ _ _); reflexivity.
  - rewrite multiplicativeLoop_app.
    destruct (multiplicativeLoop _ _ _); reflexivity.
  - rewrite relationalLoop_app. destruct (relationalLoop _ _ _); reflexivity.
  - rewrite equalityLoop_app. destruct (equalityLoop _ _ _); reflexivity.
Qed.

End BinaryChains.

(** ** Statements *)

Section Statements.
Context {host : Host}.

(** X20: how a while statement ends after [k] rounds.  After the full
    10000 rounds it returns the value of the last body with the loop
    warning recorded, and the condition is not evaluated again.  After
    fewer rounds, a falsy condition ends it with the value of the last
    body (Number 0 before the first round) and no loop warning, and an
    error thrown by the condition or by the body leaves the loop in the
    state in which it was thrown. *)
Theorem while_statement_after_rounds (c : Expression) (b : Statement)
  (ln col : Z) (k : nat) (i j : Interpreter) (r : DicenicValue) :
  rounds k (visitExpression c) (visitStatement b) (NUMBER 0%float) i
    = Some (r, j) ->
  (k <= maxLoopCount)%nat ->
  let loop := visitStatement (WhileStatement c b ln col) i in
  (k = maxLoopCount -> loop = Ok r (warnLoop ln col j))
  /\ (forall cv j1, (k < maxLoopCount)%nat ->
        visitExpression c j = Ok cv j1 ->
        TypeConverter.toBoolean cv = false -> loop = Ok r j1)
  /\ (forall e j1, (k < maxLoopCount)%nat ->
        visitExpression c j = Throw e j1 -> loop = Throw e j1)
  /\ (forall cv j1 e j2, (k < maxLoopCount)%nat ->
        visitExpression c j = Ok cv j1 ->
        TypeConverter.toBoolean cv = true ->
        visitStatement b j1 = Throw e j2 -> loop = Throw e j2).
Proof.
  intros Hr Hk loop. subst loop. cbn [visitStatement].
  unfold visitWhileStatement.
  assert (Hloop :
    whileLoop maxLoopCount (visitExpression c) (visitStatement b) ln col
      (NUMBER 0%float) i
    = whileLoop (maxLoopCount - k) (visitExpression c) (visitStatement b)
        ln col r j).
  { rewrite <- (whileLoop_rounds k (maxLoopCount - k) _ _ ln col _ _ _ _ Hr).
    f_equal. lia. }
  rewrite Hloop. clear Hloop.
  split; [| split; [| split]].
  - intros ->. rewrite Nat.sub_diag. reflexivity.
  - intros cv j1 Hlt Hc Hcv.
    destruct (maxLoopCount - k)%nat as [|m] eqn:Hm; [lia |].
    cbn [whileLoop]. unfold bind. rewrite Hc, Hcv. reflexivity.
  - intros e j1 Hlt Hc.
    destruct (maxLoopCount - k)%nat as [|m] eqn:Hm; [lia |].
    cbn [whileLoop]. unfold bind. rewrite Hc. reflexivity.
  - intros cv j1 e j2 Hlt Hc Hcv Hb.
    destruct (maxLoopCount - k)%nat as [|m] eqn:Hm; [lia |].
    cbn [whileLoop]. unfold bind at 1. rewrite Hc, Hcv. cbn [negb].
    unfold bind at 1. rewrite Hb. reflexivity.
Qed.

(** X21: the result of a script is the value of its last statement.  When
    the statements before [s] have run, a value returned by [s] as last
    statement is the value the script returns as text and stores in
    [lastValue]; an error thrown by [s] is thrown by the script in the
    same state, and the statements after [s] are not run. *)
Theorem interpret_last_statement (before after : Program) (s : Statement)
  (i i0 : Interpreter) (r : DicenicValue) :
  statementsLoop (map visitStatement before) (NUMBER 0%float)
    (setLastValue (NUMBER 0%float) i) = Ok r i0 ->
  (forall v i1, visitStatement s i0 = Ok v i1 ->
     interpret (before ++ [s]) i
     = Ok (TypeConverter.toString v) (setLastValue v i1))
  /\ (forall e i1, visitStatement s i0 = Throw e i1 ->
        interpret (before ++ s :: after) i = Throw e i1).
Proof.
  intros Hbefore. split.
  - intros v i1 Hs.
    rewrite interpret_unfold, map_app, statementsLoop_app, Hbefore.
    cbn [map statementsLoop].
    rewrite (bind_Ok _ _ _ _ _ Hs). reflexivity.
  - intros e i1 Hs.
    rewrite interpret_unfold, map_app, statementsLoop_app, Hbefore.
    cbn [map statementsLoop].
    rewrite (bind_Throw _ _ _ _ _ Hs). reflexivity.
Qed.

End Statements.

(** Witness for X20: the loop [while (x < 3) x += 1] ends after three
    rounds with the value 3. *)
Lemma while_statement_after_rounds_witness :
  exists j cv j1,
    rounds 3 (visitExpression (host := ReferenceHost.host) xBelowThree)
      (visitStatement (host := ReferenceHost.host) xPlusOne) (NUMBER 0%float)
      (initialInterpreter defaultOptions) = Some (NUMBER 3%float, j)
    /\ (3 <= maxLoopCount)%nat
    /\ visitExpression (host := ReferenceHost.host) xBelowThree j = Ok cv j1
    /\ TypeConverter.toBoolean cv = false
    /\ visitStatement (host := ReferenceHost.host)
         (WhileStatement xBelowThree xPlusOne 1 0)
         (initialInterpreter defaultOptions)
       = Ok (NUMBER 3%float) j1.
Proof.
  eexists _, _, _.
  assert (Hk : (3 <= maxLoopCount)%nat) by (unfold maxLoopCount; lia).
  split; [vm_compute; reflexivity |]. split; [exact Hk |].
  split; [vm_compute; reflexivity |]. split; [reflexivity |].
  refine (proj1 (proj2 (while_statement_after_rounds (host := ReferenceHost.host)
                          xBelowThree xPlusOne 1 0 3 _ _ _ _ Hk)) _ _ _ _ _).
  - vm_compute. reflexivity.
  - unfold maxLoopCount. lia.
  - vm_compute. reflexivity.
  - reflexivity.
Defined.

(** Witness for X21: the script [5] followed by [x = 2] returns "2". *)
Lemma interpret_last_statement_witness :
  statementsLoop
    (map (visitStatement (host := ReferenceHost.host))
       [ExpressionStatement (NumberLiteral (str "5"))])
    (NUMBER 0%float)
    (setLastValue (NUMBER 0%float) (initialInterpreter defaultOptions))
  = Ok (NUMBER 5%float)
      (setLastValue (NUMBER 5%float) (initialInterpreter defaultOptions))
  /\ interpret (host := ReferenceHost.host)
       ([ExpressionStatement (NumberLiteral (str "5"))]
        ++ [ExpressionStatement xAssignedTwo])
       (initialInterpreter defaultOptions)
     = Ok (JSString (str "2"))
         (setLastValue (NUMBER 2%float)
            (setContext (setVariable (str "x") (NUMBER 2%float) emptyContext)
               (setLastValue (NUMBER 5%float)
                  (initialInterpreter defaultOptions)))).
Proof.
  assert (Hbefore :
    statementsLoop
      (map (visitStatement (host := ReferenceHost.host))
         [ExpressionStatement (NumberLiteral (str "5"))])
      (NUMBER 0%float)
      (setLastValue (NUMBER 0%float) (initialInterpreter defaultOptions))
    = Ok (NUMBER 5%float)
        (setLastValue (NUMBER 5%float) (initialInterpreter defaultOptions)))
    by (vm_compute; reflexivity).
  split; [exact Hbefore |].
  refine (proj1 (interpret_last_statement _ [] (ExpressionStatement xAssignedTwo)
                   _ _ _ Hbefore) (NUMBER 2%float) _ _).
  vm_compute. reflexivity.
Defined.

Section Blocks.
Context {host : Host}.

Lemma statementsLoop_lastValue statements result i r j :
  statementsLoop statements result i = Ok r j ->
  (statements = [] /\ r = result /\ j = i) \/ lastValue j = r.
Proof.
  revert result i. induction statements as [|s l IH]; intros result i;
    cbn [statementsLoop].
  - intros [= <- <-]. left. auto.
  - unfold bind, modify. destruct (s i) as [w i1|]; [| discriminate].
    intros H. right.
    destruct (IH _ _ H) as [(_ & -> & ->) | Hl]; [reflexivity | exact Hl].
Qed.

Lemma setLastValue_same j : setLastValue (lastValue j) j = j.
Proof. destruct j. reflexivity. Qed.

(** X30: a block around a whole script changes nothing: the script made
    of one block returns the text, or throws the error, of the script made
    of the statements of the block, and leaves the same state. *)
Theorem block_around_a_script (parseTree : Program) (i : Interpreter) :
  interpret [Block parseTree] i = interpret parseTree i.
Proof.
  rewrite !interpret_unfold. cbn [map visitStatement statementsLoop].
  unfold visitBlock, bind, modify.
  destruct (statementsLoop (map visitStatement parseTree) (NUMBER 0%float)
              (setLastValue (NUMBER 0%float) i)) as [r j|e j] eqn:Hrun;
    [| reflexivity].
  assert (Hl : lastValue j = r).
  { destruct (statementsLoop_lastValue _ _ _ _ _ Hrun)
      as [(_ & -> & ->) | Hl]; [reflexivity | exact Hl]. }
  cbn [ret]. rewrite <- Hl, setLastValue_same. reflexivity.
Qed.

End Blocks.

(** ** Invariants of a run *)

Lemma recorded_handleLoopError msg loopType maxIterations ln col h :
  recorded h (final_state (handleLoopError msg loopType maxIterations ln col h)).
Proof. apply recorded_warning. Qed.

Lemma recorded_handleVariableAccessError msg v a ln col h :
  recorded h (final_state (handleVariableAccessError msg v a ln col h)).
Proof.
  rewrite handleVariableAccessError_unfold. cbv zeta.
  destruct (_ <=? _); [destruct (enableRecovery _) |]; apply recorded_error.
Qed.

Lemma recorded_handleDiceError msg d ln col h :
  recorded h (final_state (handleDiceError msg d ln col h)).
Proof.
  unfold handleDiceError, bind, get.
  destruct (enableRecovery (config h)); [apply recorded_warning |].
  rewrite addError_unfold. cbv zeta.
  destruct (_ <=? _); apply recorded_error.
Qed.

(** A relation between interpreter states that is reflexive and
    transitive and holds across each mutation the interpreter makes,
    holds across every run. *)
Section RunInvariant.
Context {host : Host}.
Variable R : Interpreter -> Interpreter -> Prop.
Hypothesis R_refl : forall i, R i i.
Hypothesis R_trans : forall i j k, R i j -> R j k -> R i k.
Hypothesis R_setLastValue : forall v i, R i (setLastValue v i).
Hypothesis R_setRandomDraws : forall n i, R i (setRandomDraws n i).
Hypothesis R_setVariable :
  forall name v i, R i (setContext (setVariable name v (context i)) i).
Hypothesis R_setSpecialVariable :
  forall prefix name v i c,
    setSpecialVariable prefix name v (context i) = Normal c ->
    R i (setContext c i).
Hypothesis R_recorded :
  forall i h, recorded (errorHandler i) h -> R i (setErrorHandler h i).

Local Set Default Proof Using "All".

Lemma preserves_ret {A} (a : A) : preserves R (ret a).
Proof. intros i. apply R_refl. Qed.

Lemma preserves_throw {A} e : preserves R (@throw _ A e).
Proof. intros i. apply R_refl. Qed.

Lemma preserves_get : preserves R (@get Interpreter).
Proof. intros i. apply R_refl. Qed.

Lemma preserves_bind {A B} (m : M Interpreter A) (f : A -> M Interpreter B) :
  preserves R m -> (forall a, preserves R (f a)) -> preserves R (bind m f).
Proof.
  intros Hm Hf i. unfold bind. specialize (Hm i).
  destruct (m i) as [a i'|e i']; cbn [final_state] in *;
    [eapply R_trans; [exact Hm | apply Hf] | exact Hm].
Qed.

Lemma preserves_tryCatch {A} (m : M Interpreter A)
  (h : Thrown -> M Interpreter A) :
  preserves R m -> (forall e, preserves R (h e)) -> preserves R (tryCatch m h).
Proof.
  intros Hm Hh i. unfold tryCatch. specialize (Hm i).
  destruct (m i) as [a i'|e i']; cbn [final_state] in *;
    [exact Hm | eapply R_trans; [exact Hm | apply Hh]].
Qed.

Lemma preserves_setLastValue v : preserves R (modify (setLastValue v)).
Proof. intros i. apply R_setLastValue. Qed.

Lemma preserves_readContext {A} (f : ExecutionContextData -> Completion A) :
  preserves R (readContext f).
Proof.
  intros i. unfold readContext. destruct (f (context i)); apply R_refl.
Qed.

Lemma preserves_onRandom {A} (m : M nat A) : preserves R (onRandom m).
Proof.
  intros i. unfold onRandom, zoom.
  destruct (m (randomDraws i)); apply R_setRandomDraws.
Qed.

Lemma preserves_onErrorHandler {A} (m : M ErrorHandler A) :
  (forall h, recorded h (final_state (m h))) ->
  preserves R (onErrorHandler m).
Proof.
  intros Hm i. unfold onErrorHandler, zoom. specialize (Hm (errorHandler i)).
  destruct (m (errorHandler i)); apply R_recorded, Hm.
Qed.

Ltac run_step :=
  first
    [ apply preserves_ret
    | apply preserves_throw
    | apply preserves_get
    | apply preserves_setLastValue
    | apply preserves_readContext
    | apply preserves_onRandom
    | apply preserves_onErrorHandler; intros ?;
      first [ apply recorded_handleLoopError
            | apply recorded_handleVariableAccessError
            | apply recorded_handleDiceError ]
    | apply preserves_bind; [| intros ? ] ].

Lemma preserves_performArithmeticOperation left right operator :
  preserves R (performArithmeticOperation left right operator).
Proof.
  intros i. rewrite performArithmeticOperation_state. apply R_refl.
Qed.

Lemma preserves_assignmentValue target rightValue operator :
  preserves R (assignmentValue target rightValue operator).
Proof.
  unfold assignmentValue.
  destruct operator; try run_step;
    try apply preserves_performArithmeticOperation;
    destruct target; try run_step;
    try (destruct (wellFormedSpecial _)); repeat run_step.
Qed.

Lemma preserves_storeAssignment target finalValue :
  preserves R (storeAssignment target finalValue).
Proof.
  unfold storeAssignment.
  destruct target; try solve [run_step].
  - destruct (wellFormedSpecial _); [| run_step].
    destruct (negb _); [repeat run_step |].
    intros i. unfold bind at 1. unfold get.
    destruct (setSpecialVariable _ _ _ _) eqn:Hs.
    + cbn. eapply R_setSpecialVariable, Hs.
    + assert (H : forall msg,
        preserves R
          (onErrorHandler
             (handleVariableAccessError msg text WriteAccess (-1) (-1)) ;;
           ret finalValue)) by (intros; repeat run_step).
      apply H.
  - run_step; [intros i; apply R_setVariable | run_step].
Qed.

Lemma preserves_additiveLoop rest :
  Forall (fun p => preserves R (snd p)) rest ->
  forall result, preserves R (additiveLoop rest result).
Proof.
  induction 1 as [|[operator operand] rest Hx _ IH]; intros result;
    cbn [additiveLoop snd] in *.
  - run_step.
  - run_step; [exact Hx |]. run_step; [| apply IH].
    destruct operator;
      first [apply preserves_performArithmeticOperation | run_step].
Qed.

Lemma preserves_multiplicativeLoop rest :
  Forall (fun p => preserves R (snd p)) rest ->
  forall result, preserves R (multiplicativeLoop rest result).
Proof.
  induction 1 as [|[operator operand] rest Hx _ IH]; intros result;
    cbn [multiplicativeLoop snd] in *.
  - run_step.
  - run_step; [exact Hx |]. run_step; [| apply IH].
    destruct operator;
      first [apply preserves_performArithmeticOperation | run_step].
Qed.

Lemma preserves_relationalLoop rest :
  Forall (fun p => preserves R (snd p)) rest ->
  forall result, preserves R (relationalLoop rest result).
Proof.
  induction 1 as [|[operator operand] rest Hx _ IH]; intros result;
    cbn [relationalLoop snd] in *.
  - run_step.
  - run_step; [exact Hx | apply IH].
Qed.

Lemma preserves_equalityLoop rest :
  Forall (fun p => preserves R (snd p)) rest ->
  forall result, preserves R (equalityLoop rest result).
Proof.
  induction 1 as [|[operator operand] rest Hx _ IH]; intros result;
    cbn [equalityLoop snd] in *.
  - run_step.
  - run_step; [exact Hx | apply IH].
Qed.

Lemma preserves_logicalOrLoop rest :
  Forall (preserves R) rest ->
  forall result, preserves R (logicalOrLoop rest result).
Proof.
  induction 1 as [|operand rest Hx _ IH]; intros result; cbn [logicalOrLoop].
  - run_step.
  - destruct (TypeConverter.toBoolean result); [run_step |].
    run_step; [exact Hx | apply IH].
Qed.

Lemma preserves_logicalAndLoop rest :
  Forall (preserves R) rest ->
  forall result, preserves R (logicalAndLoop rest result).
Proof.
  induction 1 as [|operand rest Hx _ IH]; intros result; cbn [logicalAndLoop].
  - run_step.
  - destruct (negb _); [run_step |].
    run_step; [exact Hx | apply IH].
Qed.

Lemma preserves_visitExpression e : preserves R (visitExpression e).
Proof.
  induction e using Expression_nested_ind; cbn [visitExpression].
  - unfold visitNumberLiteral. run_step.
  - unfold visitStringLiteral. repeat run_step.
  - unfold visitDiceExpression. apply preserves_tryCatch;
      [run_step | intros e; repeat run_step].
  - unfold visitSpecialVariable.
    destruct (wellFormedSpecial _); run_step.
  - unfold visitIdentifier. repeat run_step.
  - assumption.
  - unfold visitAssignmentExpression, performAssignment.
    run_step; [assumption |]. run_step.
    + apply preserves_assignmentValue.
    + apply preserves_storeAssignment.
  - unfold visitUnaryExpression. run_step; [assumption |].
    destruct op; run_step.
  - run_step; [assumption |].
    apply preserves_multiplicativeLoop, Forall_pairs_visit. assumption.
  - run_step; [assumption |].
    apply preserves_additiveLoop, Forall_pairs_visit. assumption.
  - run_step; [assumption |].
    apply preserves_relationalLoop, Forall_pairs_visit. assumption.
  - run_step; [assumption |].
    apply preserves_equalityLoop, Forall_pairs_visit. assumption.
  - unfold visitLogicalAndExpression. run_step; [assumption |].
    apply preserves_logicalAndLoop, Forall_operands_visit. assumption.
  - unfold visitLogicalOrExpression. run_step; [assumption |].
    apply preserves_logicalOrLoop, Forall_operands_visit. assumption.
  - unfold visitTernaryExpression. run_step; [assumption |].
    destruct (TypeConverter.toBoolean _); assumption.
Qed.

Lemma preserves_statementsLoop statements :
  Forall (preserves R) statements ->
  forall result, preserves R (statementsLoop statements result).
Proof.
  induction 1 as [|statement rest Hx _ IH]; intros result;
    cbn [statementsLoop].
  - run_step.
  - run_step; [exact Hx |]. run_step; [run_step | apply IH].
Qed.

Lemma preserves_whileLoop n c b ln col :
  preserves R c -> preserves R b ->
  forall result, preserves R (whileLoop n c b ln col result).
Proof.
  intros Hc Hb. induction n as [|n IH]; intros result; cbn [whileLoop].
  - repeat run_step.
  - run_step; [exact Hc |].
    destruct (negb _); [run_step |].
    run_step; [exact Hb |]. run_step; [run_step | apply IH].
Qed.

Lemma preserves_visitStatement s : preserves R (visitStatement s).
Proof.
  induction s as [e | c t IHt | c t f IHt IHf | c b ln col IHb | l IHl]
    using Statement_nested_ind; cbn [visitStatement].
  - apply preserves_visitExpression.
  - unfold visitIfStatement. run_step.
    + apply preserves_visitExpression.
    + destruct (TypeConverter.toBoolean _); [assumption | run_step].
  - unfold visitIfStatement. run_step.
    + apply preserves_visitExpression.
    + destruct (TypeConverter.toBoolean _); assumption.
  - unfold visitWhileStatement.
    apply preserves_whileLoop; [apply preserves_visitExpression |].
    assumption.
  - unfold visitBlock. apply preserves_statementsLoop.
    induction IHl; cbn; constructor; assumption.
Qed.

Lemma preserves_interpret parseTree : preserves R (interpret parseTree).
Proof.
  unfold interpret. run_step; [run_step |].
  run_step; [| repeat run_step].
  unfold visitProgram. apply preserves_statementsLoop.
  induction parseTree; cbn; constructor;
    [apply preserves_visitStatement | assumption].
Qed.

End RunInvariant.

Section RunInvariants.
Context {host : Host}.

(** X22: no script changes the read-only pools.  Whatever the script and
    the configuration, and whether the run returns or throws, the role
    pool and the system pool of the state it leaves are those of the state
    it started in. *)
Theorem interpret_keeps_read_only_pools (parseTree : Program)
  (i : Interpreter) :
  roleInfo (context (final_state (interpret parseTree i)))
  = roleInfo (context i)
  /\ systemInfo (context (final_state (interpret parseTree i)))
     = systemInfo (context i).
Proof.
  apply (preserves_interpret sameReadOnlyPools); unfold sameReadOnlyPools.
  - auto.
  - intros a b c [-> ->] [-> ->]. auto.
  - auto.
  - auto.
  - auto.
  - intros prefix name v j c Hs.
    destruct (setSpecialVariable_written _ _ _ _ _ Hs) as [[_ ->] | [_ ->]];
      auto.
  - auto.
Qed.

Lemma interpret_diagnosticsExtend (parseTree : Program) (i : Interpreter) :
  diagnosticsExtend i (final_state (interpret parseTree i)).
Proof.
  apply (preserves_interpret diagnosticsExtend); unfold diagnosticsExtend.
  - intros j. repeat split; exists []; symmetry; apply app_nil_r.
  - intros a b c (Hc & (es & He) & (ws & Hw)) (Hc' & (es' & He') & (ws' & Hw')).
    split; [congruence |]. split.
    + exists (es ++ es'). rewrite He', He, app_assoc. reflexivity.
    + exists (ws ++ ws'). rewrite Hw', Hw, app_assoc. reflexivity.
  - intros v j. repeat split; exists []; symmetry; apply app_nil_r.
  - intros n j. repeat split; exists []; symmetry; apply app_nil_r.
  - intros name v j. repeat split; exists []; symmetry; apply app_nil_r.
  - intros prefix name v j c _.
    repeat split; exists []; symmetry; apply app_nil_r.
  - intros j h [w | e]; cbn.
    + repeat split; [exists []; symmetry; apply app_nil_r | eauto].
    + repeat split; [eauto | exists []; symmetry; apply app_nil_r].
Qed.

(** X23: a run only adds diagnostics.  Whether it returns or throws, the
    configuration of the handler is the one it started with, and the
    errors and the warnings it started with are still there, in their
    order, before those the run recorded. *)
Theorem interpret_extends_diagnostics (parseTree : Program)
  (i : Interpreter) :
  let h := errorHandler i in
  let h' := errorHandler (final_state (interpret parseTree i)) in
  config h' = config h
  /\ (exists es, errors h' = errors h ++ es)
  /\ (exists ws, warnings h' = warnings h ++ ws).
Proof. exact (interpret_diagnosticsExtend parseTree i). Qed.

Lemma hasVariable_setVariable x name v c :
  hasVariable x c = true -> hasVariable x (setVariable name v c) = true.
Proof.
  unfold hasVariable, setVariable; cbn [variables].
  intros H. apply bool_decide_eq_true in H. apply bool_decide_eq_true.
  destruct (decide (x = name)) as [-> | Hne].
  - rewrite lookup_insert_eq. eauto.
  - rewrite lookup_insert_ne by congruence. exact H.
Qed.

Lemma hasSpecialVariable_setSpecialVariable prefix name v c c' q x :
  setSpecialVariable prefix name v c = Normal c' ->
  hasSpecialVariable q x c = Normal true ->
  hasSpecialVariable q x c' = Normal true.
Proof.
  intros Hs.
  assert (Hin : forall (m : gmap jsstring DicenicValue),
    Normal (bool_decide (is_Some (m !! x))) = Normal true ->
    Normal (bool_decide (is_Some (<[name := v]> m !! x))) = Normal true).
  { intros m [= H]. f_equal. apply bool_decide_eq_true in H.
    apply bool_decide_eq_true.
    destruct (decide (x = name)) as [-> | Hne].
    - rewrite lookup_insert_eq. eauto.
    - rewrite lookup_insert_ne by congruence. exact H. }
  unfold hasSpecialVariable.
  destruct (setSpecialVariable_written _ _ _ _ _ Hs) as [[_ ->] | [_ ->]];
    destruct (prefix_cases q)
      as [-> | [-> | [-> | [-> | (Ha & Hr & Hsy & Hd)]]]];
    try (rewrite !storage_unknown by assumption; discriminate);
    storage_simpl; auto.
Qed.

(** X24: no script deletes a variable.  Every local and every special
    variable that is present when a run starts is present in the state it
    leaves, whether the run returns or throws. *)
Theorem interpret_never_deletes_a_variable (parseTree : Program)
  (i : Interpreter) :
  (forall name, hasVariable name (context i) = true ->
     hasVariable name (context (final_state (interpret parseTree i))) = true)
  /\ (forall prefix name,
        hasSpecialVariable prefix name (context i) = Normal true ->
        hasSpecialVariable prefix name
          (context (final_state (interpret parseTree i))) = Normal true).
Proof.
  apply (preserves_interpret keepsVariables); unfold keepsVariables.
  - auto.
  - intros a b c [H1 H2] [H3 H4]. auto.
  - auto.
  - auto.
  - intros name v j. split; [| auto].
    intros x. apply hasVariable_setVariable.
  - intros prefix name v j c Hs. split.
    + destruct (setSpecialVariable_written _ _ _ _ _ Hs) as [[_ ->] | [_ ->]];
        auto.
    + intros q x. cbn [context setContext].
      apply (hasSpecialVariable_setSpecialVariable _ _ _ _ _ _ _ Hs).
  - auto.
Qed.

(** X25: [clear] makes a handler fit for a new run.  Whatever the handler
    has recorded, even past its ceiling, a run started on the cleared
    handler keeps its errors within [maxErrors] when it returns and
    exceeds it by at most one when it throws, under the configuration the
    handler had; this needs no more than a ceiling that is not
    negative. *)
Theorem clear_restores_the_ceiling (h : ErrorHandler)
  (c : ExecutionContextData) (parseTree : Program) :
  0 <= maxErrors (config h) ->
  let run := interpret parseTree (newInterpreter c (clear h)) in
  overByOne (errorHandler (final_state run))
  /\ (returns run = true -> withinLimit (errorHandler (final_state run)))
  /\ config (errorHandler (final_state run)) = config h.
Proof.
  intros Hmax run.
  pose proof (keepsCeiling_interpret parseTree (newInterpreter c (clear h)))
    as Hceil.
  pose proof (interpret_diagnosticsExtend parseTree
                (newInterpreter c (clear h))) as (Hconfig & _).
  fold run in Hceil, Hconfig.
  split; [| split].
  - destruct run as [r j|e j];
      cbn [final_state]; [apply withinLimit_overByOne |]; apply Hceil; exact Hmax.
  - destruct run as [r j|e j];
      cbn [final_state returns]; [intros _ | discriminate].
    apply Hceil. exact Hmax.
  - exact Hconfig.
Qed.

End RunInvariants.

(** Witness for X25: a handler with ceiling 2 that holds three errors is
    cleared, and one denied write is run on it. *)
Lemma clear_restores_the_ceiling_witness :
  0 <= maxErrors (config trippedHandler)
  /\ withinLimit trippedHandler = (3 <= 2)
  /\ let run := interpret (host := ReferenceHost.host) [deniedWrite]
                  (newInterpreter emptyContext (clear trippedHandler)) in
     overByOne (errorHandler (final_state run))
     /\ (returns run = true -> withinLimit (errorHandler (final_state run)))
     /\ config (errorHandler (final_state run)) = config trippedHandler.
Proof.
  assert (Hmax : 0 <= maxErrors (config trippedHandler)) by (cbn; lia).
  split; [exact Hmax |]. split; [reflexivity |].
  exact (clear_restores_the_ceiling (host := ReferenceHost.host)
           trippedHandler emptyContext [deniedWrite] Hmax).
Defined.

(** ** The entry point *)

Section EntryPointResult.
Context {host : Host}.

(** X26: in every result of [executeScript] the success flag says that the
    error list is empty: after a syntax failure, after a run that
    returned, with or without recorded errors, and after a run that
    threw.  Warnings play no role. *)
Theorem executeScript_success_iff_no_errors (parsed : ParseOutcome)
  (options : ScriptOptions) :
  exists r, executeScript parsed options = Normal r
    /\ (Script.success r = true <-> Script.errors r = []).
Proof.
  destruct parsed as [parseTree [|]].
  - eexists. split; [reflexivity |]. cbn. split; discriminate.
  - rewrite executeScript_unfold. eexists. split; [reflexivity |].
    destruct (interpret parseTree (initialInterpreter options)) as [text i|e i].
    + unfold resultOf. cbn [Script.success Script.errors].
      destruct (map getFormattedMessage (errors (errorHandler i)));
        cbn; split; congruence.
    + cbn. split; discriminate.
Qed.

(** X27: the option [enableErrorRecovery] has no effect: [executeScript]
    returns the same result whatever its value, recovery being governed by
    [errorConfig.enableRecovery] alone. *)
Theorem executeScript_ignores_enableErrorRecovery (parsed : ParseOutcome)
  (options : ScriptOptions) (flag : option bool) :
  executeScript parsed
    {| context_opt := context_opt options;
       errorConfig_opt := errorConfig_opt options;
       enableErrorRecovery_opt := flag |}
  = executeScript parsed options.
Proof. reflexivity. Qed.

End EntryPointResult.
